(** * cyprusAutomation: the utility layer of the Cypress suite

    A shallow embedding of the JavaScript helpers under
    [cypress/support]: [TestDataManager], [PerformanceMonitor],
    [ErrorHandler] and the [apiLogin] / [apiRequest] commands, together
    with the properties that the specification states about them.

    Conventions of the embedding.
    - JavaScript values are the inductive [jsval]; numbers are the integers
      (type [Z]) printed in decimal, plus [NaN].
    - A JavaScript object used as a dictionary is a [gmap string _] holding
      its own properties.  Where the source indexes such an object with a
      name it is given, [o[key]], the members every plain object inherits
      from [Object.prototype] are found as well; where it reads a property
      by a fixed name that [Object.prototype] does not have, the own
      property is all there is.
    - A regular expression is an object with a [lastIndex], kept in a heap,
      so that two schema entries can share one expression.
    - [Date.now()] and [new Date().toISOString()] are inputs of the
      functions that read the clock.
    - A method that mutates [this] or talks to Cypress is a function from
      the state before to the state after, with the Cypress commands it
      enqueues collected in order. *)

From Stdlib Require Import Ascii.
From stdpp Require Import gmap strings list pretty.
From Equations Require Import Equations.

Set Warnings "-register-all".
Local Open Scope Z_scope.

(** ** JavaScript values *)

Module JS.

Inductive jsval :=
| JUndefined
| JNull
| JBool (b : bool)
| JNum (n : Z)
| JNaN
| JStr (s : string)
| JObj (o : gmap string jsval).

(** [typeof v] *)
Definition typeof (v : jsval) : string :=
  match v with
  | JUndefined => "undefined"
  | JNull => "object"
  | JBool _ => "boolean"
  | JNum _ | JNaN => "number"
  | JStr _ => "string"
  | JObj _ => "object"
  end.

(** [ToBoolean]: what [if (v)], [!v] and [v && ...] test. *)
Definition truthy (v : jsval) : bool :=
  match v with
  | JUndefined | JNull | JNaN => false
  | JBool b => b
  | JNum n => negb (n =? 0)
  | JStr s => negb (String.eqb s "")
  | JObj _ => true
  end.

Definition falsy (v : jsval) : bool := negb (truthy v).

(** [ToString], as used by template literals and [RegExp.prototype.test]. *)
Definition toString (v : jsval) : string :=
  match v with
  | JUndefined => "undefined"
  | JNull => "null"
  | JBool true => "true"
  | JBool false => "false"
  | JNum n => pretty n
  | JNaN => "NaN"
  | JStr s => s
  | JObj _ => "[object Object]"
  end.

(** [o.key] for a name [key] that [Object.prototype] does not have: a
    missing property reads [undefined]. *)
Definition get (o : gmap string jsval) (key : string) : jsval :=
  default JUndefined (o !! key).

(** *** Plain objects and [Object.prototype] *)

(** What a plain object inherits: the functions of [Object.prototype] and,
    under [__proto__], an accessor that yields [Object.prototype] itself. *)
Inductive builtin :=
| ObjectPrototype
| NativeFunction (name : string).

(** The members of [Object.prototype] by name. *)
Definition Object_prototype (key : string) : option builtin :=
  if String.eqb key "constructor" then Some (NativeFunction "Object")
  else if String.eqb key "__proto__" then Some ObjectPrototype
  else if bool_decide (key ∈ ["__defineGetter__"; "__defineSetter__";
                               "__lookupGetter__"; "__lookupSetter__";
                               "hasOwnProperty"; "isPrototypeOf";
                               "propertyIsEnumerable"; "toLocaleString";
                               "toString"; "valueOf"])
  then Some (NativeFunction key)
  else None.

(** What indexing an object yields: one of its own values, or a member it
    inherits. *)
Inductive entry (A : Type) :=
| Value (a : A)
| Builtin (b : builtin).
Global Arguments Value {A} a.
Global Arguments Builtin {A} b.

(** [o[key]] on a plain object with own properties [o]: the own property
    when there is one, else the member of [Object.prototype] of that name,
    else nothing ([undefined]). *)
Definition index {A} (o : gmap string A) (key : string) : option (entry A) :=
  match o !! key with
  | Some a => Some (Value a)
  | None => Builtin <$> Object_prototype key
  end.

(** [o[key]] on an object of values. *)
Definition read (o : gmap string jsval) (key : string) : entry jsval :=
  default (Value JUndefined) (index o key).

(** [ToBoolean], [typeof] and [ToString] of what was read.  The text of a
    native function is the one V8 prints. *)
Definition ToBoolean (x : entry jsval) : bool :=
  match x with
  | Value v => truthy v
  | Builtin _ => true
  end.

Definition TypeOf (x : entry jsval) : string :=
  match x with
  | Value v => typeof v
  | Builtin ObjectPrototype => "object"
  | Builtin (NativeFunction _) => "function"
  end.

Definition builtin_text (b : builtin) : string :=
  match b with
  | ObjectPrototype => "[object Object]"
  | NativeFunction name => "function " +:+ name +:+ "() { [native code] }"
  end.

Definition ToString (x : entry jsval) : string :=
  match x with
  | Value v => toString v
  | Builtin b => builtin_text b
  end.

(** A number a configuration object holds under a key, or [undefined]: an
    object literal may name a key and give it no value. *)
Definition number (o : gmap string (option Z)) (key : string) : option Z :=
  mjoin (o !! key).

(** The value of such a property. *)
Definition number_value (x : option Z) : jsval := from_option JNum JUndefined x.

(** *** Regular expressions

    [matcher S i] is the match the pattern finds in [S] when the search
    starts at index [i] (with the sticky flag: the match at [i]), given by
    the index at which the match ends. *)
Record RegExp := {
  matcher : string -> nat -> option nat;
  global : bool;
  sticky : bool;
  lastIndex : nat
}.

Definition set_lastIndex (i : nat) (R : RegExp) : RegExp :=
  {| matcher := matcher R; global := global R; sticky := sticky R; lastIndex := i |}.

(** [R.test(S)]: with the [g] or the [y] flag the search starts at
    [lastIndex], which is then moved behind the match, or back to 0 when
    there is none; without them [lastIndex] plays no part. *)
Definition test (R : RegExp) (S : string) : bool * RegExp :=
  if global R || sticky R then
    match (if (lastIndex R <=? String.length S)%nat
           then matcher R S (lastIndex R) else None) with
    | Some e => (true, set_lastIndex e R)
    | None => (false, set_lastIndex 0 R)
    end
  else (match matcher R S 0 with Some _ => true | None => false end, R).

(** The regular expressions alive, by identity. *)
Definition RegExps := nat -> RegExp.

Definition put (a : nat) (R : RegExp) (h : RegExps) : RegExps :=
  λ a', if (a' =? a)%nat then R else h a'.

(** How a call completes: it returns a value or throws [new Error(msg)]. *)
Inductive completion (A : Type) :=
| Return (a : A)
| Throw (msg : string).
Global Arguments Return {A} a.
Global Arguments Throw {A} msg.

Definition throws {A} (c : completion A) : bool :=
  match c with Throw _ => true | Return _ => false end.

(** [v.key]: reading a property of [undefined] or [null] is a [TypeError]. *)
Definition member (v : jsval) (key : string) : completion jsval :=
  match v with
  | JUndefined | JNull =>
      Throw ("Cannot read properties of " +:+ toString v
               +:+ " (reading '" +:+ key +:+ "')")
  | JObj o => Return (get o key)
  | _ => Return JUndefined
  end.

(** [v?.key] *)
Definition optional_member (v : jsval) (key : string) : jsval :=
  match v with
  | JObj o => get o key
  | _ => JUndefined
  end.

(** [a || b] *)
Definition or_else (a b : jsval) : jsval := if truthy a then a else b.

(** [arr.join(sep)] on an array of strings. *)
Definition join (sep : string) (arr : list string) : string :=
  String.concat sep arr.

End JS.
Import JS.

(** ** TestDataManager *)

Module TestDataManager.

(** The object returned by [generateEmployeeData]. *)
Record employee := {
  firstName : string;
  lastName : string;
  middleName : string;
  employeeId : string;
  otherId : string;
  licenseNo : string;
  licenseExpiryDate : string;
  ssnNumber : string;
  sinNumber : string;
  nationalityId : Z;
  maritalStatus : string;
  dateOfBirth : string;
  gender : string;
  smoker : bool;
  militaryService : string;
  bloodType : string;
  addressStreet1 : string;
  addressStreet2 : string;
  city : string;
  stateProvince : string;
  zipCode : string;
  countryCode : string;
  homeTelephone : string;
  mobile : string;
  workTelephone : string;
  workEmail : string;
  otherEmail : string
}.

(** [generateEmployeeData()]; [timestamp] is the value [Date.now()] returns
    when the call is made. *)
Definition generateEmployeeData (timestamp : Z) : employee :=
  {| firstName := "Test" +:+ pretty timestamp;
     lastName := "Employee";
     middleName := "M";
     employeeId := "EMP" +:+ pretty timestamp;
     otherId := "OTH" +:+ pretty timestamp;
     licenseNo := "LIC" +:+ pretty timestamp;
     licenseExpiryDate := "2025-12-31";
     ssnNumber := "123-45-6789";
     sinNumber := "SIN123456";
     nationalityId := 1;
     maritalStatus := "Single";
     dateOfBirth := "1990-01-01";
     gender := "Male";
     smoker := false;
     militaryService := "No";
     bloodType := "O+";
     addressStreet1 := "123 Test St";
     addressStreet2 := "Apt 1A";
     city := "Test City";
     stateProvince := "TC";
     zipCode := "12345";
     countryCode := "US";
     homeTelephone := "555-123-4567";
     mobile := "555-987-6543";
     workTelephone := "555-555-5555";
     workEmail := "test.employee" +:+ pretty timestamp +:+ "@company.com";
     otherEmail := "test.employee" +:+ pretty timestamp +:+ ".personal@gmail.com" |}.

(** One entry [schema[key]] of a validation schema.  [pattern] is the
    regular expression of the entry, when it has one: the identity of a
    [RegExp] object, which several entries may share. *)
Record rule := {
  required : bool;
  type : option string;
  pattern : option nat
}.

(** A schema in the order [Object.keys(schema)] enumerates it. *)
Definition schema := list (string * rule).

(** [schema[key].type] is tested for truthiness before it is compared. *)
Definition type_given (r : rule) : option string :=
  match type r with
  | Some t => if String.eqb t "" then None else Some t
  | None => None
  end.

(** The body of the [forEach] callback of [validateTestData]: [errors] is
    the array and [h] the regular expressions before the key is visited,
    the result the array and the regular expressions after. *)
Definition visit_key (data : gmap string jsval) (key : string) (r : rule)
    (errors : list string) (h : RegExps) : list string * RegExps :=
  let v := read data key in
  let errors :=
    if required r && negb (ToBoolean v)
    then errors ++ ["Missing required field: " +:+ key]
    else errors in
  let errors :=
    match type_given r with
    | Some t =>
        if ToBoolean v && negb (String.eqb (TypeOf v) t)
        then errors ++ ["Invalid type for " +:+ key +:+ ": expected " +:+ t
                          +:+ ", got " +:+ TypeOf v]
        else errors
    | None => errors
    end in
  match pattern r with
  | Some a =>
      if ToBoolean v then
        let '(matched, R) := test (h a) (ToString v) in
        (if matched then errors
         else errors ++ ["Invalid format for " +:+ key +:+ ": " +:+ ToString v],
         put a R h)
      else (errors, h)
  | None => (errors, h)
  end.

(** The [errors] array, and the regular expressions, once
    [Object.keys(schema).forEach] has run. *)
Definition collect_errors (data : gmap string jsval) (s : schema) (h : RegExps)
    : list string * RegExps :=
  foldl (fun '(errors, h) kr => visit_key data kr.1 kr.2 errors h) ([], h) s.

(** [validateTestData(data, schema)]; [h] is the state of the regular
    expressions when the call is made. *)
Definition validateTestData (data : gmap string jsval) (s : schema) (h : RegExps)
    : completion jsval * RegExps :=
  let '(errors, h) := collect_errors data s h in
  if (0 <? length errors)%nat
  then (Throw ("Test data validation failed: " +:+ join ", " errors), h)
  else (Return (JBool true), h).

(** *** The violations of one key, stated on their own

    The three checks the specification lists, each contributing at most one
    message.  The format check is the only one to use a regular expression,
    and it leaves the expression in the state [after_key] gives. *)

Definition missing_violation (data : gmap string jsval) (key : string) (r : rule)
    : list string :=
  if required r && negb (ToBoolean (read data key))
  then ["Missing required field: " +:+ key] else [].

Definition type_violation (data : gmap string jsval) (key : string) (r : rule)
    : list string :=
  match type_given r with
  | Some t =>
      if ToBoolean (read data key) && negb (String.eqb (TypeOf (read data key)) t)
      then ["Invalid type for " +:+ key +:+ ": expected " +:+ t
              +:+ ", got " +:+ TypeOf (read data key)]
      else []
  | None => []
  end.

(** Whether the format of the value is looked at, and with which
    expression. *)
Definition pattern_tested (data : gmap string jsval) (key : string) (r : rule)
    : option nat :=
  if ToBoolean (read data key) then pattern r else None.

Definition pattern_violation (data : gmap string jsval) (h : RegExps)
    (key : string) (r : rule) : list string :=
  match pattern_tested data key r with
  | Some a =>
      if (test (h a) (ToString (read data key))).1 then []
      else ["Invalid format for " +:+ key +:+ ": " +:+ ToString (read data key)]
  | None => []
  end.

Definition key_violations (data : gmap string jsval) (h : RegExps)
    (key : string) (r : rule) : list string :=
  missing_violation data key r ++ type_violation data key r
    ++ pattern_violation data h key r.

(** The regular expressions once the key has been checked. *)
Definition after_key (data : gmap string jsval) (h : RegExps)
    (key : string) (r : rule) : RegExps :=
  match pattern_tested data key r with
  | Some a => put a (test (h a) (ToString (read data key))).2 h
  | None => h
  end.

(** The regular expressions once all keys of [s] have been checked. *)
Fixpoint after (data : gmap string jsval) (s : schema) (h : RegExps) : RegExps :=
  match s with
  | [] => h
  | (key, r) :: s => after data s (after_key data h key r)
  end.

(** The violations of all keys, each key checked with the regular
    expressions as the keys before it leave them. *)
Fixpoint violations (data : gmap string jsval) (s : schema) (h : RegExps)
    : list string :=
  match s with
  | [] => []
  | (key, r) :: s =>
      key_violations data h key r ++ violations data s (after_key data h key r)
  end.

(** The credentials of one role. *)
Record credentials := {
  username : string;
  password : string;
  role : string;
  permissions : list string
}.

Definition credentials_admin : credentials :=
  {| username := "Admin"; password := "admin123"; role := "admin";
     permissions := ["read"; "write"; "delete"] |}.

(** The table [users] of [getUserCredentials]. *)
Definition users : gmap string credentials :=
  {[ "admin" := credentials_admin;
     "user" := {| username := "user"; password := "user123"; role := "user";
                  permissions := ["read"] |};
     "manager" := {| username := "manager"; password := "manager123";
                     role := "manager"; permissions := ["read"; "write"] |} ]}.

(** [getUserCredentials(role = 'admin')]: [users[role] || users.admin];
    [None] is a call without argument.  Whatever [users[role]] finds is an
    object and so truthy, be it an entry of the table or a member that the
    table inherits. *)
Definition getUserCredentials (asked : option string) : entry credentials :=
  let asked := default "admin" asked in
  default (Value credentials_admin) (index users asked).

Record environment := {
  baseUrl : string;
  apiUrl : string;
  timeout : Z
}.

Definition environment_test : environment :=
  {| baseUrl := "https://opensource-demo.orangehrmlive.com";
     apiUrl := "https://opensource-demo.orangehrmlive.com/web/index.php/api";
     timeout := 10000 |}.

(** The table [environments] of [getEnvironmentData]. *)
Definition environments : gmap string environment :=
  {[ "test" := environment_test;
     "staging" := {| baseUrl := "https://staging.orangehrmlive.com";
                     apiUrl := "https://staging.orangehrmlive.com/web/index.php/api";
                     timeout := 15000 |};
     "production" := {| baseUrl := "https://production.orangehrmlive.com";
                        apiUrl := "https://production.orangehrmlive.com/web/index.php/api";
                        timeout := 20000 |} ]}.

(** [getEnvironmentData()]; [ENV] is [Cypress.env('ENV')], from which the
    constructor sets [this.environment = Cypress.env('ENV') || 'test']. *)
Definition getEnvironmentData (ENV : jsval) : entry environment :=
  let this_environment := or_else ENV (JStr "test") in
  default (Value environment_test) (index environments (toString this_environment)).

(** [s.charAt(i)] *)
Definition charAt (s : string) (i : Z) : string :=
  if i <? 0 then ""
  else match String.get (Z.to_nat i) s with
       | Some c => String c ""
       | None => ""
       end.

Definition chars : string :=
  "ABCDEFGHIJKLMNOPQRSTUVWXYZabcdefghijklmnopqrstuvwxyz0123456789".

(** The generator [text]: [Array.from({ length }, ..).join('')] with the
    parameter default [length = 10].  [floor_random k n] is what the [k]-th
    evaluation of [Math.floor(Math.random() * n)] in the call yields. *)
Definition generate_text (floor_random : nat -> Z -> Z) (length : option Z) : string :=
  let length := default 10 length in
  join "" (map (λ k, charAt chars (floor_random k (Z.of_nat (String.length chars))))
               (seq 0 (Z.to_nat length))).

(** What [generateRandomData] returns: the datum a generator made, or
    whatever the call of a member that [generators] inherits yields, which
    is no generated datum (and for [__proto__] no call at all, but a
    [TypeError]). *)
Inductive generated :=
| Generated (datum : string)
| CallInherited (member : builtin).

(** [generateRandomData(type, options = {})]; [timestamp] is what
    [Date.now()] returns in the call.  Every generator is called without an
    argument, and [options] is not looked at. *)
Definition generateRandomData (timestamp : Z) (floor_random : nat -> Z -> Z)
    (type : string) (options : jsval) : generated :=
  let generators : gmap string string :=
    {[ "email" := "test" +:+ pretty timestamp +:+ "@example.com";
       "username" := "user" +:+ pretty timestamp;
       "password" := "pass" +:+ pretty timestamp;
       "name" := "Test User " +:+ pretty timestamp;
       "phone" := "555-" +:+ pretty (floor_random 0%nat 900 + 100) +:+ "-"
                    +:+ pretty (floor_random 1%nat 9000 + 1000);
       "id" := "ID" +:+ pretty timestamp;
       "text" := generate_text floor_random None ]} in
  match index generators type with
  | Some (Value datum) => Generated datum
  | Some (Builtin member) => CallInherited member
  | None => Generated ("random_" +:+ type +:+ "_" +:+ pretty timestamp)
  end.

End TestDataManager.

(** ** JavaScript arrays *)

Module JSArray.

(** The relative index of [Array.prototype.slice]: a negative index counts
    from the end, and the result is clamped to the array. *)
Definition relative_index (len : Z) (k : Z) : Z :=
  if k <? 0 then Z.max (len + k) 0 else Z.min k len.

(** [arr.slice(start, end)] *)
Definition slice {A} (start end_ : Z) (arr : list A) : list A :=
  let len := Z.of_nat (length arr) in
  let k := relative_index len start in
  let final := relative_index len end_ in
  take (Z.to_nat (final - k)) (drop (Z.to_nat k) arr).

(** [arr.slice(start)] *)
Definition slice_from {A} (start : Z) (arr : list A) : list A :=
  slice start (Z.of_nat (length arr)) arr.

End JSArray.

(** ** ErrorHandler *)

Module ErrorHandler.

(** What a method does to the outside, in order: the Cypress commands it
    enqueues, the calls of a wrapped operation, the timers it arms. *)
Inductive event :=
| CyLogInfo (message : string) (data : jsval)
| CyLogError (message : string) (data : jsval)
| CyTakeScreenshot (name : string)
| OperationCall (attempts : Z)
| SetTimeout (delay : Z).

(** An error record is a plain object. *)
Abbreviation error := (gmap string jsval).

(** The fields the constructor initialises.  A thresholds object holds
    numbers, or [undefined] where a caller has put it. *)
Record state := {
  errorLog : list error;
  retryAttempts : Z;
  retryDelay : Z;
  errorThresholds : gmap string (option Z)
}.

Definition constructor : state :=
  {| errorLog := [];
     retryAttempts := 3;
     retryDelay := 1000;
     errorThresholds :=
       {[ "critical" := Some 5; "warning" := Some 10; "info" := Some 20 ]} |}.

(** The readings of the clock a method takes: [new Date().toISOString()]
    and [Date.now()]. *)
Record clock := { toISOString : string; now : Z }.

(** A method: from the handler's state to how it completes, the state it
    leaves and what it did. *)
Definition M (A : Type) : Type := state -> completion A * state * list event.

#[global] Instance M_ret : MRet M := λ A a s, (Return a, s, []).

#[global] Instance M_bind : MBind M := λ A B f m s,
  match m s with
  | (Return a, s', out) =>
      match f a s' with (r, s'', out') => (r, s'', out ++ out') end
  | (Throw msg, s', out) => (Throw msg, s', out)
  end.

Definition throw {A} (msg : string) : M A := λ s, (Throw msg, s, []).
Definition emit (e : event) : M unit := λ s, (Return (), s, [e]).
Definition this : M state := λ s, (Return s, s, []).
Definition assign (f : state -> state) : M unit := λ s, (Return (), f s, []).

(** [{ errorCount }] and the like: an object literal with one number. *)
Definition obj1 (k : string) (n : Z) : jsval := JObj {[ k := JNum n ]}.

(** [n >= limit] where [limit] is read from a thresholds object: a missing
    key reads [undefined], and a comparison with [undefined] is false. *)
Definition reaches (n : Z) (limit : option Z) : bool :=
  match limit with
  | Some l => l <=? n
  | None => false
  end.

(** [this.errorLog.push(error)] *)
Definition push_error (error : error) (s : state) : state :=
  {| errorLog := errorLog s ++ [error];
     retryAttempts := retryAttempts s;
     retryDelay := retryDelay s;
     errorThresholds := errorThresholds s |}.

(** [logError(error)] *)
Definition logError (error : error) : M unit :=
  assign (push_error error) ;;
  s ← this;
  let errorCount := Z.of_nat (length (errorLog s)) in
  if reaches errorCount (number (errorThresholds s) "critical")
  then emit (CyLogError "Critical error threshold reached" (obj1 "errorCount" errorCount))
  else if reaches errorCount (number (errorThresholds s) "warning")
  then emit (CyLogError "Warning error threshold reached" (obj1 "errorCount" errorCount))
  else mret ().

(** What [logError] tells Cypress when the log has grown to [errorCount]
    records under the thresholds [th]. *)
Definition threshold_events (th : gmap string (option Z)) (errorCount : Z)
    : list event :=
  if reaches errorCount (number th "critical")
  then [CyLogError "Critical error threshold reached" (obj1 "errorCount" errorCount)]
  else if reaches errorCount (number th "warning")
  then [CyLogError "Warning error threshold reached" (obj1 "errorCount" errorCount)]
  else [].

(** A response as [handleApiError] reads it. *)
Record Response := {
  status : Z;
  statusText : jsval;
  config : jsval;
  data : jsval
}.

(** [handleApiError(response, context = '')] *)
Definition handleApiError (clk : clock) (response : Response) (context : string)
    : M Response :=
  if 400 <=? status response then
    let message := "API error: " +:+ pretty (status response) +:+ " "
                     +:+ toString (statusText response) in
    let apiError : error :=
      {[ "type" := JStr "ApiError";
         "status" := JNum (status response);
         "statusText" := statusText response;
         "url" := optional_member (config response) "url";
         "data" := data response;
         "context" := JStr context;
         "timestamp" := JStr (toISOString clk);
         "message" := JStr message ]} in
    logError apiError ;;
    emit (CyLogError "API error occurred" (JObj apiError)) ;;
    emit (CyTakeScreenshot ("api_error_" +:+ pretty (now clk))) ;;
    throw message
  else mret response.

(** The property key an arbitrary value is used as: [obj[v]]. *)
Definition property_key (v : jsval) : string := toString v.

(** What a counter object holds under a key.  The object starts empty and
    is written by [count_up] alone, so it holds a number, or, under a name
    that [Object.prototype] has as well, a text: there the first read finds
    the inherited member, and an object plus 1 is the text of the object
    followed by the digit 1.  [Polluted member ones] is the text of
    [member] followed by [ones] digits 1. *)
Inductive counter :=
| Count (n : Z)
| Polluted (member : builtin) (ones : nat).

(** [(x || 0) + 1] for what [counts[key]] found. *)
Definition plus_one (x : option (entry counter)) : counter :=
  match x with
  | Some (Value (Count n)) => Count ((if n =? 0 then 0 else n) + 1)
  | Some (Value (Polluted member ones)) => Polluted member (S ones)
  | Some (Builtin member) => Polluted member 1
  | None => Count (0 + 1)
  end.

(** [counts[key] = (counts[key] || 0) + 1].  An assignment to [__proto__]
    on an object that has no such property of its own goes to the accessor
    of [Object.prototype], which ignores what is no object. *)
Definition count_up (counts : gmap string counter) (key : string)
    : gmap string counter :=
  let next := plus_one (index counts key) in
  if String.eqb key "__proto__" && bool_decide (counts !! key = None)
  then counts
  else <[ key := next ]> counts.

Record statistics := {
  totalErrors : Z;
  errorTypes : gmap string counter;
  errorContexts : gmap string counter;
  recentErrors : list error
}.

(** [getErrorStatistics()] *)
Definition getErrorStatistics (s : state) : statistics :=
  let '(errorTypes, errorContexts) :=
    foldl (λ '(errorTypes, errorContexts) (error : error),
             (count_up errorTypes (property_key (get error "type")),
              count_up errorContexts (property_key (get error "context"))))
          (∅, ∅) (errorLog s) in
  {| totalErrors := Z.of_nat (length (errorLog s));
     errorTypes := errorTypes;
     errorContexts := errorContexts;
     recentErrors := JSArray.slice_from (-10) (errorLog s) |}.

(** The keys under which [getErrorStatistics] files a record. *)
Definition type_key (e : error) : string := property_key (get e "type").
Definition context_key (e : error) : string := property_key (get e "context").

(** How many records of [log] are filed under [key] when [f] names the
    key of a record. *)
Definition occurrences (f : error -> string) (key : string) (log : list error) : nat :=
  length (filter (λ e, f e = key) log).

(** The counters [counts] count the records of [log] under [key]: the
    counter is absent until the key has been seen and then holds the number
    of times it was. *)
Definition counts_key (f : error -> string) (log : list error)
    (counts : gmap string counter) (key : string) : Prop :=
  counts !! key = match occurrences f key log with
                  | O => None
                  | S n => Some (Count (Z.of_nat (S n)))
                  end.

(** The counters count the records of [log] under every key, as the
    specification has it. *)
Definition counts_records (f : error -> string) (log : list error)
    (counts : gmap string counter) : Prop :=
  forall key, counts_key f log counts key.

(** What a counter object that started empty holds under [key] once [n]
    records have been filed under it. *)
Definition filed (key : string) (n : nat) : option counter :=
  match n, Object_prototype key with
  | O, _ => None
  | S _, None => Some (Count (Z.of_nat n))
  | S _, Some ObjectPrototype => None
  | S _, Some member => Some (Polluted member n)
  end.

(** [setErrorThresholds(thresholds)]: [{ ...this.errorThresholds, ...thresholds }] *)
Definition setErrorThresholds (thresholds : gmap string (option Z)) : M unit :=
  assign (λ s, {| errorLog := errorLog s;
                  retryAttempts := retryAttempts s;
                  retryDelay := retryDelay s;
                  errorThresholds := thresholds ∪ errorThresholds s |}) ;;
  s ← this;
  emit (CyLogInfo "Error thresholds updated"
          (JObj (number_value <$> errorThresholds s))).

(** A sequence of [setErrorThresholds] calls, one per override map. *)
Definition setErrorThresholds_all (overrides : list (gmap string (option Z)))
    (s : state)
    : state :=
  foldl (λ s thresholds, (setErrorThresholds thresholds s).1.2) s overrides.

(** [setRetryConfiguration(attempts, delay)] *)
Definition setRetryConfiguration (attempts delay : Z) : M unit :=
  assign (λ s, {| errorLog := errorLog s;
                  retryAttempts := attempts;
                  retryDelay := delay;
                  errorThresholds := errorThresholds s |}) ;;
  emit (CyLogInfo "Retry configuration updated"
          (JObj {[ "attempts" := JNum attempts; "delay" := JNum delay ]})).

(** How the promise a method returns settles. *)
Inductive settled :=
| Resolved (result : jsval)
| Rejected (message : string).

Section retryOperation.

(** [operation] gives, for the value the counter [attempts] has when the
    wrapped function is called, how the promise it returns settles;
    [name] is [operation.name]. *)
Context (clk : clock) (operation : Z -> settled) (name : string).
Context (maxRetries delay : Z).

Definition retryError (attempts : Z) (originalError : string) : error :=
  {[ "type" := JStr "RetryExhausted";
     "operation" := JStr (if String.eqb name "" then "unknown" else name);
     "attempts" := JNum attempts;
     "maxRetries" := JNum maxRetries;
     "originalError" := JStr originalError;
     "timestamp" := JStr (toISOString clk) ]}.

(** The closure [attempt]; its argument [made] is the value of the
    counter [attempts] on entry, before [attempts++].  The timer armed by
    [setTimeout] runs the closure again, which is the recursive call. *)
Equations? attempt (made : Z) : M settled
  by wf (Z.to_nat (maxRetries - made)) lt :=
attempt made :=
  let attempts := made + 1 in
  emit (CyLogInfo ("Retry attempt " +:+ pretty attempts +:+ "/"
                     +:+ pretty maxRetries) (JObj ∅)) ;;
  emit (OperationCall attempts) ;;
  match operation attempts with
  | Resolved result =>
      emit (CyLogInfo "Operation succeeded on retry" (obj1 "attempts" attempts)) ;;
      mret (Resolved result)
  | Rejected message =>
      match decide (maxRetries <= attempts) with
      | left _ =>
          logError (retryError attempts message) ;;
          emit (CyLogError "Retry attempts exhausted"
                  (JObj (retryError attempts message))) ;;
          emit (CyTakeScreenshot ("retry_exhausted_" +:+ pretty (now clk))) ;;
          mret (Rejected ("Operation failed after " +:+ pretty maxRetries
                            +:+ " attempts: " +:+ message))
      | right _ =>
          emit (CyLogInfo ("Retry attempt " +:+ pretty attempts
                             +:+ " failed, retrying in " +:+ pretty delay +:+ "ms")
                  (JObj ∅)) ;;
          emit (SetTimeout delay) ;;
          attempt attempts
      end
  end.
Proof. lia. Qed.

End retryOperation.

(** [retryOperation(operation, maxRetries = this.retryAttempts,
    delay = this.retryDelay)]; an argument left out is [None]. *)
Definition retryOperation (clk : clock) (operation : Z -> settled) (name : string)
    (maxRetries delay : option Z) : M settled :=
  s ← this;
  attempt clk operation name (default (retryAttempts s) maxRetries)
    (default (retryDelay s) delay) 0.

(** The number of times the wrapped operation is called in a run. *)
Fixpoint calls (out : list event) : nat :=
  match out with
  | [] => O
  | OperationCall _ :: out => S (calls out)
  | _ :: out => calls out
  end.

(** A run in which the attempts follow one another: [retry_log .. k out]
    reads "[out] begins with attempt [k]".  Either attempt [k] is the last
    call of the run, or its promise was rejected, the failure was logged,
    the timer was armed, and the rest of the run begins with attempt
    [k + 1]. *)
Inductive retry_log (operation : Z -> settled) (maxRetries delay : Z)
    : Z -> list event -> Prop :=
| retry_log_last k rest :
    calls rest = O ->
    retry_log operation maxRetries delay k
      (CyLogInfo ("Retry attempt " +:+ pretty k +:+ "/" +:+ pretty maxRetries) (JObj ∅)
       :: OperationCall k :: rest)
| retry_log_again k message rest :
    operation k = Rejected message ->
    retry_log operation maxRetries delay (k + 1) rest ->
    retry_log operation maxRetries delay k
      (CyLogInfo ("Retry attempt " +:+ pretty k +:+ "/" +:+ pretty maxRetries) (JObj ∅)
       :: OperationCall k
       :: CyLogInfo ("Retry attempt " +:+ pretty k +:+ " failed, retrying in "
                       +:+ pretty delay +:+ "ms") (JObj ∅)
       :: SetTimeout delay :: rest).

(** The delays of the timers armed in a run, in order. *)
Fixpoint timers (out : list event) : list Z :=
  match out with
  | [] => []
  | SetTimeout delay :: out => delay :: timers out
  | _ :: out => timers out
  end.

(** Whether a run tells Cypress of an error or asks for a screenshot. *)
Fixpoint alarms (out : list event) : nat :=
  match out with
  | [] => O
  | CyLogError _ _ :: out => S (alarms out)
  | CyTakeScreenshot _ :: out => S (alarms out)
  | _ :: out => alarms out
  end.

(** [clearErrorLog()] *)
Definition clearErrorLog : M unit :=
  assign (λ s, {| errorLog := [];
                  retryAttempts := retryAttempts s;
                  retryDelay := retryDelay s;
                  errorThresholds := errorThresholds s |}) ;;
  emit (CyLogInfo "Error log cleared" (JObj ∅)).

(** [handleElementNotFound(selector, context = '')]; [found] is
    [$body.find(selector).length] when the callback runs. *)
Definition handleElementNotFound (clk : clock) (found : nat)
    (selector context : string) : M unit :=
  if (found =? 0)%nat then
    let error : error :=
      {[ "type" := JStr "ElementNotFound";
         "selector" := JStr selector;
         "context" := JStr context;
         "timestamp" := JStr (toISOString clk);
         "message" := JStr ("Element not found: " +:+ selector) ]} in
    logError error ;;
    emit (CyLogError "Element not found" (JObj error)) ;;
    emit (CyTakeScreenshot ("element_not_found_" +:+ pretty (now clk))) ;;
    throw ("Element not found: " +:+ selector +:+ " in context: " +:+ context)
  else mret ().

(** [handleAssertionError(assertion, expected, actual, context = '')] *)
Definition handleAssertionError (clk : clock) (assertion : string)
    (expected actual : jsval) (context : string) : M unit :=
  let error : error :=
    {[ "type" := JStr "AssertionError";
       "assertion" := JStr assertion;
       "expected" := expected;
       "actual" := actual;
       "context" := JStr context;
       "timestamp" := JStr (toISOString clk);
       "message" := JStr ("Assertion failed: " +:+ assertion) ]} in
  logError error ;;
  emit (CyLogError "Assertion failed" (JObj error)) ;;
  emit (CyTakeScreenshot ("assertion_error_" +:+ pretty (now clk))) ;;
  throw ("Assertion failed: " +:+ assertion +:+ ". Expected: " +:+ toString expected
           +:+ ", Actual: " +:+ toString actual).

(** How the promise of a request settles: with a value, or rejected with an
    error object. *)
Inductive promised :=
| Fulfilled (value : jsval)
| Failed (error : gmap string jsval).

(** [handleNetworkError(request, context = '')]: [request.catch(..)], whose
    handler logs and throws the error it was given again. *)
Definition handleNetworkError (clk : clock) (request : promised) (context : string)
    : M promised :=
  match request with
  | Fulfilled value => mret (Fulfilled value)
  | Failed error =>
      let networkError : ErrorHandler.error :=
        {[ "type" := JStr "NetworkError";
           "status" := get error "status";
           "statusText" := get error "statusText";
           "url" := optional_member (get error "config") "url";
           "context" := JStr context;
           "timestamp" := JStr (toISOString clk);
           "message" := JStr ("Network error: " +:+ toString (get error "status")
                                +:+ " " +:+ toString (get error "statusText")) ]} in
      logError networkError ;;
      emit (CyLogError "Network error occurred" (JObj networkError)) ;;
      emit (CyTakeScreenshot ("network_error_" +:+ pretty (now clk))) ;;
      mret (Failed error)
  end.

(** [count > limit] where either side may be [undefined]: a comparison with
    [undefined] is false. *)
Definition more_than (count limit : option Z) : bool :=
  match count, limit with
  | Some c, Some l => l <? c
  | _, _ => false
  end.

(** The number a counter is compared as: a text that begins with the text
    of an object is no number. *)
Definition counted (c : option counter) : option Z :=
  match c with
  | Some (Count n) => Some n
  | _ => None
  end.

(** [generateErrorRecommendations(statistics)] *)
Definition generateErrorRecommendations (s : state) (statistics : statistics)
    : list string :=
  let recommendations := [] in
  let recommendations :=
    if more_than (Some (totalErrors statistics)) (number (errorThresholds s) "critical")
    then recommendations
           ++ ["High error rate detected - consider investigating test stability"]
    else recommendations in
  let recommendations :=
    if more_than (counted (errorTypes statistics !! "ElementNotFound")) (Some 5)
    then recommendations
           ++ ["Multiple element not found errors - check selectors and page structure"]
    else recommendations in
  let recommendations :=
    if more_than (counted (errorTypes statistics !! "TimeoutError")) (Some 3)
    then recommendations
           ++ ["Multiple timeout errors - consider increasing timeouts or optimizing performance"]
    else recommendations in
  let recommendations :=
    if more_than (counted (errorTypes statistics !! "NetworkError")) (Some 2)
    then recommendations
           ++ ["Network errors detected - check network stability and API endpoints"]
    else recommendations in
  recommendations.

Record error_report := {
  report_timestamp : string;
  summary : statistics;
  recommendations : list string
}.

(** What [generateErrorReport] hands to Cypress: [cy.logInfo('Error report
    generated', report)] and [cy.task('table', report)]. *)
Inductive report_event :=
| CyLogInfoReport (message : string) (report : error_report)
| CyTaskTable (report : error_report).

(** [generateErrorReport()] *)
Definition generateErrorReport (clk : clock) (s : state)
    : error_report * list report_event :=
  let statistics := getErrorStatistics s in
  let report := {| report_timestamp := toISOString clk;
                   summary := statistics;
                   recommendations := generateErrorRecommendations s statistics |} in
  (report, [CyLogInfoReport "Error report generated" report; CyTaskTable report]).

Record error_data := {
  exported_errorLog : list error;
  exported_statistics : statistics;
  exported_report : error_report
}.

(** [exportErrorData()] *)
Definition exportErrorData (clk : clock) (s : state) : error_data * list report_event :=
  let '(report, out) := generateErrorReport clk s in
  ({| exported_errorLog := errorLog s;
      exported_statistics := getErrorStatistics s;
      exported_report := report |}, out).

(** The calls a test makes on one handler, and the state each leaves. *)
Inductive call :=
| CallLogError (e : error)
| CallHandleApiError (clk : clock) (response : Response) (context : string)
| CallHandleElementNotFound (clk : clock) (found : nat) (selector context : string)
| CallHandleAssertionError (clk : clock) (assertion : string) (expected actual : jsval)
    (context : string)
| CallHandleNetworkError (clk : clock) (request : promised) (context : string)
| CallRetryOperation (clk : clock) (operation : Z -> settled) (name : string)
    (maxRetries delay : option Z)
| CallGenerateErrorReport (clk : clock)
| CallSetErrorThresholds (thresholds : gmap string (option Z))
| CallSetRetryConfiguration (attempts delay : Z)
| CallClearErrorLog.

Definition run_call (c : call) (s : state) : state :=
  match c with
  | CallLogError e => (logError e s).1.2
  | CallHandleApiError clk response context =>
      (handleApiError clk response context s).1.2
  | CallHandleElementNotFound clk found selector context =>
      (handleElementNotFound clk found selector context s).1.2
  | CallHandleAssertionError clk assertion expected actual context =>
      (handleAssertionError clk assertion expected actual context s).1.2
  | CallHandleNetworkError clk request context =>
      (handleNetworkError clk request context s).1.2
  | CallRetryOperation clk operation name maxRetries delay =>
      (retryOperation clk operation name maxRetries delay s).1.2
  | CallGenerateErrorReport clk => s
  | CallSetErrorThresholds thresholds => (setErrorThresholds thresholds s).1.2
  | CallSetRetryConfiguration attempts delay =>
      (setRetryConfiguration attempts delay s).1.2
  | CallClearErrorLog => (clearErrorLog s).1.2
  end.

Definition run_calls (cs : list call) (s : state) : state :=
  foldl (λ s c, run_call c s) s cs.

Definition is_clear (c : call) : bool :=
  match c with CallClearErrorLog => true | _ => false end.

End ErrorHandler.

(** ** PerformanceMonitor *)

Module PerformanceMonitor.

Inductive event :=
| CyLogInfo (message : string) (data : jsval).

(** The threshold configuration the constructor initialises.  The samples
    under [this.metrics] are floating-point measurements and play no part
    in what follows. *)
Record state := { thresholds : gmap string (option Z) }.

Definition constructor : state :=
  {| thresholds := {[ "pageLoadTime" := Some 5000;
                      "apiResponseTime" := Some 3000;
                      "loginTime" := Some 10000;
                      "memoryUsage" := Some (100 * 1024 * 1024) ]} |}.

(** [setThresholds(newThresholds)]: [{ ...this.thresholds, ...newThresholds }] *)
Definition setThresholds (newThresholds : gmap string (option Z)) (s : state)
    : state * list event :=
  let s' := {| thresholds := newThresholds ∪ thresholds s |} in
  (s', [CyLogInfo "Performance thresholds updated"
          (JObj (number_value <$> thresholds s'))]).

(** A sequence of [setThresholds] calls, one per override map. *)
Definition setThresholds_all (overrides : list (gmap string (option Z))) (s : state)
    : state :=
  foldl (λ s newThresholds, (setThresholds newThresholds s).1) s overrides.

(** *** monitorConcurrentRequests

    Time is counted in turns of the event loop.  A request factory, when it
    is called, starts its operation and returns the promise of its result;
    the promise settles [latency] turns after the call ([0]: the factory
    hands back a promise that is settled already). *)
Record factory := { latency : nat; result : jsval }.

Record promise := {
  origin : nat;        (* position of the factory in [requests] *)
  created_at : nat;    (* the turn in which the factory was called *)
  settles_at : nat;
  value : jsval
}.

(** [request()] in turn [turn] *)
Definition call (turn : nat) (request : nat * factory) : promise :=
  {| origin := request.1;
     created_at := turn;
     settles_at := turn + latency request.2;
     value := result request.2 |}.

(** The [for] loop.  It runs to completion inside the turn in which
    [monitorConcurrentRequests] is called, so every [request()] of its body
    happens in that turn; each [cy.wrap(Promise.all(batchPromises)).then(..)]
    only appends a command to the Cypress queue.  [queue] is that queue, [i]
    the loop variable; [None]: the loop is still running when [fuel] is
    used up. *)
Fixpoint for_batches (fuel : nat) (turn : nat) (requests : list (nat * factory))
    (maxConcurrent : Z) (i : Z) (queue : list (list promise))
    : option (list (list promise)) :=
  match fuel with
  | O => None
  | S fuel =>
      if i <? Z.of_nat (length requests) then
        let batch := JSArray.slice i (i + maxConcurrent) requests in
        let batchPromises := map (call turn) batch in
        for_batches fuel turn requests maxConcurrent (i + maxConcurrent)
          (queue ++ [batchPromises])
      else Some queue
  end.

(** The turn in which [Promise.all(batchPromises)] is fulfilled. *)
Definition all_settled_at (batchPromises : list promise) : nat :=
  foldr (λ p, Nat.max (settles_at p)) O batchPromises.

(** The queued commands run one after the other, each once the promise it
    wraps is fulfilled: the callbacks push the results batch after batch.
    When they run is left open. *)
Fixpoint run_queue (queue : list (list promise)) (results : list jsval)
    : list jsval :=
  match queue with
  | [] => results
  | batchPromises :: queue => run_queue queue (results ++ map value batchPromises)
  end.

Record report := {
  batches : list (list promise);  (* the promises each pass of the loop created *)
  results : list jsval
}.

(** [monitorConcurrentRequests(requests, maxConcurrent = 5)], called in turn
    [turn].  The elapsed times it reports are floating-point readings of
    [performance.now()] and are left out. *)
Definition monitorConcurrentRequests (fuel : nat) (turn : nat)
    (requests : list factory) (maxConcurrent : option Z) : option report :=
  let maxConcurrent := default 5 maxConcurrent in
  queue ← for_batches fuel turn (imap (λ k r, (k, r)) requests) maxConcurrent 0 [];
  Some {| batches := queue; results := run_queue queue [] |}.

(** Every operation of [b1] has settled when an operation of [b2] starts. *)
Definition settled_before_start (b1 b2 : list promise) : bool :=
  forallb (λ p, forallb (λ q, settles_at p <=? created_at q)%nat b2) b1.

(** Batch N+1 never starts before batch N has settled. *)
Fixpoint sequential (batches : list (list promise)) : bool :=
  match batches with
  | b1 :: rest =>
      match rest with
      | b2 :: _ => settled_before_start b1 b2 && sequential rest
      | [] => true
      end
  | [] => true
  end.

(** Batches of [size] operations each, but for the last one, which holds
    between one and [size]. *)
Fixpoint full_but_last (size : nat) (batches : list (list promise)) : bool :=
  match batches with
  | [] => true
  | b :: rest =>
      match rest with
      | [] => (1 <=? length b)%nat && (length b <=? size)%nat
      | _ :: _ => (length b =? size)%nat && full_but_last size rest
      end
  end.

(** *** The samples and the report

    Durations and averages are floating-point numbers.  Their type [num] and
    the arithmetic the monitor does on them are taken as given: [of_Z]
    reads an integer as a number, [add], [sub], [mul] and [div] are [+], [-],
    [*] and [/], [gt a b] is [a > b], [point8] is [0.8] and [toFixed2 x] is
    [x.toFixed(2)]. *)
Section metrics.

Context {num : Type}.
Context (of_Z : Z -> num).
Context (add sub mul div : num -> num -> num).
Context (gt : num -> num -> bool).
Context (point8 : num).
Context (toFixed2 : num -> string).

Record interaction := {
  action : string;
  duration : num;
  username : option string;
  interaction_timestamp : string
}.

Record api_sample := {
  endpoint : jsval;
  responseTime : num;
  sample_status : jsval;
  sample_timestamp : string
}.

Record memory_sample := {
  used : Z;
  total : Z;
  limit : Z;
  memory_timestamp : string
}.

(** [this.metrics] *)
Record metrics := {
  responseTimes : list interaction;
  pageLoadTimes : list num;
  apiCallTimes : list api_sample;
  memoryUsage : list memory_sample;
  errors : list jsval
}.

(** A monitor: [this.metrics] and [this.thresholds]. *)
Record monitor := {
  samples : metrics;
  config : state
}.

Definition no_metrics : metrics :=
  {| responseTimes := []; pageLoadTimes := []; apiCallTimes := [];
     memoryUsage := []; errors := [] |}.

Definition new_monitor : monitor :=
  {| samples := no_metrics; config := constructor |}.

(** A property of the object handed to a logging command. *)
Inductive field :=
| FNum (x : num)
| FVal (v : jsval).

Inductive monitor_event :=
| MLogInfo (message : string) (data : list (string * field))
| MLogError (message : string) (data : list (string * field))
| MLogPerformance (action : string) (duration : num).

(** [x > this.thresholds[key]]; a comparison with [undefined] is false. *)
Definition over (x : num) (limit : option Z) : bool :=
  match limit with
  | Some l => gt x (of_Z l)
  | None => false
  end.

(** [calculateAverage(numbers)] *)
Definition calculateAverage (numbers : list num) : num :=
  if (length numbers =? 0)%nat then of_Z 0
  else div (foldl add (of_Z 0) numbers) (of_Z (Z.of_nat (length numbers))).

Record violation := {
  violation_type : string;
  violation_endpoint : option jsval;
  violation_index : nat;
  actual : num;
  violation_threshold : option Z
}.

(** [findThresholdViolations()]: the two [forEach] loops, each pushing a
    violation for a sample over its threshold. *)
Definition findThresholdViolations (m : monitor) : list violation :=
  let violations := [] in
  let violations :=
    foldl (λ violations '(index, time),
             if over time (number (thresholds (config m)) "pageLoadTime")
             then violations
                    ++ [{| violation_type := "pageLoad";
                           violation_endpoint := None;
                           violation_index := index;
                           actual := time;
                           violation_threshold :=
                             number (thresholds (config m)) "pageLoadTime" |}]
             else violations)
          violations (imap pair (pageLoadTimes (samples m))) in
  let violations :=
    foldl (λ violations '(index, metric),
             if over (responseTime metric) (number (thresholds (config m)) "apiResponseTime")
             then violations
                    ++ [{| violation_type := "apiResponse";
                           violation_endpoint := Some (endpoint metric);
                           violation_index := index;
                           actual := responseTime metric;
                           violation_threshold :=
                             number (thresholds (config m)) "apiResponseTime" |}]
             else violations)
          violations (imap pair (apiCallTimes (samples m))) in
  violations.

(** [avg > this.thresholds[key] * 0.8]; [undefined * 0.8] is [NaN], and a
    comparison with [NaN] is false. *)
Definition near (avg : num) (limit : option Z) : bool :=
  match limit with
  | Some l => gt avg (mul (of_Z l) point8)
  | None => false
  end.

(** [generateRecommendations()] *)
Definition generateRecommendations (m : monitor) : list string :=
  let recommendations := [] in
  let avgPageLoad := calculateAverage (pageLoadTimes (samples m)) in
  let avgApiResponse := calculateAverage (map responseTime (apiCallTimes (samples m))) in
  let recommendations :=
    if near avgPageLoad (number (thresholds (config m)) "pageLoadTime")
    then recommendations ++ ["Consider optimizing page load performance"]
    else recommendations in
  let recommendations :=
    if near avgApiResponse (number (thresholds (config m)) "apiResponseTime")
    then recommendations ++ ["Consider optimizing API response times"]
    else recommendations in
  let recommendations :=
    if (0 <? length (memoryUsage (samples m)))%nat then
      let avgMemory :=
        calculateAverage (map (λ sample, of_Z (used sample)) (memoryUsage (samples m))) in
      if near avgMemory (number (thresholds (config m)) "memoryUsage")
      then recommendations ++ ["Consider optimizing memory usage"]
      else recommendations
    else recommendations in
  recommendations.

Record report_summary := {
  totalPageLoads : nat;
  totalApiCalls : nat;
  totalUserInteractions : nat;
  totalMemoryChecks : nat
}.

Record report_averages := {
  pageLoadTime : num;
  apiResponseTime : num;
  userInteractionTime : num
}.

Record performance_report := {
  report_timestamp : string;
  summary : report_summary;
  averages : report_averages;
  report_thresholds : gmap string (option Z);
  violations : list violation;
  recommendations : list string
}.

(** What the report is handed to: [cy.logInfo('Performance report
    generated', report)] and [cy.task('table', report)]. *)
Inductive report_event :=
| CyLogInfoReport (message : string) (report : performance_report)
| CyTaskTable (report : performance_report).

(** [generatePerformanceReport()]; [timestamp] is [new Date().toISOString()]. *)
Definition generatePerformanceReport (timestamp : string) (m : monitor)
    : performance_report * list report_event :=
  let report :=
    {| report_timestamp := timestamp;
       summary :=
         {| totalPageLoads := length (pageLoadTimes (samples m));
            totalApiCalls := length (apiCallTimes (samples m));
            totalUserInteractions := length (responseTimes (samples m));
            totalMemoryChecks := length (memoryUsage (samples m)) |};
       averages :=
         {| pageLoadTime := calculateAverage (pageLoadTimes (samples m));
            apiResponseTime :=
              calculateAverage (map responseTime (apiCallTimes (samples m)));
            userInteractionTime :=
              calculateAverage (map duration (responseTimes (samples m))) |};
       report_thresholds := thresholds (config m);
       violations := findThresholdViolations m;
       recommendations := generateRecommendations m |} in
  (report, [CyLogInfoReport "Performance report generated" report; CyTaskTable report]).

(** [resetMetrics()] *)
Definition resetMetrics (m : monitor) : monitor * list monitor_event :=
  ({| samples := no_metrics; config := config m |},
   [MLogInfo "Performance metrics reset" []]).

(** [setThresholds(newThresholds)] on a monitor. *)
Definition setMonitorThresholds (newThresholds : gmap string (option Z)) (m : monitor)
    : monitor :=
  {| samples := samples m; config := (setThresholds newThresholds (config m)).1 |}.

(** The heap statistics of [win.performance.memory]. *)
Record heap := {
  usedJSHeapSize : Z;
  totalJSHeapSize : Z;
  jsHeapSizeLimit : Z
}.

(** [monitorMemoryUsage()]; [memory] is [None] when the window has no
    [performance.memory], [timestamp] is [new Date().toISOString()]. *)
Definition monitorMemoryUsage (timestamp : string) (memory : option heap) (m : monitor)
    : option memory_sample * monitor * list monitor_event :=
  match memory with
  | Some memory =>
      let memoryUsage' :=
        {| used := usedJSHeapSize memory;
           total := totalJSHeapSize memory;
           limit := jsHeapSizeLimit memory;
           memory_timestamp := timestamp |} in
      let m' :=
        {| samples :=
             {| responseTimes := responseTimes (samples m);
                pageLoadTimes := pageLoadTimes (samples m);
                apiCallTimes := apiCallTimes (samples m);
                memoryUsage := memoryUsage (samples m) ++ [memoryUsage'];
                errors := errors (samples m) |};
           config := config m |} in
      let logged :=
        [MLogInfo "Memory usage monitored"
           [("used", FVal (JNum (usedJSHeapSize memory)));
            ("total", FVal (JNum (totalJSHeapSize memory)));
            ("limit", FVal (JNum (jsHeapSizeLimit memory)));
            ("timestamp", FVal (JStr timestamp))]] in
      let warned :=
        match number (thresholds (config m)) "memoryUsage" with
        | Some threshold =>
            if threshold <? usedJSHeapSize memory
            then [MLogError "Memory usage exceeded threshold"
                    [("actual", FVal (JNum (usedJSHeapSize memory)));
                     ("threshold", FVal (JNum threshold))]]
            else []
        | None => []
        end in
      (Some memoryUsage', m', logged ++ warned)
  | None => (None, m, [])
  end.

(** [monitorApiCall(apiCall, endpoint)] once [apiCall] is fulfilled with
    [response]: [startTime] and [endTime] are the two readings of
    [performance.now()], [status] is [response.status] and [timestamp] is
    [new Date().toISOString()]. *)
Definition monitorApiCall {R : Type} (startTime endTime : num) (timestamp : string)
    (response : R) (status : jsval) (endpoint' : jsval) (m : monitor)
    : (R * num) * monitor * list monitor_event :=
  let responseTime' := sub endTime startTime in
  let m' :=
    {| samples :=
         {| responseTimes := responseTimes (samples m);
            pageLoadTimes := pageLoadTimes (samples m);
            apiCallTimes :=
              apiCallTimes (samples m)
                ++ [{| endpoint := endpoint';
                       responseTime := responseTime';
                       sample_status := status;
                       sample_timestamp := timestamp |}];
            memoryUsage := memoryUsage (samples m);
            errors := errors (samples m) |};
       config := config m |} in
  let logged :=
    [MLogPerformance "apiCall" responseTime';
     MLogInfo "API call performance measured"
       [("endpoint", FVal endpoint');
        ("responseTime", FVal (JStr (toFixed2 responseTime' +:+ "ms")));
        ("status", FVal status)]] in
  let warned :=
    if over responseTime' (number (thresholds (config m)) "apiResponseTime")
    then [MLogError "API response time exceeded threshold"
            [("endpoint", FVal endpoint');
             ("actual", FNum responseTime');
             ("threshold",
              FVal (default JUndefined
                      (JNum <$> number (thresholds (config m)) "apiResponseTime")))]]
    else [] in
  ((response, responseTime'), m', logged ++ warned).

End metrics.

End PerformanceMonitor.

(** ** The API commands *)

Module ApiCommands.

(** The options object handed to [cy.request]. *)
Record request := {
  method : string;
  url : string;
  headers : gmap string jsval;
  body : option jsval;          (* [None]: no [body] property *)
  failOnStatusCode : bool;
  timeout : option Z            (* [None]: no [timeout] property *)
}.

Record Response := {
  status : Z;
  response_body : jsval;
  response_headers : jsval
}.

Inductive event :=
| CyLog (message : string)
| CyTaskLog (message : string)
| CyRequest (options : request).

(** A command: from what has happened so far to how it completes and what
    has happened then. *)
Definition M (A : Type) : Type := list event -> completion A * list event.

#[global] Instance M_ret : MRet M := λ A a h, (Return a, h).

#[global] Instance M_bind : MBind M := λ A B f m h,
  match m h with
  | (Return a, h') => f a h'
  | (Throw msg, h') => (Throw msg, h')
  end.

Definition emit (e : event) : M unit := λ h, (Return (), h ++ [e]).
Definition lift {A} (c : completion A) : M A := λ h, (c, h).

Record login_result := { token : jsval; response : Response }.

Section commands.

(** The outside world: what [cy.request] yields for a request, given all
    that happened before it, and [Cypress.env('apiBaseUrl')]. *)
Context (network : list event -> request -> completion Response).
Context (apiBaseUrl : jsval).

(** [cy.request(options)] *)
Definition cy_request (options : request) : M Response :=
  λ h, (network h options, h ++ [CyRequest options]).

(** The options [apiLogin] hands to [cy.request]. *)
Definition login_request (username password : string) : request :=
  {| method := "POST";
     url := toString (or_else apiBaseUrl
              (JStr "https://opensource-demo.orangehrmlive.com/web/index.php/api"))
            +:+ "/auth/login";
     headers := {[ "Content-Type" := JStr "application/json" ]};
     body := Some (JObj {[ "username" := JStr username;
                           "password" := JStr password ]});
     failOnStatusCode := false;
     timeout := None |}.

(** [cy.apiLogin(username = 'Admin', password = 'admin123')] *)
Definition apiLogin (username password : option string) : M login_result :=
  let username := default "Admin" username in
  let password := default "admin123" password in
  emit (CyLog ("[API] Authenticating with username: " +:+ username)) ;;
  response ← cy_request (login_request username password);
  emit (CyTaskLog ("[API] Login response: " +:+ pretty (status response))) ;;
  if (status response =? 200) || (status response =? 201) then
    data ← lift (member (response_body response) "data");
    let token := or_else (optional_member data "token")
                   (optional_member (response_headers response) "authorization") in
    emit (CyTaskLog "[API] Authentication successful") ;;
    mret {| token := token; response := response |}
  else
    emit (CyTaskLog "[API] Authentication failed") ;;
    mret {| token := JNull; response := response |}.

(** The argument of [cy.apiRequest]; a property left out is [None]. *)
Record options := {
  opt_method : option string;
  opt_url : string;
  opt_body : option jsval;
  opt_headers : option (gmap string jsval);
  opt_auth : option bool;
  opt_failOnStatusCode : option bool;
  opt_timeout : option Z
}.

(** [requestOptions] as [apiRequest] first builds it, the defaults of the
    destructuring filled in. *)
Definition requestOptions (o : options) : request :=
  let method := default "GET" (opt_method o) in
  let url := opt_url o in
  let body := default JNull (opt_body o) in
  let headers := default ∅ (opt_headers o) in
  let failOnStatusCode := default false (opt_failOnStatusCode o) in
  let timeout := default 10000 (opt_timeout o) in
  {| method := method;
     url := url;
     headers := headers ∪ {[ "Content-Type" := JStr "application/json" ]};
     body := if truthy body then Some body else None;
     failOnStatusCode := failOnStatusCode;
     timeout := Some timeout |}.

(** [requestOptions.headers['Authorization'] = `Bearer ${token}`] *)
Definition set_authorization (token : jsval) (r : request) : request :=
  {| method := method r;
     url := url r;
     headers := <[ "Authorization" := JStr ("Bearer " +:+ toString token) ]> (headers r);
     body := body r;
     failOnStatusCode := failOnStatusCode r;
     timeout := timeout r |}.

(** [cy.apiRequest(options)] *)
Definition apiRequest (o : options) : M Response :=
  let method := default "GET" (opt_method o) in
  let url := opt_url o in
  let auth := default true (opt_auth o) in
  emit (CyTaskLog ("[API] Making " +:+ method +:+ " request to: " +:+ url)) ;;
  let requestOptions := requestOptions o in
  if auth then
    login ← apiLogin None None;
    let requestOptions :=
      if truthy (token login)
      then set_authorization (token login) requestOptions
      else requestOptions in
    cy_request requestOptions
  else cy_request requestOptions.

End commands.

(** A server that answers every request with 401. *)
Definition unauthorized : list event -> request -> completion Response :=
  λ _ _, Return {| status := 401; response_body := JNull; response_headers := JUndefined |}.

(** The requests sent in a history, in order. *)
Fixpoint sent_requests (h : list event) : list request :=
  match h with
  | [] => []
  | CyRequest options :: h => options :: sent_requests h
  | _ :: h => sent_requests h
  end.

Record created := { employeeId : jsval; created_response : Response }.

Section more_commands.

Context (network : list event -> request -> completion Response).
Context (apiBaseUrl : jsval).

(** The [defaultEmployee] of [createTestEmployee]; [t1] and [t2] are the two
    readings of [Date.now()]. *)
Definition defaultEmployee (t1 t2 : Z) : gmap string jsval :=
  {[ "firstName" := JStr "Test";
     "lastName" := JStr "Employee";
     "middleName" := JStr "M";
     "employeeId" := JStr ("EMP" +:+ pretty t1);
     "workEmail" := JStr ("test.employee." +:+ pretty t2 +:+ "@company.com") ]}.

(** [cy.createTestEmployee(employeeData = {})] *)
Definition createTestEmployee (t1 t2 : Z) (employeeData : option (gmap string jsval))
    : M created :=
  let employeeData := default ∅ employeeData in
  let testEmployee := employeeData ∪ defaultEmployee t1 t2 in
  emit (CyTaskLog "[API] Creating test employee") ;;
  response ← apiRequest network apiBaseUrl
    {| opt_method := Some "POST";
       opt_url := "/employee";
       opt_body := Some (JObj testEmployee);
       opt_headers := None;
       opt_auth := None;
       opt_failOnStatusCode := None;
       opt_timeout := None |};
  if (status response =? 200) || (status response =? 201) then
    data ← lift (member (response_body response) "data");
    let employeeId := or_else (optional_member data "id")
                        (optional_member data "employeeId") in
    emit (CyTaskLog ("[API] Test employee created with ID: " +:+ toString employeeId)) ;;
    mret {| employeeId := employeeId; created_response := response |}
  else
    emit (CyTaskLog "[API] Failed to create test employee") ;;
    mret {| employeeId := JNull; created_response := response |}.

(** [cy.cleanupTestEmployee(employeeId)]; [None] is the [undefined] the
    command returns when it has nothing to clean up. *)
Definition cleanupTestEmployee (employeeId : jsval) : M (option Response) :=
  if negb (truthy employeeId) then
    emit (CyTaskLog "[API] No employee ID provided for cleanup") ;;
    mret None
  else
    emit (CyTaskLog ("[API] Cleaning up test employee: " +:+ toString employeeId)) ;;
    response ← apiRequest network apiBaseUrl
      {| opt_method := Some "DELETE";
         opt_url := "/employee/" +:+ toString employeeId;
         opt_body := None;
         opt_headers := None;
         opt_auth := None;
         opt_failOnStatusCode := None;
         opt_timeout := None |};
    emit (CyTaskLog ("[API] Cleanup response: " +:+ pretty (status response))) ;;
    mret (Some response).

End more_commands.

(** A server whose every answer is 200 with a token in the body. *)
Definition token_server : list event -> request -> completion Response :=
  λ _ _, Return {| status := 200;
                   response_body := JObj {[ "data" := JObj {[ "token" := JStr "abc" ]} ]};
                   response_headers := JObj ∅ |}.

(** A server whose every answer is 200 with no body. *)
Definition bodiless_server : list event -> request -> completion Response :=
  λ _ _, Return {| status := 200; response_body := JNull; response_headers := JObj ∅ |}.

End ApiCommands.

(** ** The screenshot command of [commands.js] *)

Module Commands.

Inductive event :=
| CyScreenshot (name : string)
| CyTask (task : string) (argument : string).

(** [s.replace(/[:.]/g, '-')] *)
Fixpoint dashed (s : string) : string :=
  match s with
  | EmptyString => EmptyString
  | String c s =>
      String (if Ascii.eqb c ":" || Ascii.eqb c "." then "-"%char else c) (dashed s)
  end.

(** [cy.takeScreenshot(name)]; [iso] is [new Date().toISOString()]. *)
Definition takeScreenshot (iso : string) (name : string) : list event :=
  let timestamp := dashed iso in
  let screenshotName := name +:+ "_" +:+ timestamp in
  [CyScreenshot screenshotName;
   CyTask "logScreenshot" ("cypress/screenshots/" +:+ screenshotName +:+ ".png")].

End Commands.

(** * Properties *)

(** ** TestDataManager.validateTestData *)

Section validateTestData_properties.
Import TestDataManager.

Implicit Types (data : gmap string jsval) (errors : list string) (r : rule).
Implicit Types (h : RegExps) (s : schema).

(** Visiting a key appends that key's violations to the array and leaves
    what was collected before in place. *)
Lemma visit_key_appends data key r errors h :
  visit_key data key r errors h
  = (errors ++ key_violations data h key r, after_key data h key r).
Proof.
  unfold visit_key, key_violations, missing_violation, type_violation,
    pattern_violation, after_key, pattern_tested.
  destruct (ToBoolean (read data key)) eqn:Hv; simpl;
    destruct (required r); destruct (type_given r) as [t|];
    destruct (pattern r) as [a|]; simpl;
    repeat match goal with
           | |- context [test ?R ?S] => destruct (test R S) as [[] ?]; simpl
           | |- context [if ?b then _ else _] => destruct b; simpl
           end;
    rewrite <- ?app_assoc, ?app_nil_r; reflexivity.
Qed.

Lemma foldl_visit_key data s :
  forall errors h,
    foldl (λ '(errors, h) kr, visit_key data kr.1 kr.2 errors h) (errors, h) s
    = (errors ++ violations data s h, after data s h).
Proof.
  induction s as [|[key r] s IH]; intros errors h; simpl.
  - by rewrite app_nil_r.
  - rewrite visit_key_appends, IH. by rewrite <- app_assoc.
Qed.

(** The loop collects exactly the violations of all keys, in schema order. *)
Lemma collect_errors_violations data s h :
  collect_errors data s h = (violations data s h, after data s h).
Proof. unfold collect_errors. by rewrite foldl_visit_key. Qed.

Lemma after_app data s1 s2 h :
  after data (s1 ++ s2) h = after data s2 (after data s1 h).
Proof. revert h. induction s1 as [|[key r] s1 IH]; intros h; simpl; [done | apply IH]. Qed.

Lemma violations_app data s1 s2 h :
  violations data (s1 ++ s2) h
  = violations data s1 h ++ violations data s2 (after data s1 h).
Proof.
  revert h. induction s1 as [|[key r] s1 IH]; intros h; simpl; [done|].
  by rewrite IH, app_assoc.
Qed.

Lemma violations_elem data s1 key r s2 h msg :
  msg ∈ key_violations data (after data s1 h) key r ->
  msg ∈ violations data (s1 ++ (key, r) :: s2) h.
Proof.
  intros Hmsg. rewrite violations_app. simpl.
  apply elem_of_app. right. apply elem_of_app. by left.
Qed.

Lemma validateTestData_cases data s h :
  validateTestData data s h =
    (match violations data s h with
     | [] => Return (JBool true)
     | _ :: _ => Throw ("Test data validation failed: "
                          +:+ join ", " (violations data s h))
     end, after data s h).
Proof.
  unfold validateTestData. rewrite collect_errors_violations.
  by destruct (violations data s h).
Qed.

(** A violation of any key of the schema is among the collected ones and
    makes the call throw. *)
Lemma violation_reported data s1 key r s2 h msg :
  msg ∈ key_violations data (after data s1 h) key r ->
  msg ∈ violations data (s1 ++ (key, r) :: s2) h /\
  throws (validateTestData data (s1 ++ (key, r) :: s2) h).1 = true.
Proof.
  intros Hmsg.
  pose proof (violations_elem data s1 key r s2 h msg Hmsg) as Hv.
  split; [exact Hv|]. rewrite validateTestData_cases.
  destruct (violations data (s1 ++ (key, r) :: s2) h);
    [by apply elem_of_nil in Hv | done].
Qed.

(** A value that is not truthy is reported when it is required and is
    looked at no further. *)
Lemma falsy_key_violations data h key r :
  ToBoolean (read data key) = false ->
  key_violations data h key r
  = (if required r then ["Missing required field: " +:+ key] else []) /\
  after_key data h key r = h.
Proof.
  intros Hf.
  unfold key_violations, missing_violation, type_violation, pattern_violation,
    after_key, pattern_tested.
  rewrite Hf. simpl. destruct (required r), (type_given r); done.
Qed.




(** When [data[key]] is falsy: the data holds a falsy value under the
    key, or holds nothing there and inherits nothing of that name. *)
Lemma read_falsy data key :
  ToBoolean (read data key) = false
  <-> (exists v, data !! key = Some v /\ falsy v = true) \/
      (data !! key = None /\ Object_prototype key = None).
Proof.
  unfold read, index, falsy. destruct (data !! key) as [v|]; simpl.
  - split.
    + intros Hv. left. exists v. by rewrite Hv.
    + intros [(v' & [= <-] & Hv)|[? _]]; [|done]. by destruct (truthy v).
  - destruct (Object_prototype key); simpl.
    + split; [done|]. by intros [(? & ? & _)|[_ ?]].
    + split; [by right|done].
Qed.

(** C8: a required key whose value is falsy is reported as missing, and a
    falsy value is never examined for its type or its format, so that the
    regular expression of the key is not even run; [0], the empty string,
    [false], [null] and [undefined] are such values, and they are what
    [data[key]] is when the data holds them under the key, or holds nothing
    there and inherits nothing of that name. *)
Theorem validateTestData_falsy_values data key r :
  ToBoolean (read data key) = false ->
  (forall errors h,
     visit_key data key r errors h
     = (errors ++ (if required r then ["Missing required field: " +:+ key] else []), h)) /\
  type_violation data key r = [] /\
  (forall h, pattern_violation data h key r = []) /\
  (forall s1 s2 h, required r = true ->
     "Missing required field: " +:+ key
       ∈ (collect_errors data (s1 ++ (key, r) :: s2) h).1 /\
     throws (validateTestData data (s1 ++ (key, r) :: s2) h).1 = true) /\
  (forall v, v ∈ [JNum 0; JStr ""; JBool false; JNull; JUndefined] -> falsy v = true) /\
  ((exists v, data !! key = Some v /\ falsy v = true) \/
   (data !! key = None /\ Object_prototype key = None)).
Proof.
  intros Hf.
  split; [|split; [|split; [|split; [|split]]]].
  - intros errors h. rewrite visit_key_appends.
    by destruct (falsy_key_violations data h key r Hf) as [-> ->].
  - unfold type_violation. rewrite Hf. by destruct (type_given r).
  - intros h. unfold pattern_violation, pattern_tested. by rewrite Hf.
  - intros s1 s2 h Hreq. rewrite collect_errors_violations. cbn [fst].
    apply violation_reported.
    rewrite (proj1 (falsy_key_violations data _ key r Hf)), Hreq.
    apply list_elem_of_singleton. reflexivity.
  - intros v Hv.
    repeat (apply elem_of_cons in Hv as [->|Hv]; [reflexivity|]).
    by apply elem_of_nil in Hv.
  - by apply read_falsy.
Qed.

(** An explicit [0] and an explicit [false], both required and both typed:
    each is reported missing, neither as a type violation. *)
Lemma validateTestData_falsy_values_witness :
  let data : gmap string jsval := {[ "count" := JNum 0; "active" := JBool false ]} in
  let counted := {| required := true; type := Some "number"; pattern := None |} in
  let flagged := {| required := true; type := Some "boolean"; pattern := None |} in
  let h : RegExps := λ _, {| matcher := λ _ _, None; global := false;
                             sticky := false; lastIndex := 0 |} in
  ToBoolean (read data "count") = false /\
  (visit_key data "count" counted [] h).1 = ["Missing required field: count"] /\
  (validateTestData data [("count", counted); ("active", flagged)] h).1
  = Throw "Test data validation failed: Missing required field: count, Missing required field: active".
Proof.
  intros data counted flagged h.
  split; [reflexivity|]. split.
  - by rewrite (proj1 (validateTestData_falsy_values data "count" counted eq_refl) [] h).
  - reflexivity.
Defined.

End validateTestData_properties.

(** ** TestDataManager.generateEmployeeData *)

Section generateEmployeeData_properties.
Import TestDataManager.

Lemma employeeId_inj :
  Inj (=) (=) (λ timestamp, employeeId (generateEmployeeData timestamp)).
Proof.
  intros t1 t2 H. simpl in H.
  apply (inj (String.append "EMP")) in H. by apply (inj pretty) in H.
Qed.

(** C4, as the code has it: the identifier is ["EMP"] followed by the
    timestamp, so two calls produce the same [employeeId] exactly when they
    read the same timestamp, and the identifiers of a series of calls are
    pairwise distinct exactly when the timestamps the calls read are. *)
Theorem employeeId_distinct_iff_timestamps_distinct (timestamps : list Z) :
  (forall t, employeeId (generateEmployeeData t) = "EMP" +:+ pretty t) /\
  (forall t1 t2,
     employeeId (generateEmployeeData t1) = employeeId (generateEmployeeData t2)
     <-> t1 = t2) /\
  (NoDup (map (λ t, employeeId (generateEmployeeData t)) timestamps)
   <-> NoDup timestamps).
Proof.
  split; [reflexivity|]. split.
  - intros t1 t2. split; [apply employeeId_inj | by intros ->].
  - apply (@NoDup_fmap _ _ _ employeeId_inj).
Qed.

(** C4 as the specification words it fails: two calls that read the same
    millisecond get the same identifier. *)
Lemma employeeId_same_millisecond_collides :
  let timestamps := [1700000000000; 1700000000000] in
  map (λ t, employeeId (generateEmployeeData t)) timestamps
  = ["EMP1700000000000"; "EMP1700000000000"] /\
  ~ NoDup (map (λ t, employeeId (generateEmployeeData t)) timestamps).
Proof.
  intros timestamps. split; [reflexivity|].
  intros Hnd. apply NoDup_cons in Hnd as [Hnotin _].
  apply Hnotin. apply list_elem_of_singleton. reflexivity.
Qed.

End generateEmployeeData_properties.

(** ** ErrorHandler: the error log and its thresholds *)

Section errorLog_properties.
Import ErrorHandler.

Implicit Types (s : state) (e : error).

(** [logError] appends the record and only then looks at the thresholds. *)
Lemma logError_run e s :
  logError e s
  = (Return (), push_error e s,
     threshold_events (errorThresholds s) (Z.of_nat (length (errorLog s ++ [e])))).
Proof.
  unfold logError, threshold_events, push_error, mbind, M_bind, assign, this; simpl.
  destruct (reaches _ (number (errorThresholds s) "critical")); [reflexivity|].
  destruct (reaches _ (number (errorThresholds s) "warning")); reflexivity.
Qed.

(** C10: with the thresholds of the constructor (critical 5, warning 10)
    [logError] never reports that the warning threshold is reached, whatever
    the length of the log; in general the warning is reported exactly when
    the count has reached [warning] but not [critical], which needs
    [warning < critical]. *)
Theorem logError_warning_unreachable s e data :
  (errorThresholds s = errorThresholds constructor ->
   CyLogError "Warning error threshold reached" data ∉ (logError e s).2) /\
  (forall critical warning,
     number (errorThresholds s) "critical" = Some critical ->
     number (errorThresholds s) "warning" = Some warning ->
     CyLogError "Warning error threshold reached" data ∈ (logError e s).2 ->
     warning <= Z.of_nat (length (errorLog s)) + 1 < critical).
Proof.
  rewrite logError_run; simpl. rewrite length_app; simpl.
  unfold threshold_events, reaches. split.
  - intros ->.
    change (number _ "critical") with (Some 5).
    change (number _ "warning") with (Some 10).
    intros Hin.
    destruct (Z.leb_spec 5 (Z.of_nat (length (errorLog s) + 1))) as [H5|H5].
    + apply list_elem_of_singleton in Hin. discriminate.
    + destruct (Z.leb_spec 10 (Z.of_nat (length (errorLog s) + 1))) as [H10|H10];
        [lia | by apply elem_of_nil in Hin].
  - intros critical warning -> ->. intros Hin.
    destruct (Z.leb_spec critical (Z.of_nat (length (errorLog s) + 1))) as [Hc|Hc].
    + apply list_elem_of_singleton in Hin. discriminate.
    + destruct (Z.leb_spec warning (Z.of_nat (length (errorLog s) + 1))) as [Hw|Hw];
        [lia | by apply elem_of_nil in Hin].
Qed.

(** A handler fresh from the constructor whose log already holds eleven
    records: the twelfth reports the critical threshold, not the warning. *)
Lemma logError_warning_unreachable_witness :
  let e : error := {[ "type" := JStr "TimeoutError" ]} in
  let s := {| errorLog := replicate 11 e; retryAttempts := 3; retryDelay := 1000;
              errorThresholds := errorThresholds constructor |} in
  (logError e s).2
  = [CyLogError "Critical error threshold reached" (obj1 "errorCount" 12)] /\
  CyLogError "Warning error threshold reached" (obj1 "errorCount" 12) ∉ (logError e s).2.
Proof.
  intros e s. split; [reflexivity|].
  exact (proj1 (logError_warning_unreachable s e (obj1 "errorCount" 12)) eq_refl).
Defined.

End errorLog_properties.

(** ** ErrorHandler.handleApiError *)

Section handleApiError_properties.
Import ErrorHandler.

(** C5: [handleApiError] throws exactly when the status is at least 400; it
    has then appended one [ApiError] record to the log, told Cypress about
    it and asked for a screenshot, in this order; below 400 it returns the
    response it was given, and neither the log nor Cypress sees anything. *)
Theorem handleApiError_throws_iff_status_ge_400
    (clk : clock) (response : Response) (context : string) (s : state) :
  let run := handleApiError clk response context s in
  (throws run.1.1 = true <-> 400 <= status response) /\
  (400 <= status response ->
   exists apiError : error,
     get apiError "type" = JStr "ApiError" /\
     get apiError "status" = JNum (status response) /\
     get apiError "context" = JStr context /\
     run = (Throw ("API error: " +:+ pretty (status response) +:+ " "
                     +:+ toString (statusText response)),
            push_error apiError s,
            threshold_events (errorThresholds s)
              (Z.of_nat (length (errorLog s ++ [apiError])))
            ++ [CyLogError "API error occurred" (JObj apiError);
                CyTakeScreenshot ("api_error_" +:+ pretty (now clk))])) /\
  (status response < 400 -> run = (Return response, s, [])).
Proof.
  intros run. subst run. unfold handleApiError.
  destruct (Z.leb_spec 400 (status response)) as [Hge|Hlt].
  - unfold mbind, M_bind. rewrite logError_run. simpl.
    split; [split; [lia | reflexivity]|]. split; [|lia].
    intros _. eexists. split; [|split; [|split; [|reflexivity]]]; reflexivity.
  - simpl. split; [split; [discriminate | lia]|]. split; [lia | reflexivity].
Qed.

(** A 404 on a fresh handler and a 200 on the same handler. *)
Lemma handleApiError_throws_iff_status_ge_400_witness :
  let clk := {| toISOString := "2024-01-01T00:00:00.000Z"; now := 1704067200000 |} in
  let notFound := {| status := 404; statusText := JStr "Not Found";
                     config := JUndefined; data := JNull |} in
  let ok := {| status := 200; statusText := JStr "OK";
               config := JUndefined; data := JNull |} in
  (handleApiError clk notFound "employees" constructor).1.1
  = Throw "API error: 404 Not Found" /\
  length (errorLog (handleApiError clk notFound "employees" constructor).1.2) = 1%nat /\
  handleApiError clk ok "employees" constructor = (Return ok, constructor, []).
Proof.
  intros clk notFound ok.
  destruct (handleApiError_throws_iff_status_ge_400 clk notFound "employees" constructor)
    as (_ & Hthrow & _).
  destruct (handleApiError_throws_iff_status_ge_400 clk ok "employees" constructor)
    as (_ & _ & Hpass).
  destruct Hthrow as (apiError & _ & _ & _ & ->); [simpl; lia|].
  split; [reflexivity|]. split; [reflexivity|].
  apply Hpass. simpl. lia.
Defined.

End handleApiError_properties.

(** ** ErrorHandler.getErrorStatistics *)

Section getErrorStatistics_properties.
Import ErrorHandler.

Implicit Types (log : list error) (counts : gmap string counter).

Lemma occurrences_snoc f key log e :
  occurrences f key (log ++ [e])
  = (occurrences f key log + (if decide (f e = key) then 1 else 0))%nat.
Proof.
  unfold occurrences. rewrite filter_app, length_app. f_equal.
  rewrite filter_cons, filter_nil. by destruct (decide (f e = key)).
Qed.

(** [__proto__] is the one name under which [Object.prototype] holds no
    function. *)
Lemma Object_prototype_proto key :
  Object_prototype key = Some ObjectPrototype <-> key = "__proto__".
Proof.
  unfold Object_prototype. split.
  - destruct (String.eqb_spec key "constructor"); [discriminate|].
    destruct (String.eqb_spec key "__proto__"); [done|].
    by destruct (bool_decide _).
  - by intros ->.
Qed.

(** Counting one more record keeps the counter object in step with the
    log, under every key. *)
Lemma count_up_filed f log counts e :
  (forall key, counts !! key = filed key (occurrences f key log)) ->
  forall key,
    count_up counts (f e) !! key = filed key (occurrences f key (log ++ [e])).
Proof.
  intros Hc key. rewrite occurrences_snoc. unfold count_up.
  destruct (decide (f e = key)) as [->|Hne].
  - rewrite Nat.add_1_r. unfold index. rewrite (Hc key).
    destruct (Object_prototype key) as [[|name]|] eqn:Hproto.
    + assert (Hnone : forall n, filed key n = None).
      { intros [|n]; unfold filed; [done | by rewrite Hproto]. }
      pose proof (proj1 (Object_prototype_proto key) Hproto) as Hk. subst key.
      rewrite !Hnone. rewrite bool_decide_eq_true_2 by done. simpl.
      by rewrite (Hc "__proto__"), Hnone.
    + assert (Hk : String.eqb key "__proto__" = false).
      { apply String.eqb_neq. intros Heq. by rewrite Heq in Hproto. }
      rewrite Hk. simpl. rewrite lookup_insert_eq.
      unfold filed. rewrite Hproto.
      by destruct (occurrences f key log).
    + assert (Hk : String.eqb key "__proto__" = false).
      { apply String.eqb_neq. intros Heq. by rewrite Heq in Hproto. }
      rewrite Hk. simpl. rewrite lookup_insert_eq.
      unfold filed. rewrite Hproto.
      destruct (occurrences f key log) as [|n]; simpl; [reflexivity|].
      do 2 f_equal. destruct (Z.eqb_spec (Z.pos (Pos.of_succ_nat n)) 0); lia.
  - rewrite Nat.add_0_r, <- (Hc key).
    destruct (_ && _); [reflexivity|]. by rewrite lookup_insert_ne.
Qed.

Lemma fold_counts log :
  forall pre ct cc,
    (forall key, ct !! key = filed key (occurrences type_key key pre)) ->
    (forall key, cc !! key = filed key (occurrences context_key key pre)) ->
    let folded :=
      foldl (λ '(errorTypes, errorContexts) (error : error),
               (count_up errorTypes (property_key (get error "type")),
                count_up errorContexts (property_key (get error "context"))))
            (ct, cc) log in
    (forall key, folded.1 !! key = filed key (occurrences type_key key (pre ++ log))) /\
    (forall key, folded.2 !! key = filed key (occurrences context_key key (pre ++ log))).
Proof.
  induction log as [|e log IH]; intros pre ct cc Ht Hc; simpl.
  - by rewrite app_nil_r.
  - replace (pre ++ e :: log) with ((pre ++ [e]) ++ log)
      by (by rewrite <- app_assoc).
    apply IH.
    + exact (count_up_filed type_key pre ct e Ht).
    + exact (count_up_filed context_key pre cc e Hc).
Qed.

(** The counter objects of the statistics, under every key. *)
Lemma statistics_filed (s : state) :
  forall key,
    errorTypes (getErrorStatistics s) !! key
    = filed key (occurrences type_key key (errorLog s)) /\
    errorContexts (getErrorStatistics s) !! key
    = filed key (occurrences context_key key (errorLog s)).
Proof.
  unfold getErrorStatistics.
  assert (Hempty : forall f key,
            (∅ : gmap string counter) !! key = filed key (occurrences f key [])).
  { intros f key. by rewrite lookup_empty. }
  pose proof (fold_counts (errorLog s) [] ∅ ∅ (Hempty _) (Hempty _)) as Hfold.
  cbv zeta in Hfold.
  destruct (foldl _ (∅, ∅) (errorLog s)) as [ct cc].
  destruct Hfold as [Ht Hc]. cbn [fst snd app] in Ht, Hc.
  intros key. cbn [errorTypes errorContexts]. by split.
Qed.

Lemma filed_counts f log counts key :
  Object_prototype key = None ->
  counts !! key = filed key (occurrences f key log) ->
  counts_key f log counts key.
Proof.
  intros Hproto Hkey. unfold counts_key. rewrite Hkey. unfold filed.
  rewrite Hproto. by destruct (occurrences f key log).
Qed.

(** [log.slice(-10)] is what is left when all but the last ten records are
    dropped. *)
Lemma slice_last_ten log :
  JSArray.slice_from (-10) log = drop (length log - 10) log.
Proof.
  unfold JSArray.slice_from, JSArray.slice, JSArray.relative_index.
  replace (Z.of_nat (length log) <? 0) with false by (symmetry; apply Z.ltb_ge; lia).
  simpl.
  replace (Z.to_nat (Z.max (Z.of_nat (length log) + -10) 0))
    with (length log - 10)%nat by lia.
  apply take_ge. rewrite length_drop. lia.
Qed.

(** C6, as the code has it: the statistics hold the number of records, the
    last ten records of the log and, for every type and every context that
    [Object.prototype] has no member of, the number of records filed under
    it; a log of one [ElementNotFound] and two [TimeoutError] records, in
    any order, gives [{ElementNotFound: 1, TimeoutError: 2}] under
    [errorTypes].  Under the name of a member of [Object.prototype] the
    counter object never holds a number. *)
Theorem getErrorStatistics_counts (s : state) :
  let stats := getErrorStatistics s in
  totalErrors stats = Z.of_nat (length (errorLog s)) /\
  (forall key, Object_prototype key = None ->
     counts_key type_key (errorLog s) (errorTypes stats) key /\
     counts_key context_key (errorLog s) (errorContexts stats) key) /\
  (forall key,
     errorTypes stats !! key = filed key (occurrences type_key key (errorLog s)) /\
     errorContexts stats !! key
     = filed key (occurrences context_key key (errorLog s))) /\
  recentErrors stats = drop (length (errorLog s) - 10) (errorLog s) /\
  length (recentErrors stats) = Nat.min 10 (length (errorLog s)) /\
  (forall e1 e2 e3 : error,
     type_key e1 = "ElementNotFound" ->
     type_key e2 = "TimeoutError" ->
     type_key e3 = "TimeoutError" ->
     errorLog s ≡ₚ [e1; e2; e3] ->
     errorTypes stats = {[ "ElementNotFound" := Count 1; "TimeoutError" := Count 2 ]}).
Proof.
  intros stats. subst stats.
  pose proof (statistics_filed s) as Hfiled.
  split; [|split; [|split; [exact Hfiled|split; [|split]]]].
  - unfold getErrorStatistics.
    by destruct (foldl _ (∅, ∅) (errorLog s)) as [ct cc].
  - intros key Hproto. destruct (Hfiled key) as [Ht Hc].
    split; by apply filed_counts.
  - unfold getErrorStatistics.
    destruct (foldl _ (∅, ∅) (errorLog s)) as [ct cc].
    cbn [recentErrors]. apply slice_last_ten.
  - unfold getErrorStatistics.
    destruct (foldl _ (∅, ∅) (errorLog s)) as [ct cc].
    cbn [recentErrors]. rewrite slice_last_ten, length_drop. lia.
  - intros e1 e2 e3 H1 H2 H3 Hperm. apply map_eq. intros key.
    rewrite (proj1 (Hfiled key)). unfold occurrences. rewrite Hperm.
    rewrite !filter_cons, filter_nil, H1, H2, H3.
    destruct (decide ("ElementNotFound" = key)) as [<-|Hn1].
    + reflexivity.
    + destruct (decide ("TimeoutError" = key)) as [<-|Hn2].
      * reflexivity.
      * simpl. rewrite lookup_insert_ne by done. by rewrite lookup_singleton_ne.
Qed.

(** The three records in the order a run logs them, on a fresh handler. *)
Lemma getErrorStatistics_counts_witness :
  let notFound : error := {[ "type" := JStr "ElementNotFound";
                             "selector" := JStr "#login";
                             "context" := JStr "login" ]} in
  let timedOut : error := {[ "type" := JStr "TimeoutError";
                             "timeout" := JNum 10000;
                             "context" := JStr "login" ]} in
  let s := (logError timedOut
              (logError timedOut (logError notFound constructor).1.2).1.2).1.2 in
  errorLog s = [notFound; timedOut; timedOut] /\
  errorTypes (getErrorStatistics s)
  = {[ "ElementNotFound" := Count 1; "TimeoutError" := Count 2 ]} /\
  errorContexts (getErrorStatistics s) = {[ "login" := Count 3 ]} /\
  totalErrors (getErrorStatistics s) = 3 /\
  counts_key type_key (errorLog s) (errorTypes (getErrorStatistics s)) "TimeoutError".
Proof.
  intros notFound timedOut s.
  assert (Hlog : errorLog s = [notFound; timedOut; timedOut]) by reflexivity.
  destruct (getErrorStatistics_counts s) as (_ & Hcounts & _ & _ & _ & Hexample).
  split; [exact Hlog|]. split; [|split; [reflexivity|split; [reflexivity|]]].
  - apply (Hexample notFound timedOut timedOut); reflexivity.
  - exact (proj1 (Hcounts "TimeoutError" eq_refl)).
Defined.

(** C6 as the specification words it fails: a record whose type is
    [constructor] is not counted; the counter object answers for that name
    with the text of the inherited function followed by a 1. *)
Lemma getErrorStatistics_miscounts_inherited_names :
  let e : error := {[ "type" := JStr "constructor"; "context" := JStr "login" ]} in
  let s := (logError e constructor).1.2 in
  occurrences type_key "constructor" (errorLog s) = 1%nat /\
  errorTypes (getErrorStatistics s) !! "constructor"
  = Some (Polluted (NativeFunction "Object") 1) /\
  ~ counts_records type_key (errorLog s) (errorTypes (getErrorStatistics s)).
Proof.
  intros e s. split; [reflexivity|]. split; [reflexivity|].
  intros Hcounts. specialize (Hcounts "constructor"). discriminate.
Qed.

End getErrorStatistics_properties.

(** ** Threshold configuration: setThresholds and setErrorThresholds *)

Section thresholds_properties.

Implicit Types (overrides : list (gmap string (option Z))) (key : string).
Implicit Types (m : gmap string (option Z)).

(** One call: an overridden key takes the new limit, every other key keeps
    the limit it had. *)
Lemma setThresholds_lookup (newThresholds : gmap string (option Z)) s key :
  PerformanceMonitor.thresholds (PerformanceMonitor.setThresholds newThresholds s).1 !! key
  = match newThresholds !! key with
    | Some limit => Some limit
    | None => PerformanceMonitor.thresholds s !! key
    end.
Proof.
  simpl. rewrite lookup_union.
  destruct (newThresholds !! key), (PerformanceMonitor.thresholds s !! key); reflexivity.
Qed.

Lemma setErrorThresholds_lookup (thresholds : gmap string (option Z)) s key :
  ErrorHandler.errorThresholds (ErrorHandler.setErrorThresholds thresholds s).1.2 !! key
  = match thresholds !! key with
    | Some limit => Some limit
    | None => ErrorHandler.errorThresholds s !! key
    end.
Proof.
  simpl. rewrite lookup_union.
  destruct (thresholds !! key), (ErrorHandler.errorThresholds s !! key); reflexivity.
Qed.

(** A sequence of calls lays the override maps over the configuration one
    after the other. *)
Lemma setThresholds_all_spread overrides :
  forall s,
    PerformanceMonitor.thresholds (PerformanceMonitor.setThresholds_all overrides s)
    = foldl (λ m o, o ∪ m) (PerformanceMonitor.thresholds s) overrides.
Proof. induction overrides as [|o overrides IH]; intros s; [done | apply IH]. Qed.

Lemma setErrorThresholds_all_spread overrides :
  forall s,
    ErrorHandler.errorThresholds (ErrorHandler.setErrorThresholds_all overrides s)
    = foldl (λ m o, o ∪ m) (ErrorHandler.errorThresholds s) overrides.
Proof. induction overrides as [|o overrides IH]; intros s; [done | apply IH]. Qed.

(** The keys of a configuration only grow. *)
Lemma spread_dom overrides :
  forall m, dom m ⊆ dom (foldl (λ m o, o ∪ m) m overrides).
Proof.
  induction overrides as [|o overrides IH]; intros m; [done|].
  etrans; [|apply IH]. simpl. rewrite dom_union_L. set_solver.
Qed.

(** A key that no override names keeps its value. *)
Lemma spread_untouched overrides key :
  Forall (λ o, o !! key = None) overrides ->
  forall m, foldl (λ m o, o ∪ m) m overrides !! key = m !! key.
Proof.
  induction 1 as [|o overrides Ho _ IH]; intros m; [done|].
  simpl. rewrite IH, lookup_union, Ho. by destruct (m !! key).
Qed.

(** A key holds what the last override that names it gave it. *)
Lemma spread_last pre o post key v :
  o !! key = Some v ->
  Forall (λ o', o' !! key = None) post ->
  forall m, foldl (λ m o, o ∪ m) m (pre ++ o :: post) !! key = Some v.
Proof.
  intros Ho Hpost m. rewrite foldl_app. simpl.
  rewrite (spread_untouched post key Hpost), lookup_union, Ho.
  by destruct (foldl _ m pre !! key).
Qed.

(** No value is [undefined] unless an override brings one. *)
Lemma spread_defined overrides :
  Forall (map_Forall (λ _ v, is_Some v)) overrides ->
  forall m, map_Forall (λ _ v, is_Some v) m ->
            map_Forall (λ _ v, is_Some v) (foldl (λ m o, o ∪ m) m overrides).
Proof.
  induction 1 as [|o overrides Ho _ IH]; intros m Hm; [done|].
  simpl. apply IH. by apply map_Forall_union_2.
Qed.

Lemma defined_number m key :
  map_Forall (λ _ v, is_Some v) m -> key ∈ dom m -> is_Some (number m key).
Proof.
  intros Hm [x Hx]%elem_of_dom. unfold number. rewrite Hx. simpl.
  exact (Hm key x Hx).
Qed.

(** C7, as the code has it: whatever override maps a sequence of
    [setThresholds] or [setErrorThresholds] calls is given, every key of
    the configuration the constructor set up is still a key afterwards; it
    holds what the last override that names it gave it, and what the
    constructor gave it when none does; and it holds a number unless an
    override names a key with the value [undefined]. *)
Theorem thresholds_never_lose_a_key overrides :
  let p := PerformanceMonitor.thresholds
             (PerformanceMonitor.setThresholds_all overrides PerformanceMonitor.constructor) in
  let e := ErrorHandler.errorThresholds
             (ErrorHandler.setErrorThresholds_all overrides ErrorHandler.constructor) in
  dom (PerformanceMonitor.thresholds PerformanceMonitor.constructor) ⊆ dom p /\
  dom (ErrorHandler.errorThresholds ErrorHandler.constructor) ⊆ dom e /\
  (forall key,
     Forall (λ o, o !! key = None) overrides ->
     p !! key = PerformanceMonitor.thresholds PerformanceMonitor.constructor !! key /\
     e !! key = ErrorHandler.errorThresholds ErrorHandler.constructor !! key) /\
  (forall pre o post key v,
     overrides = pre ++ o :: post ->
     o !! key = Some v ->
     Forall (λ o', o' !! key = None) post ->
     p !! key = Some v /\ e !! key = Some v) /\
  (Forall (map_Forall (λ _ v, is_Some v)) overrides ->
   Forall (λ key, is_Some (number p key))
     ["pageLoadTime"; "apiResponseTime"; "loginTime"; "memoryUsage"] /\
   Forall (λ key, is_Some (number e key)) ["critical"; "warning"; "info"]).
Proof.
  intros p e. subst p e.
  rewrite setThresholds_all_spread, setErrorThresholds_all_spread.
  split; [apply spread_dom|]. split; [apply spread_dom|].
  split; [|split].
  - intros key Hnone. split; by apply spread_untouched.
  - intros pre o post key v -> Ho Hpost. split; by apply spread_last.
  - intros Hdefined. split.
    + assert (Hall : map_Forall (λ _ v, is_Some v)
                (foldl (λ m o, o ∪ m)
                   (PerformanceMonitor.thresholds PerformanceMonitor.constructor)
                   overrides)).
      { apply spread_defined; [done|]. intros key v.
        unfold PerformanceMonitor.constructor. simpl.
        rewrite !lookup_insert_Some, lookup_singleton_Some.
        intros [[_ <-]|[_ [[_ <-]|[_ [[_ <-]|[_ [_ <-]]]]]]]; by eexists. }
      repeat (apply Forall_cons; split;
              [apply defined_number; [exact Hall|];
               apply (spread_dom overrides), elem_of_dom; by eexists|]).
      by apply Forall_nil.
    + assert (Hall : map_Forall (λ _ v, is_Some v)
                (foldl (λ m o, o ∪ m)
                   (ErrorHandler.errorThresholds ErrorHandler.constructor)
                   overrides)).
      { apply spread_defined; [done|]. intros key v.
        unfold ErrorHandler.constructor. simpl.
        rewrite !lookup_insert_Some, lookup_singleton_Some.
        intros [[_ <-]|[_ [[_ <-]|[_ [_ <-]]]]]; by eexists. }
      repeat (apply Forall_cons; split;
              [apply defined_number; [exact Hall|];
               apply (spread_dom overrides), elem_of_dom; by eexists|]).
      by apply Forall_nil.
Qed.

(** Two overrides in a row, the second of which names [critical] again:
    [critical] holds the later value, [info] the constructor's. *)
Lemma thresholds_never_lose_a_key_witness :
  let overrides : list (gmap string (option Z)) :=
    [ {[ "critical" := Some 3 ]}; {[ "critical" := Some 8; "warning" := Some 4 ]} ] in
  let e := ErrorHandler.errorThresholds
             (ErrorHandler.setErrorThresholds_all overrides ErrorHandler.constructor) in
  e !! "critical" = Some (Some 8) /\
  e !! "info" = Some (Some 20) /\
  is_Some (number e "warning").
Proof.
  intros overrides e.
  destruct (thresholds_never_lose_a_key overrides)
    as (_ & _ & Hkeeps & Hlast & Hdefined).
  split; [|split].
  - refine (proj2 (Hlast [ {[ "critical" := Some 3 ]} ]
                     {[ "critical" := Some 8; "warning" := Some 4 ]} []
                     "critical" (Some 8) eq_refl eq_refl _)).
    apply Forall_nil. exact I.
  - refine (proj2 (Hkeeps "info" _)).
    repeat (apply Forall_cons; split; [reflexivity|]). apply Forall_nil. exact I.
  - assert (Hall : Forall (map_Forall (λ _ (v : option Z), is_Some v)) overrides).
    { repeat (apply Forall_cons; split;
              [apply (bool_decide_unpack _); vm_compute; exact I|]).
      apply Forall_nil. exact I. }
    pose proof (proj2 (Hdefined Hall)) as Hkeys.
    apply Forall_cons in Hkeys as [_ Hkeys].
    apply Forall_cons in Hkeys as [Hwarning _]. exact Hwarning.
Defined.

(** C7 as the specification words it fails: an override that names
    [critical] without a value leaves [critical] without one, and so does an
    override of [pageLoadTime]; the key itself is kept. *)
Lemma thresholds_undefined_by_override :
  let e := ErrorHandler.errorThresholds
             (ErrorHandler.setErrorThresholds_all [ {[ "critical" := None ]} ]
                ErrorHandler.constructor) in
  let p := PerformanceMonitor.thresholds
             (PerformanceMonitor.setThresholds_all [ {[ "pageLoadTime" := None ]} ]
                PerformanceMonitor.constructor) in
  number (ErrorHandler.errorThresholds ErrorHandler.constructor) "critical" = Some 5 /\
  number e "critical" = None /\
  number p "pageLoadTime" = None /\
  ~ (forall overrides,
       Forall (λ key, is_Some (number
                 (ErrorHandler.errorThresholds
                    (ErrorHandler.setErrorThresholds_all overrides
                       ErrorHandler.constructor)) key))
         ["critical"; "warning"; "info"]).
Proof.
  intros e p. split; [reflexivity|]. split; [reflexivity|]. split; [reflexivity|].
  intros Hall. specialize (Hall [ {[ "critical" := None ]} ]).
  apply Forall_cons in Hall as [[x Hx] _]. discriminate.
Qed.

End thresholds_properties.

(** ** ErrorHandler.retryOperation *)

Section retryOperation_properties.
Import ErrorHandler.

Context (clk : clock) (operation : Z -> settled) (name : string).
Context (maxRetries delay : Z).

Abbreviation attempt_ := (attempt clk operation name maxRetries delay).

Lemma calls_threshold_events th n : calls (threshold_events th n) = O.
Proof.
  unfold threshold_events.
  destruct (reaches n (number th "critical")); [reflexivity|].
  destruct (reaches n (number th "warning")); reflexivity.
Qed.

Lemma calls_app out1 out2 : calls (out1 ++ out2) = (calls out1 + calls out2)%nat.
Proof.
  induction out1 as [|e out1 IH]; [reflexivity|].
  destruct e; simpl; rewrite IH; reflexivity.
Qed.

(** One pass through the closure, spelled out on the state. *)
Lemma attempt_unfold made s :
  attempt_ made s =
    let attempts := made + 1 in
    match operation attempts with
    | Resolved result =>
        (Return (Resolved result), s,
         [CyLogInfo ("Retry attempt " +:+ pretty attempts +:+ "/"
                       +:+ pretty maxRetries) (JObj ∅);
          OperationCall attempts;
          CyLogInfo "Operation succeeded on retry" (obj1 "attempts" attempts)])
    | Rejected message =>
        if decide (maxRetries <= attempts) then
          (Return (Rejected ("Operation failed after " +:+ pretty maxRetries
                               +:+ " attempts: " +:+ message)),
           push_error (retryError clk name maxRetries attempts message) s,
           CyLogInfo ("Retry attempt " +:+ pretty attempts +:+ "/"
                        +:+ pretty maxRetries) (JObj ∅)
           :: OperationCall attempts
           :: threshold_events (errorThresholds s)
                (Z.of_nat (length (errorLog s
                   ++ [retryError clk name maxRetries attempts message])))
           ++ [CyLogError "Retry attempts exhausted"
                 (JObj (retryError clk name maxRetries attempts message));
               CyTakeScreenshot ("retry_exhausted_" +:+ pretty (now clk))])
        else
          match attempt_ attempts s with
          | (r, s', out) =>
              (r, s',
               CyLogInfo ("Retry attempt " +:+ pretty attempts +:+ "/"
                            +:+ pretty maxRetries) (JObj ∅)
               :: OperationCall attempts
               :: CyLogInfo ("Retry attempt " +:+ pretty attempts
                               +:+ " failed, retrying in " +:+ pretty delay +:+ "ms")
                    (JObj ∅)
               :: SetTimeout delay :: out)
          end
    end.
Proof.
  rewrite attempt_equation_1. cbv zeta.
  unfold mbind, M_bind, emit, mret, M_ret.
  destruct (operation (made + 1)) as [result|message]; [reflexivity|].
  destruct (decide (maxRetries <= made + 1)) as [Hle|Hgt].
  - rewrite logError_run. reflexivity.
  - destruct (attempt_ (made + 1) s) as [[[r|msg] s'] out]; reflexivity.
Qed.

(** What a run of the closure looks like from the point where [made]
    attempts have been made. *)
Lemma attempt_runs (n : nat) :
  forall made s,
    (Z.to_nat (maxRetries - made) <= n)%nat ->
    let run := attempt_ made s in
    retry_log operation maxRetries delay (made + 1) run.2 /\
    (1 <= calls run.2)%nat /\
    Z.of_nat (calls run.2) <= Z.max 1 (maxRetries - made) /\
    ((forall k, made < k -> exists message, operation k = Rejected message) ->
     Z.of_nat (calls run.2) = Z.max 1 (maxRetries - made) /\
     exists last,
       operation (Z.max (made + 1) maxRetries) = Rejected last /\
       run.1.1 = Return (Rejected ("Operation failed after " +:+ pretty maxRetries
                                     +:+ " attempts: " +:+ last)) /\
       run.1.2 = push_error
                   (retryError clk name maxRetries (Z.max (made + 1) maxRetries) last) s).
Proof.
  induction n as [n IH] using lt_wf_ind. intros made s Hn run. subst run.
  rewrite attempt_unfold. cbv zeta.
  destruct (operation (made + 1)) as [result|message] eqn:Hop.
  - simpl. split; [by apply retry_log_last|]. split; [lia|]. split; [lia|].
    intros Hfail. destruct (Hfail (made + 1)) as [m Hm]; [lia|]. congruence.
  - destruct (decide (maxRetries <= made + 1)) as [Hle|Hgt].
    + simpl. rewrite calls_app, calls_threshold_events. simpl.
      split.
      { apply retry_log_last. by rewrite calls_app, calls_threshold_events. }
      split; [lia|]. split; [lia|]. intros _. split; [lia|].
      exists message. replace (Z.max (made + 1) maxRetries) with (made + 1) by lia.
      done.
    + destruct (IH (Z.to_nat (maxRetries - (made + 1))) ltac:(lia) (made + 1) s
                  ltac:(lia)) as (Hlog & Hone & Hmost & Hall).
      destruct (attempt_ (made + 1) s) as [[r s'] out]. simpl in *.
      split; [by eapply retry_log_again|]. split; [lia|]. split; [lia|].
      intros Hfail. destruct Hall as (Hexact & last & Hlast & Hres & Hstate).
      { intros k Hk. apply Hfail. lia. }
      split; [lia|]. exists last.
      replace (Z.max (made + 1) maxRetries) with (Z.max (made + 1 + 1) maxRetries)
        by lia.
      done.
Qed.

End retryOperation_properties.

Section retryOperation_claim.
Import ErrorHandler.

(** C2, as the code has it: the wrapped operation is called at least once
    and at most [max 1 N] times, hence at most [N] times whenever [N >= 1];
    the attempts follow one another, each further attempt coming after the
    rejection of the previous one, the log of that failure and the timer;
    when every attempt fails there are exactly [max 1 N] calls, the promise
    is rejected with ["Operation failed after N attempts: "] followed by
    the message of the last failure, and one [RetryExhausted] record is
    logged. *)
Theorem retryOperation_attempts
    (clk : clock) (operation : Z -> settled) (name : string)
    (maxRetries delay : option Z) (s : state) :
  let N := default (retryAttempts s) maxRetries in
  let d := default (retryDelay s) delay in
  let run := retryOperation clk operation name maxRetries delay s in
  retry_log operation N d 1 run.2 /\
  (1 <= calls run.2)%nat /\
  Z.of_nat (calls run.2) <= Z.max 1 N /\
  (1 <= N -> Z.of_nat (calls run.2) <= N) /\
  ((forall k, 0 < k -> exists message, operation k = Rejected message) ->
   Z.of_nat (calls run.2) = Z.max 1 N /\
   exists last,
     operation (Z.max 1 N) = Rejected last /\
     run.1.1 = Return (Rejected ("Operation failed after " +:+ pretty N
                                   +:+ " attempts: " +:+ last)) /\
     run.1.2 = push_error (retryError clk name N (Z.max 1 N) last) s).
Proof.
  intros N d run. subst run. unfold retryOperation, mbind, M_bind, this.
  fold N d.
  pose proof (attempt_runs clk operation name N d (Z.to_nat (N - 0)) 0 s
                ltac:(lia)) as Hrun.
  cbv zeta in Hrun. rewrite Z.sub_0_r in Hrun.
  destruct (attempt clk operation name N d 0 s) as [[r s'] out].
  simpl in *. destruct Hrun as (Hlog & Hone & Hmost & Hall).
  split; [exact Hlog|]. split; [exact Hone|]. split; [exact Hmost|].
  split; [lia|]. exact Hall.
Qed.

(** Three attempts by default; an operation that fails every time is called
    three times and the rejection carries the count and the last message. *)
Lemma retryOperation_attempts_witness :
  let clk := {| toISOString := "2024-01-01T00:00:00.000Z"; now := 1704067200000 |} in
  let operation := λ k : Z, Rejected ("boom " +:+ pretty k) in
  let run := retryOperation clk operation "flaky" None None constructor in
  (forall k, 0 < k -> exists message, operation k = Rejected message) /\
  calls run.2 = 3%nat /\
  run.1.1 = Return (Rejected "Operation failed after 3 attempts: boom 3").
Proof.
  intros clk operation run.
  assert (Hfail : forall k, 0 < k -> exists message, operation k = Rejected message).
  { intros k _. by eexists. }
  split; [exact Hfail|].
  destruct (retryOperation_attempts clk operation "flaky" None None constructor)
    as (_ & _ & _ & _ & Hall).
  destruct (Hall Hfail) as (Hcalls & last & Hlast & Hres & _).
  split.
  - apply Nat2Z.inj. exact Hcalls.
  - etrans; [exact Hres|]. vm_compute in Hlast. injection Hlast as <-. reflexivity.
Defined.

(** C2 as the specification words it fails for [maxAttempts = 0]: the
    operation is called once, which is more than [N] and not [N] times, and
    the rejection speaks of 0 attempts. *)
Lemma retryOperation_zero_attempts_calls_once :
  let clk := {| toISOString := "2024-01-01T00:00:00.000Z"; now := 1704067200000 |} in
  let run := retryOperation clk (λ _, Rejected "boom") "flaky" (Some 0) None constructor in
  calls run.2 = 1%nat /\
  ~ (Z.of_nat (calls run.2) <= 0) /\
  run.1.1 = Return (Rejected "Operation failed after 0 attempts: boom").
Proof.
  intros clk run.
  assert (Hcalls : calls run.2 = 1%nat) by (vm_compute; reflexivity).
  split; [exact Hcalls|]. split; [rewrite Hcalls; lia|].
  vm_compute. reflexivity.
Qed.

End retryOperation_claim.

(** ** PerformanceMonitor.monitorConcurrentRequests *)

Section monitorConcurrentRequests_properties.
Import PerformanceMonitor.

Context (turn : nat) (requests : list (nat * factory)) (maxConcurrent : Z).

(** Inside the array and with a positive size, [slice] cuts the next
    [maxConcurrent] elements, or what is left of the array. *)
Lemma slice_batch (i : Z) :
  1 <= maxConcurrent -> 0 <= i < Z.of_nat (length requests) ->
  JSArray.slice i (i + maxConcurrent) requests
  = take (Z.to_nat maxConcurrent) (drop (Z.to_nat i) requests).
Proof.
  intros Hmc Hi. unfold JSArray.slice, JSArray.relative_index.
  replace (i <? 0) with false by (symmetry; apply Z.ltb_ge; lia).
  replace (i + maxConcurrent <? 0) with false by (symmetry; apply Z.ltb_ge; lia).
  replace (Z.min i (Z.of_nat (length requests))) with i by lia.
  destruct (Z.le_ge_cases (i + maxConcurrent) (Z.of_nat (length requests))) as [Hin|Hout].
  - f_equal. lia.
  - rewrite !take_ge; [reflexivity | rewrite length_drop; lia | rewrite length_drop; lia].
Qed.

Lemma full_but_last_head size b rest :
  full_but_last size (b :: rest) = true -> (1 <= size -> 1 <= length b)%nat.
Proof.
  destruct rest; cbn [full_but_last]; intros H%andb_prop Hsize; destruct H as [H1 H2].
  - by apply Nat.leb_le in H1.
  - apply Nat.eqb_eq in H1. lia.
Qed.

(** With a positive batch size the loop ends, having cut the array into
    consecutive batches of that size. *)
Lemma for_batches_runs :
  1 <= maxConcurrent ->
  forall fuel i queue,
    0 <= i ->
    (Z.to_nat (Z.of_nat (length requests) - i) < fuel)%nat ->
    exists bs,
      for_batches fuel turn requests maxConcurrent i queue = Some (queue ++ bs) /\
      concat bs = map (call turn) (drop (Z.to_nat i) requests) /\
      full_but_last (Z.to_nat maxConcurrent) bs = true.
Proof.
  intros Hmc. induction fuel as [|fuel IH]; intros i queue Hi Hfuel; [lia|].
  simpl. destruct (Z.ltb_spec i (Z.of_nat (length requests))) as [Hlt|Hge].
  - destruct (IH (i + maxConcurrent)
                (queue ++ [map (call turn) (JSArray.slice i (i + maxConcurrent) requests)])
                ltac:(lia) ltac:(lia)) as (bs & Hrun & Hcat & Hfull).
    rewrite slice_batch in * by lia.
    exists (map (call turn) (take (Z.to_nat maxConcurrent) (drop (Z.to_nat i) requests)) :: bs).
    split; [by rewrite Hrun, <- app_assoc|]. split.
    + simpl. rewrite Hcat, <- map_app. f_equal.
      replace (Z.to_nat (i + maxConcurrent)) with (Z.to_nat i + Z.to_nat maxConcurrent)%nat
        by lia.
      rewrite <- drop_drop. apply take_drop.
    + assert (Hlen : length (map (call turn)
                       (take (Z.to_nat maxConcurrent) (drop (Z.to_nat i) requests)))
                     = Nat.min (Z.to_nat maxConcurrent) (length requests - Z.to_nat i)).
      { by rewrite length_map, length_take, length_drop. }
      destruct bs as [|b bs].
      * cbn [full_but_last]. rewrite Hlen. apply andb_true_intro.
        split; [apply Nat.leb_le | apply Nat.leb_le]; lia.
      * pose proof (full_but_last_head _ _ _ Hfull ltac:(lia)) as Hb.
        assert (Hrest : (1 <= length (drop (Z.to_nat (i + maxConcurrent)) requests))%nat).
        { rewrite <- (length_map (call turn)), <- Hcat. simpl. rewrite length_app. lia. }
        rewrite length_drop in Hrest.
        change (full_but_last ?n (?x :: b :: bs))
          with ((length x =? n)%nat && full_but_last n (b :: bs)).
        rewrite Hfull, Hlen, andb_true_r. apply Nat.eqb_eq. lia.
  - exists []. rewrite app_nil_r. split; [reflexivity|]. split; [|reflexivity].
    rewrite drop_ge by lia. reflexivity.
Qed.

(** Every promise was created in the turn of the call. *)
Lemma concat_created_at (bs : list (list promise)) (l : list (nat * factory)) :
  concat bs = map (call turn) l ->
  Forall (Forall (λ p, created_at p = turn)) bs.
Proof.
  intros Hcat.
  assert (Hall : Forall (λ p, created_at p = turn) (concat bs)).
  { rewrite Hcat. apply Forall_forall. intros p Hp.
    apply list_elem_of_fmap in Hp as (r & -> & _). reflexivity. }
  clear Hcat. induction bs as [|b bs IH]; [constructor|].
  simpl in Hall. apply Forall_app in Hall as [Hb Hbs].
  constructor; [exact Hb | by apply IH].
Qed.

(** Without a positive batch size the loop variable never passes the end
    of a non-empty array: the loop does not end. *)
Lemma for_batches_diverges :
  maxConcurrent <= 0 -> requests <> [] ->
  forall fuel i queue,
    i <= 0 -> for_batches fuel turn requests maxConcurrent i queue = None.
Proof.
  intros Hmc Hne. induction fuel as [|fuel IH]; intros i queue Hi; [reflexivity|].
  simpl. destruct (Z.ltb_spec i (Z.of_nat (length requests))) as [Hlt|Hge].
  - apply IH. lia.
  - destruct requests; [done | simpl in Hge; lia].
Qed.

End monitorConcurrentRequests_properties.

Section monitorConcurrentRequests_claim.
Import PerformanceMonitor.

(** The callbacks push the results batch after batch, so the results are in
    the order of the promises. *)
Lemma run_queue_results (queue : list (list promise)) :
  forall results,
    run_queue queue results = results ++ map value (concat queue).
Proof.
  induction queue as [|b queue IH]; intros results; simpl.
  - by rewrite app_nil_r.
  - by rewrite IH, map_app, app_assoc.
Qed.

Lemma values_in_request_order (turn : nat) (requests : list factory) :
  forall tag : nat -> factory -> nat * factory,
    (forall k f, (tag k f).2 = f) ->
    map value (map (call turn) (imap tag requests)) = map result requests.
Proof.
  induction requests as [|f requests IH]; intros tag Htag; [reflexivity|].
  simpl. rewrite Htag. f_equal. apply IH. intros k f'. apply Htag.
Qed.

(** With a positive [maxConcurrent] the call ends; the factories are cut
    into consecutive batches of that size, every factory has been called in
    the turn of the call itself, and the results come in request order. *)
Lemma monitorConcurrentRequests_batches
    (fuel turn : nat) (requests : list factory) (maxConcurrent : option Z) :
  1 <= default 5 maxConcurrent ->
  (length requests < fuel)%nat ->
  exists r,
    monitorConcurrentRequests fuel turn requests maxConcurrent = Some r /\
    concat (batches r) = map (call turn) (imap (λ k f, (k, f)) requests) /\
    full_but_last (Z.to_nat (default 5 maxConcurrent)) (batches r) = true /\
    Forall (Forall (λ p, created_at p = turn)) (batches r) /\
    results r = map result requests.
Proof.
  intros Hsize Hfuel. unfold monitorConcurrentRequests.
  destruct (for_batches_runs turn (imap (λ k f, (k, f)) requests)
              (default 5 maxConcurrent) Hsize fuel 0 [] ltac:(lia))
    as (bs & Hrun & Hcat & Hfull).
  { rewrite length_imap. lia. }
  simpl in Hrun, Hcat. rewrite Hrun. simpl.
  eexists. split; [reflexivity|]. simpl.
  split; [exact Hcat|]. split; [exact Hfull|].
  split; [by eapply concat_created_at|].
  rewrite run_queue_results, Hcat. simpl. apply values_in_request_order. done.
Qed.

(** When there are more factories than one batch holds and the first
    operation needs at least one turn to settle, the second batch has been
    started before the first has settled. *)
Lemma monitorConcurrentRequests_overlap
    (fuel turn : nat) (f0 : factory) (requests : list factory) (maxConcurrent : option Z) :
  1 <= default 5 maxConcurrent ->
  (Z.to_nat (default 5%Z maxConcurrent) < length (f0 :: requests))%nat ->
  (0 < latency f0)%nat ->
  (length (f0 :: requests) < fuel)%nat ->
  exists r,
    monitorConcurrentRequests fuel turn (f0 :: requests) maxConcurrent = Some r /\
    sequential (batches r) = false.
Proof.
  intros Hsize Hmore Hlat Hfuel.
  destruct (monitorConcurrentRequests_batches fuel turn (f0 :: requests) maxConcurrent
              Hsize Hfuel) as (r & Hrun & Hcat & Hfull & Hcreated & _).
  exists r. split; [exact Hrun|].
  assert (Hlen : length (concat (batches r)) = length (f0 :: requests)).
  { by rewrite Hcat, length_map, length_imap. }
  destruct (batches r) as [|b1 rest]; [discriminate Hcat|].
  pose proof (full_but_last_head _ _ _ Hfull ltac:(lia)) as Hb1.
  destruct b1 as [|p b1]; [simpl in Hb1; lia|].
  simpl in Hcat. injection Hcat as Hp _.
  destruct rest as [|b2 rest].
  { exfalso. cbn [full_but_last] in Hfull. apply andb_prop in Hfull as [_ Hle].
    apply Nat.leb_le in Hle. simpl in Hlen, Hle, Hmore. rewrite app_nil_r in Hlen. lia. }
  change (full_but_last ?n (?x :: b2 :: rest))
    with ((length x =? n)%nat && full_but_last n (b2 :: rest)) in Hfull.
  apply andb_prop in Hfull as [_ Hfull].
  pose proof (full_but_last_head _ _ _ Hfull ltac:(lia)) as Hb2.
  destruct b2 as [|q b2]; [simpl in Hb2; lia|].
  apply Forall_cons in Hcreated as [_ Hcreated].
  apply Forall_cons in Hcreated as [Hq _].
  apply Forall_cons in Hq as [Hq _].
  cbn [sequential settled_before_start forallb].
  replace (settles_at p <=? created_at q)%nat with false; [reflexivity|].
  symmetry. apply Nat.leb_gt. rewrite Hq, Hp. simpl. lia.
Qed.

(** C1 on five factories and [maxConcurrent = 2], every operation taking
    one turn: the loop makes the three batches of sizes 2, 2 and 1, but it
    calls all five factories in the turn of the call, before any of the
    promises has settled, so the batches do not run one after the other. *)
Theorem monitorConcurrentRequests_five_by_two :
  let requests := replicate 5 {| latency := 1; result := JNull |} in
  exists r,
    monitorConcurrentRequests 6 0 requests (Some 2) = Some r /\
    map (map origin) (batches r) = [[0; 1]; [2; 3]; [4]]%nat /\
    map (map created_at) (batches r) = [[0; 0]; [0; 0]; [0]]%nat /\
    map (map settles_at) (batches r) = [[1; 1]; [1; 1]; [1]]%nat /\
    sequential (batches r) = false.
Proof.
  intros requests. eexists. split; [vm_compute; reflexivity|].
  repeat split.
Qed.

End monitorConcurrentRequests_claim.

(** ** apiLogin and apiRequest *)

Section api_commands_properties.
Import ApiCommands.

Context (network : list event -> request -> completion Response).
Context (apiBaseUrl : jsval).

(** A login that is answered with a status other than 200 and 201 returns
    normally, with a [null] token and the response. *)
Lemma apiLogin_failed (username password : option string) (h : list event)
    (resp : Response) :
  let login := login_request apiBaseUrl (default "Admin" username)
                 (default "admin123" password) in
  let asked := h ++ [CyLog ("[API] Authenticating with username: "
                              +:+ default "Admin" username)] in
  network asked login = Return resp ->
  status resp <> 200 -> status resp <> 201 ->
  apiLogin network apiBaseUrl username password h
  = (Return {| token := JNull; response := resp |},
     asked ++ [CyRequest login;
               CyTaskLog ("[API] Login response: " +:+ pretty (status resp));
               CyTaskLog "[API] Authentication failed"]).
Proof.
  intros login asked Hnet H200 H201.
  unfold apiLogin, mbind, M_bind, emit, cy_request. fold login asked.
  rewrite Hnet.
  replace (status resp =? 200) with false by (symmetry; by apply Z.eqb_neq).
  replace (status resp =? 201) with false by (symmetry; by apply Z.eqb_neq).
  simpl. by rewrite <- !app_assoc.
Qed.

(** C9, as the code has it: a failed login makes [apiLogin] return
    [{token: null, response}] without raising, and [apiRequest] with
    authentication then sends the request it was asked for with the
    caller's headers and the content type only: it adds no [Authorization]
    header, so the request has one exactly when the caller's own headers
    have. *)
Theorem apiRequest_after_failed_login (o : options) (h : list event) (resp : Response) :
  let login := login_request apiBaseUrl "Admin" "admin123" in
  let started := h ++ [CyTaskLog ("[API] Making " +:+ default "GET" (opt_method o)
                                    +:+ " request to: " +:+ opt_url o)] in
  let asked := started ++ [CyLog "[API] Authenticating with username: Admin"] in
  let answered := asked ++ [CyRequest login;
                            CyTaskLog ("[API] Login response: " +:+ pretty (status resp));
                            CyTaskLog "[API] Authentication failed"] in
  default true (opt_auth o) = true ->
  network asked login = Return resp ->
  status resp <> 200 -> status resp <> 201 ->
  apiLogin network apiBaseUrl None None started
  = (Return {| token := JNull; response := resp |}, answered) /\
  apiRequest network apiBaseUrl o h
  = (network answered (requestOptions o), answered ++ [CyRequest (requestOptions o)]) /\
  headers (requestOptions o)
  = default ∅ (opt_headers o) ∪ {[ "Content-Type" := JStr "application/json" ]} /\
  headers (requestOptions o) !! "Authorization"
  = default ∅ (opt_headers o) !! "Authorization".
Proof.
  intros login started asked answered Hauth Hnet H200 H201.
  pose proof (apiLogin_failed None None started resp Hnet H200 H201) as Hlogin.
  split; [exact Hlogin|]. split; [|split; [reflexivity|]].
  - unfold apiRequest. rewrite Hauth. unfold mbind at 1, M_bind at 1, emit at 1.
    fold started. unfold mbind, M_bind. rewrite Hlogin. reflexivity.
  - simpl. rewrite lookup_union_l; [reflexivity|]. by rewrite lookup_singleton_ne.
Qed.

End api_commands_properties.

Section api_commands_examples.
Import ApiCommands.

(** The login is refused and the caller gave no headers: the request goes
    out with the content type alone. *)
Lemma apiRequest_after_failed_login_witness :
  let o := {| opt_method := None; opt_url := "/employee"; opt_body := None;
              opt_headers := None; opt_auth := None;
              opt_failOnStatusCode := None; opt_timeout := None |} in
  let run := apiRequest unauthorized JUndefined o [] in
  last run.2 = Some (CyRequest (requestOptions o)) /\
  headers (requestOptions o) !! "Authorization" = None.
Proof.
  intros o run.
  destruct (apiRequest_after_failed_login unauthorized JUndefined o []
              {| status := 401; response_body := JNull; response_headers := JUndefined |}
              eq_refl eq_refl ltac:(simpl; lia) ltac:(simpl; lia))
    as (_ & Hrun & _ & Hauth).
  split.
  - unfold run. rewrite Hrun. reflexivity.
  - rewrite Hauth. reflexivity.
Defined.

(** C9 as the specification words it fails when the caller passes an
    [Authorization] header of its own: the login is refused, and the
    request that follows carries that header. *)
Lemma apiRequest_sends_callers_authorization :
  let o := {| opt_method := None; opt_url := "/employee"; opt_body := None;
              opt_headers := Some {[ "Authorization" := JStr "Basic YWRtaW4=" ]};
              opt_auth := Some true;
              opt_failOnStatusCode := None; opt_timeout := None |} in
  let run := apiRequest unauthorized JUndefined o [] in
  (apiLogin unauthorized JUndefined None None []).1
  = Return {| token := JNull;
              response := {| status := 401; response_body := JNull;
                             response_headers := JUndefined |} |} /\
  exists sent,
    last run.2 = Some (CyRequest sent) /\
    ~ headers sent !! "Authorization" = None /\
    headers sent !! "Authorization" = Some (JStr "Basic YWRtaW4=").
Proof.
  intros o run. split; [reflexivity|].
  exists (requestOptions o). split; [reflexivity|]. split; [discriminate|reflexivity].
Qed.

End api_commands_examples.

(** * Further properties of the utility layer *)

(** ** ErrorHandler: what a run of the retry loop leaves behind *)

(** The equation of one pass through the closure, proved above. *)
Abbreviation attempt_pass := attempt_unfold.

Section retryOperation_effects.
Import ErrorHandler.

Context (clk : clock) (operation : Z -> settled) (name : string).
Context (maxRetries delay : Z).

Abbreviation attempt' := (attempt clk operation name maxRetries delay).

Lemma timers_app out1 out2 : timers (out1 ++ out2) = timers out1 ++ timers out2.
Proof.
  induction out1 as [|e out1 IH]; [reflexivity|].
  destruct e; simpl; rewrite IH; reflexivity.
Qed.

Lemma timers_threshold_events th n : timers (threshold_events th n) = [].
Proof.
  unfold threshold_events.
  destruct (reaches n (number th "critical")); [reflexivity|].
  destruct (reaches n (number th "warning")); reflexivity.
Qed.

(** The timers, the state and the outcome of a run from the point where
    [made] attempts have been made. *)
Lemma attempt_effects (n : nat) :
  forall made s,
    (Z.to_nat (maxRetries - made) <= n)%nat ->
    let run := attempt' made s in
    (1 <= calls run.2)%nat /\
    timers run.2 = replicate (calls run.2 - 1) delay /\
    ((exists v,
        run.1.1 = Return (Resolved v) /\
        operation (made + Z.of_nat (calls run.2)) = Resolved v /\
        run.1.2 = s /\ alarms run.2 = O) \/
     (exists message,
        run.1.1 = Return (Rejected ("Operation failed after " +:+ pretty maxRetries
                                      +:+ " attempts: " +:+ message)) /\
        operation (made + Z.of_nat (calls run.2)) = Rejected message /\
        run.1.2 = push_error
                    (retryError clk name maxRetries (made + Z.of_nat (calls run.2))
                       message) s)).
Proof.
  induction n as [n IH] using lt_wf_ind. intros made s Hn run. subst run.
  rewrite attempt_pass. cbv zeta.
  destruct (operation (made + 1)) as [result|message] eqn:Hop.
  - simpl. split; [lia|]. split; [reflexivity|]. left. exists result. done.
  - destruct (decide (maxRetries <= made + 1)) as [Hle|Hgt].
    + simpl. rewrite calls_app, calls_threshold_events, timers_app,
        timers_threshold_events. simpl.
      split; [lia|]. split; [reflexivity|]. right. exists message. done.
    + destruct (IH (Z.to_nat (maxRetries - (made + 1))) ltac:(lia) (made + 1) s
                  ltac:(lia)) as (Hone & Htimers & Hend).
      destruct (attempt' (made + 1) s) as [[r s'] out]. simpl in *.
      split; [lia|]. split.
      { rewrite Htimers. destruct (calls out) as [|c]; [lia|].
        simpl. by rewrite Nat.sub_0_r. }
      replace (made + Z.of_nat (S (calls out)))
        with (made + 1 + Z.of_nat (calls out)) by lia.
      destruct Hend as [(v & Hr & Hv & Hs & Ha)|(message' & Hr & Hm & Hs)].
      * left. exists v. done.
      * right. exists message'. done.
Qed.

(** A run that meets its first success at attempt [k]. *)
Lemma attempt_first_success (n : nat) :
  forall made s k v,
    k = made + Z.of_nat (S n) ->
    operation k = Resolved v ->
    (forall j, made < j < k -> exists message, operation j = Rejected message) ->
    k <= maxRetries \/ n = O ->
    (attempt' made s).1 = (Return (Resolved v), s) /\
    calls (attempt' made s).2 = S n.
Proof.
  induction n as [|n IH]; intros made s k v Hk Hv Hbefore Hroom;
    rewrite attempt_pass; cbv zeta.
  - replace (made + 1) with k by lia. rewrite Hv. done.
  - destruct (Hbefore (made + 1)) as [message Hm]; [lia|]. rewrite Hm.
    destruct (decide (maxRetries <= made + 1)) as [Hle|Hgt]; [lia|].
    destruct (IH (made + 1) s k v ltac:(lia) Hv) as [Hrun Hcalls].
    { intros j Hj. apply Hbefore. lia. }
    { left. lia. }
    destruct (attempt' (made + 1) s) as [[r s'] out]. simpl in *.
    injection Hrun as -> ->. by rewrite Hcalls.
Qed.

End retryOperation_effects.

Section retryOperation_extras.
Import ErrorHandler.

(** X1: a retry run that ends in success leaves the handler as it was and
    raises no alarm; a run that ends in failure appends exactly one
    [RetryExhausted] record, whose [attempts] is the number of calls made;
    in both cases one timer of the configured delay was armed between two
    consecutive attempts and none after the last. *)
Theorem retryOperation_leaves
    (clk : clock) (operation : Z -> settled) (name : string)
    (maxRetries delay : option Z) (s : state) :
  let N := default (retryAttempts s) maxRetries in
  let d := default (retryDelay s) delay in
  let run := retryOperation clk operation name maxRetries delay s in
  timers run.2 = replicate (calls run.2 - 1) d /\
  ((exists v,
      run.1.1 = Return (Resolved v) /\ run.1.2 = s /\ alarms run.2 = O) \/
   (exists message record,
      run.1.1 = Return (Rejected ("Operation failed after " +:+ pretty N
                                    +:+ " attempts: " +:+ message)) /\
      operation (Z.of_nat (calls run.2)) = Rejected message /\
      run.1.2 = push_error record s /\
      get record "type" = JStr "RetryExhausted" /\
      get record "attempts" = JNum (Z.of_nat (calls run.2)) /\
      get record "originalError" = JStr message)).
Proof.
  intros N d run. subst run. unfold retryOperation, mbind, M_bind, this.
  fold N d.
  pose proof (attempt_effects clk operation name N d (Z.to_nat (N - 0)) 0 s
                ltac:(lia)) as Hrun.
  cbv zeta in Hrun.
  destruct (attempt clk operation name N d 0 s) as [[r s'] out].
  simpl in *. destruct Hrun as (_ & Htimers & Hend).
  split; [exact Htimers|].
  destruct Hend as [(v & Hr & _ & Hs & Ha)|(message & Hr & Hm & Hs)].
  - left. by exists v.
  - right. exists message. eexists. split; [exact Hr|]. split; [exact Hm|].
    split; [exact Hs|]. done.
Qed.

(** X2: when the operation first succeeds at attempt [k] and [k] is within
    the allowed attempts, the promise resolves with that result after exactly
    [k] calls and [k - 1] timers, and the handler is left as it was. *)
Theorem retryOperation_stops_at_first_success
    (clk : clock) (operation : Z -> settled) (name : string)
    (maxRetries delay : option Z) (s : state) (k : nat) (v : jsval) :
  let N := default (retryAttempts s) maxRetries in
  let d := default (retryDelay s) delay in
  let run := retryOperation clk operation name maxRetries delay s in
  (1 <= k)%nat ->
  operation (Z.of_nat k) = Resolved v ->
  (forall j, 0 < j < Z.of_nat k -> exists message, operation j = Rejected message) ->
  Z.of_nat k <= N \/ k = 1%nat ->
  run.1 = (Return (Resolved v), s) /\
  calls run.2 = k /\
  timers run.2 = replicate (k - 1) d.
Proof.
  intros N d run Hk Hv Hbefore Hroom. subst run.
  unfold retryOperation, mbind, M_bind, this. fold N d.
  destruct k as [|n]; [lia|].
  destruct (attempt_first_success clk operation name N d n 0 s (Z.of_nat (S n)) v
              ltac:(lia) Hv Hbefore ltac:(lia)) as [Hrun Hcalls].
  pose proof (attempt_effects clk operation name N d (Z.to_nat (N - 0)) 0 s
                ltac:(lia)) as (_ & Htimers & _).
  destruct (attempt clk operation name N d 0 s) as [[r s'] out].
  simpl in *. injection Hrun as -> ->. rewrite Hcalls in Htimers. done.
Qed.

(** An operation that fails twice and then succeeds, three attempts
    allowed. *)
Lemma retryOperation_stops_at_first_success_witness :
  let clk := {| toISOString := "2024-01-01T00:00:00.000Z"; now := 1704067200000 |} in
  let operation := λ k : Z, if k <? 3 then Rejected "not yet" else Resolved (JStr "done") in
  let run := retryOperation clk operation "flaky" None None constructor in
  run.1 = (Return (Resolved (JStr "done")), constructor) /\
  calls run.2 = 3%nat /\
  timers run.2 = [1000; 1000].
Proof.
  intros clk operation run.
  apply (retryOperation_stops_at_first_success clk operation "flaky" None None
           constructor 3 (JStr "done")).
  - lia.
  - reflexivity.
  - intros j Hj. exists "not yet". unfold operation.
    destruct (Z.ltb_spec j 3); [reflexivity | lia].
  - left. simpl. lia.
Defined.

(** X3: after [setRetryConfiguration(attempts, delay)] a retry with its
    optional arguments left out makes at most [max 1 attempts] calls, spaced
    by [delay]; arguments that are given take precedence over the
    configuration; the log and the thresholds are not touched by the
    setter. *)
Theorem setRetryConfiguration_governs_retries
    (clk : clock) (operation : Z -> settled) (name : string)
    (attempts delay : Z) (s : state) :
  let s' := (setRetryConfiguration attempts delay s).1.2 in
  errorLog s' = errorLog s /\
  errorThresholds s' = errorThresholds s /\
  (let run := retryOperation clk operation name None None s' in
   Z.of_nat (calls run.2) <= Z.max 1 attempts /\
   timers run.2 = replicate (calls run.2 - 1) delay) /\
  (forall n d,
     let run := retryOperation clk operation name (Some n) (Some d) s' in
     Z.of_nat (calls run.2) <= Z.max 1 n /\
     timers run.2 = replicate (calls run.2 - 1) d).
Proof.
  intros s'. split; [reflexivity|]. split; [reflexivity|].
  assert (Hany : forall N d,
            let run := attempt clk operation name N d 0 s' in
            Z.of_nat (calls run.2) <= Z.max 1 N /\
            timers run.2 = replicate (calls run.2 - 1) d).
  { intros N d run. subst run.
    pose proof (attempt_runs clk operation name N d (Z.to_nat (N - 0)) 0 s'
                  ltac:(lia)) as (_ & _ & Hmost & _).
    pose proof (attempt_effects clk operation name N d (Z.to_nat (N - 0)) 0 s'
                  ltac:(lia)) as (_ & Htimers & _).
    rewrite Z.sub_0_r in Hmost. done. }
  split.
  - unfold retryOperation, mbind, M_bind, this. cbv zeta. simpl default.
    specialize (Hany attempts delay). cbv zeta in Hany.
    change (retryAttempts s') with attempts. change (retryDelay s') with delay.
    destruct (attempt clk operation name attempts delay 0 s') as [[r s''] out].
    exact Hany.
  - intros n d. unfold retryOperation, mbind, M_bind, this. cbv zeta. simpl default.
    specialize (Hany n d). cbv zeta in Hany.
    destruct (attempt clk operation name n d 0 s') as [[r s''] out].
    exact Hany.
Qed.

End retryOperation_extras.

(** ** ErrorHandler: the log, its thresholds and the report *)

Section errorLog_extras.
Import ErrorHandler.

Implicit Types (s : state) (e : error).

(** X4: [logError] sends Cypress at most one threshold notice: the critical
    one exactly when the count has reached [critical], the warning one
    exactly when it has reached [warning] but not [critical]; the [info]
    threshold is never consulted, so setting it changes nothing. *)
Theorem logError_threshold_notices s e (critical warning : Z) :
  let count := Z.of_nat (length (errorLog s)) + 1 in
  let out := (logError e s).2 in
  number (errorThresholds s) "critical" = Some critical ->
  number (errorThresholds s) "warning" = Some warning ->
  (length out <= 1)%nat /\
  (critical <= count <->
   out = [CyLogError "Critical error threshold reached" (obj1 "errorCount" count)]) /\
  (warning <= count < critical <->
   out = [CyLogError "Warning error threshold reached" (obj1 "errorCount" count)]) /\
  (count < critical /\ count < warning <-> out = []) /\
  (forall info,
     (logError e (setErrorThresholds {[ "info" := info ]} s).1.2).2 = out).
Proof.
  intros count out Hc Hw. subst out.
  assert (Hcount : Z.of_nat (length (errorLog s ++ [e])) = count).
  { rewrite length_app. simpl. lia. }
  rewrite logError_run. cbn [snd]. rewrite Hcount.
  unfold threshold_events, reaches. rewrite Hc, Hw.
  split; [|split; [|split; [|split]]].
  - destruct (critical <=? count), (warning <=? count); simpl; lia.
  - destruct (Z.leb_spec critical count) as [Hcr|Hcr],
      (Z.leb_spec warning count) as [Hwa|Hwa];
      split; intros Hyp; try done; lia.
  - destruct (Z.leb_spec critical count) as [Hcr|Hcr],
      (Z.leb_spec warning count) as [Hwa|Hwa];
      split; intros Hyp; try done; lia.
  - destruct (Z.leb_spec critical count) as [Hcr|Hcr],
      (Z.leb_spec warning count) as [Hwa|Hwa];
      split; intros Hyp; try done; lia.
  - intros info. rewrite logError_run. cbn [snd fst setErrorThresholds].
    simpl. rewrite length_app. simpl.
    replace (Z.of_nat (length (errorLog s) + 1)) with count by lia.
    unfold threshold_events.
    assert (Hkeeps : forall key, key <> "info" ->
              number ({[ "info" := info ]} ∪ errorThresholds s) key
              = number (errorThresholds s) key).
    { intros key Hkey. unfold number.
      rewrite lookup_union, lookup_singleton_ne by done.
      by destruct (errorThresholds s !! key). }
    rewrite !Hkeeps by done. rewrite Hc, Hw. reflexivity.
Qed.

(** With the critical threshold moved up to 20, the tenth error is the
    first to draw the warning. *)
Lemma logError_threshold_notices_witness :
  let e : error := {[ "type" := JStr "TimeoutError" ]} in
  let s := {| errorLog := replicate 9 e; retryAttempts := 3; retryDelay := 1000;
              errorThresholds :=
                {[ "critical" := Some 20; "warning" := Some 10;
                   "info" := Some 20 ]} |} in
  (logError e s).2
  = [CyLogError "Warning error threshold reached" (obj1 "errorCount" 10)].
Proof.
  intros e s.
  destruct (logError_threshold_notices s e 20 10 eq_refl eq_refl)
    as (_ & _ & Hwarning & _).
  apply Hwarning. simpl. lia.
Defined.

Lemma statistics_of_empty_log s :
  errorLog s = [] ->
  getErrorStatistics s
  = {| totalErrors := 0; errorTypes := ∅; errorContexts := ∅; recentErrors := [] |}.
Proof. intros Hlog. unfold getErrorStatistics. rewrite Hlog. reflexivity. Qed.

(** X5: [clearErrorLog] empties the log and nothing else: the statistics
    taken afterwards are all zero and empty, the retry configuration and the
    thresholds are kept, and the next record logged counts as the first. *)
Theorem clearErrorLog_resets_statistics s e :
  let s' := (clearErrorLog s).1.2 in
  getErrorStatistics s'
  = {| totalErrors := 0; errorTypes := ∅; errorContexts := ∅; recentErrors := [] |} /\
  retryAttempts s' = retryAttempts s /\
  retryDelay s' = retryDelay s /\
  errorThresholds s' = errorThresholds s /\
  errorLog (logError e s').1.2 = [e] /\
  (logError e s').2 = threshold_events (errorThresholds s) 1.
Proof.
  intros s'. split; [by apply statistics_of_empty_log|].
  rewrite logError_run. done.
Qed.

(** Every call but [clearErrorLog] leaves the records logged so far in
    place and adds at most one. *)
Lemma run_call_appends (c : call) s :
  is_clear c = false ->
  errorLog (run_call c s) = errorLog s \/
  exists record, errorLog (run_call c s) = errorLog s ++ [record].
Proof.
  destruct c; intros Hc; try discriminate; cbn [run_call].
  - rewrite logError_run. right. by eexists.
  - unfold handleApiError. destruct (400 <=? status response).
    + unfold mbind, M_bind. rewrite logError_run. right. by eexists.
    + by left.
  - unfold handleElementNotFound. destruct (found =? 0)%nat.
    + unfold mbind, M_bind. rewrite logError_run. right. by eexists.
    + by left.
  - unfold handleAssertionError, mbind, M_bind. rewrite logError_run.
    right. by eexists.
  - unfold handleNetworkError. destruct request.
    + by left.
    + unfold mbind, M_bind. rewrite logError_run. right. by eexists.
  - unfold retryOperation, mbind, M_bind, this.
    pose proof (attempt_effects clk operation name
                  (default (retryAttempts s) maxRetries)
                  (default (retryDelay s) delay)
                  (Z.to_nat (default (retryAttempts s) maxRetries - 0)) 0 s
                  ltac:(lia)) as (_ & _ & Hend).
    cbv zeta in Hend.
    destruct (attempt clk operation name _ _ 0 s) as [[r s'] out]. simpl in *.
    destruct Hend as [(v & _ & _ & -> & _)|(message & _ & _ & ->)];
      [by left | right; by eexists].
  - by left.
  - by left.
  - by left.
Qed.

(** X6: the error log is append-only: over any sequence of handler calls
    without [clearErrorLog], the records present at the start are still
    there, in place, at the end, and the log has grown by at most one
    record per call. *)
Theorem errorLog_append_only (cs : list call) s :
  forallb (λ c, negb (is_clear c)) cs = true ->
  errorLog s `prefix_of` errorLog (run_calls cs s) /\
  (length (errorLog (run_calls cs s)) <= length (errorLog s) + length cs)%nat.
Proof.
  revert s. induction cs as [|c cs IH]; intros s Hcs.
  - split; [reflexivity | simpl; lia].
  - simpl in Hcs. apply andb_prop in Hcs as [Hc Hcs].
    apply negb_true_iff in Hc.
    destruct (IH (run_call c s) Hcs) as [Hpre Hlen].
    change (run_calls (c :: cs) s) with (run_calls cs (run_call c s)).
    destruct (run_call_appends c s Hc) as [Hsame|[record Hmore]].
    + rewrite Hsame in Hpre, Hlen. split; [exact Hpre | simpl; lia].
    + rewrite Hmore in Hpre, Hlen. split.
      * etrans; [|exact Hpre]. by apply prefix_app_r.
      * rewrite length_app in Hlen. simpl in *. lia.
Qed.

(** A 500, a present element and a failing assertion, on a handler that
    already holds one record. *)
Lemma errorLog_append_only_witness :
  let clk := {| toISOString := "2024-01-01T00:00:00.000Z"; now := 1704067200000 |} in
  let first : error := {[ "type" := JStr "TimeoutError" ]} in
  let s := (logError first constructor).1.2 in
  let cs := [CallHandleApiError clk {| status := 500; statusText := JStr "Server Error";
                                       config := JUndefined; data := JNull |} "api";
             CallHandleElementNotFound clk 1 "#login" "ui";
             CallHandleAssertionError clk "title" (JStr "a") (JStr "b") "ui"] in
  errorLog s `prefix_of` errorLog (run_calls cs s) /\
  (length (errorLog (run_calls cs s)) <= 1 + 3)%nat /\
  length (errorLog (run_calls cs s)) = 3%nat.
Proof.
  intros clk first s cs.
  destruct (errorLog_append_only cs s eq_refl) as [Hpre Hlen].
  split; [exact Hpre|]. split; [exact Hlen | reflexivity].
Defined.

End errorLog_extras.

Section generateErrorReport_extras.
Import ErrorHandler.

Lemma errorTypes_count (s : state) key :
  Object_prototype key = None ->
  counts_key type_key (errorLog s) (errorTypes (getErrorStatistics s)) key.
Proof.
  intros Hproto. apply filed_counts; [done|]. apply statistics_filed.
Qed.

Lemma more_than_count f log (counts : gmap string counter) key n :
  counts_key f log counts key -> 0 <= n ->
  more_than (counted (counts !! key)) (Some n) = true
  <-> n < Z.of_nat (occurrences f key log).
Proof.
  intros Hc Hn. rewrite Hc. unfold more_than, counted.
  destruct (occurrences f key log) as [|m].
  - split; [discriminate | lia].
  - rewrite Z.ltb_lt. reflexivity.
Qed.

(** The four conditional pushes, by what was pushed. *)
Lemma pushed_recommendations (b1 b2 b3 b4 : bool) (r1 r2 r3 r4 : string) :
  NoDup [r1; r2; r3; r4] ->
  let r := [] in
  let r := if b1 then r ++ [r1] else r in
  let r := if b2 then r ++ [r2] else r in
  let r := if b3 then r ++ [r3] else r in
  let r := if b4 then r ++ [r4] else r in
  (r1 ∈ r <-> b1 = true) /\ (r2 ∈ r <-> b2 = true) /\
  (r3 ∈ r <-> b3 = true) /\ (r4 ∈ r <-> b4 = true).
Proof.
  intros Hnd.
  apply NoDup_cons in Hnd as [Hr1 Hnd]. apply NoDup_cons in Hnd as [Hr2 Hnd].
  apply NoDup_cons in Hnd as [Hr3 _].
  rewrite !elem_of_cons, elem_of_nil in Hr1.
  rewrite !elem_of_cons, elem_of_nil in Hr2.
  rewrite !elem_of_cons, elem_of_nil in Hr3.
  destruct b1, b2, b3, b4; simpl;
    rewrite ?elem_of_cons, ?elem_of_nil; intuition (congruence || discriminate).
Qed.

(** X7: the report recommends looking at timeouts exactly when the log
    holds more than 3 [TimeoutError] records, at selectors exactly when it
    holds more than 5 [ElementNotFound] records, at the network exactly when
    it holds more than 2 [NetworkError] records, and speaks of a high error
    rate exactly when the log is longer than the critical threshold (one
    record more than [logError] needs for its critical notice). *)
Theorem generateErrorReport_recommendations (clk : clock) (s : state) :
  let report := (generateErrorReport clk s).1 in
  let log := errorLog s in
  summary report = getErrorStatistics s /\
  ("High error rate detected - consider investigating test stability"
     ∈ recommendations report
   <-> exists critical, number (errorThresholds s) "critical" = Some critical /\
                        critical < Z.of_nat (length log)) /\
  ("Multiple element not found errors - check selectors and page structure"
     ∈ recommendations report
   <-> (5 < occurrences type_key "ElementNotFound" log)%nat) /\
  ("Multiple timeout errors - consider increasing timeouts or optimizing performance"
     ∈ recommendations report
   <-> (3 < occurrences type_key "TimeoutError" log)%nat) /\
  ("Network errors detected - check network stability and API endpoints"
     ∈ recommendations report
   <-> (2 < occurrences type_key "NetworkError" log)%nat).
Proof.
  intros report log. subst report. cbn [generateErrorReport fst summary recommendations].
  split; [reflexivity|].
  pose proof (errorTypes_count s) as Hcounts.
  unfold generateErrorRecommendations.
  match goal with
  | |- context [if ?b1 then [] ++ [?r1] else []] =>
      match goal with
      | |- context [if ?b2 then _ ++ [?r2] else _] =>
          lazymatch b2 with
          | more_than (counted (_ !! "ElementNotFound")) _ =>
              match goal with
              | |- context [if ?b3 then _ ++ [?r3] else _] =>
                  lazymatch b3 with
                  | more_than (counted (_ !! "TimeoutError")) _ =>
                      match goal with
                      | |- context [if ?b4 then _ ++ [?r4] else _] =>
                          lazymatch b4 with
                          | more_than (counted (_ !! "NetworkError")) _ =>
                              pose proof (pushed_recommendations b1 b2 b3 b4 r1 r2 r3 r4)
                                as Hpushed
                          end
                      end
                  end
              end
          end
      end
  end.
  destruct Hpushed as (H1 & H2 & H3 & H4).
  { apply (bool_decide_unpack _). vm_compute. reflexivity. }
  cbv zeta in H1, H2, H3, H4.
  rewrite H1, H2, H3, H4.
  rewrite (more_than_count type_key (errorLog s) _ "ElementNotFound" 5
             (Hcounts "ElementNotFound" eq_refl) ltac:(lia)).
  rewrite (more_than_count type_key (errorLog s) _ "TimeoutError" 3
             (Hcounts "TimeoutError" eq_refl) ltac:(lia)).
  rewrite (more_than_count type_key (errorLog s) _ "NetworkError" 2
             (Hcounts "NetworkError" eq_refl) ltac:(lia)).
  subst log. split; [|split; [|split]; lia].
  unfold more_than, getErrorStatistics.
  destruct (foldl _ (∅, ∅) (errorLog s)) as [ct cc]. cbn [totalErrors].
  destruct (number (errorThresholds s) "critical") as [critical|].
  - rewrite Z.ltb_lt. split; [intros H; by exists critical|].
    intros (c & Hc & Hlt). by injection Hc as ->.
  - split; [discriminate|]. by intros (c & Hc & _).
Qed.

End generateErrorReport_extras.

Section handlers_extras.
Import ErrorHandler.

Lemma alarms_app out1 out2 : alarms (out1 ++ out2) = (alarms out1 + alarms out2)%nat.
Proof.
  induction out1 as [|e out1 IH]; [reflexivity|].
  destruct e; simpl; rewrite IH; reflexivity.
Qed.

(** X8: [handleElementNotFound] throws exactly when the selector matches
    nothing; then it has logged one [ElementNotFound] record naming the
    selector, and the error it throws also names the context; when the
    element is there it returns without touching the log or Cypress. *)
Theorem handleElementNotFound_throws_iff_absent
    (clk : clock) (found : nat) (selector context : string) (s : state) :
  let run := handleElementNotFound clk found selector context s in
  (throws run.1.1 = true <-> found = O) /\
  ((0 < found)%nat -> run = (Return (), s, [])) /\
  (found = O ->
   exists record : error,
     run.1.1 = Throw ("Element not found: " +:+ selector +:+ " in context: " +:+ context) /\
     run.1.2 = push_error record s /\
     get record "type" = JStr "ElementNotFound" /\
     get record "selector" = JStr selector /\
     get record "message" = JStr ("Element not found: " +:+ selector) /\
     run.2 = threshold_events (errorThresholds s)
               (Z.of_nat (length (errorLog s ++ [record])))
             ++ [CyLogError "Element not found" (JObj record);
                 CyTakeScreenshot ("element_not_found_" +:+ pretty (now clk))]).
Proof.
  intros run. subst run. unfold handleElementNotFound.
  destruct (Nat.eqb_spec found 0) as [->|Hfound].
  - unfold mbind, M_bind. rewrite logError_run. simpl.
    split; [done|]. split; [lia|]. intros _. eexists.
    split; [reflexivity|]. split; [reflexivity|]. done.
  - simpl. split; [split; [discriminate | lia]|]. split; [done | lia].
Qed.

(** A selector that matches nothing, and one that matches twice. *)
Lemma handleElementNotFound_throws_iff_absent_witness :
  let clk := {| toISOString := "2024-01-01T00:00:00.000Z"; now := 1704067200000 |} in
  (handleElementNotFound clk 0 "#save" "employee form" constructor).1.1
  = Throw "Element not found: #save in context: employee form" /\
  handleElementNotFound clk 2 "#save" "employee form" constructor
  = (Return (), constructor, []).
Proof.
  intros clk.
  destruct (handleElementNotFound_throws_iff_absent clk 0 "#save" "employee form"
              constructor) as (_ & _ & Habsent).
  destruct (handleElementNotFound_throws_iff_absent clk 2 "#save" "employee form"
              constructor) as (_ & Hpresent & _).
  destruct (Habsent eq_refl) as (record & Hthrow & _).
  split; [exact Hthrow | apply Hpresent; lia].
Defined.

(** X9: [handleNetworkError] never changes how the request settles: a
    fulfilled request passes through with nothing logged, and a failed one
    is rejected again with the very error it failed with, after exactly one
    [NetworkError] record that copies the error's status, status text and
    request URL. *)
Theorem handleNetworkError_settles_as_request
    (clk : clock) (request : promised) (context : string) (s : state) :
  let run := handleNetworkError clk request context s in
  run.1.1 = Return request /\
  (forall value, request = Fulfilled value -> run.1.2 = s /\ run.2 = []) /\
  (forall err, request = Failed err ->
   exists record : error,
     run.1.2 = push_error record s /\
     get record "type" = JStr "NetworkError" /\
     get record "status" = get err "status" /\
     get record "statusText" = get err "statusText" /\
     get record "url" = optional_member (get err "config") "url" /\
     get record "context" = JStr context /\
     alarms run.2
     = (alarms (threshold_events (errorThresholds s)
                  (Z.of_nat (length (errorLog s ++ [record])))) + 2)%nat).
Proof.
  intros run. subst run. unfold handleNetworkError.
  destruct request as [value|err].
  - split; [reflexivity|]. split; [by intros ? _ | discriminate].
  - unfold mbind, M_bind. rewrite logError_run. simpl.
    split; [reflexivity|]. split; [discriminate|].
    intros ? [= <-]. eexists. split; [reflexivity|].
    repeat (split; [reflexivity|]).
    rewrite alarms_app. reflexivity.
Qed.

(** A request that failed with a 503. *)
Lemma handleNetworkError_settles_as_request_witness :
  let clk := {| toISOString := "2024-01-01T00:00:00.000Z"; now := 1704067200000 |} in
  let err : gmap string jsval :=
    {[ "status" := JNum 503; "statusText" := JStr "Service Unavailable" ]} in
  let run := handleNetworkError clk (Failed err) "employees" constructor in
  run.1.1 = Return (Failed err) /\
  length (errorLog run.1.2) = 1%nat.
Proof.
  intros clk err run.
  destruct (handleNetworkError_settles_as_request clk (Failed err) "employees"
              constructor) as (Hsame & _ & Hfailed).
  destruct (Hfailed err eq_refl) as (record & Hstate & _).
  split; [exact Hsame|]. unfold run. rewrite Hstate. reflexivity.
Defined.

End handlers_extras.

(** ** PerformanceMonitor: samples, violations and the report *)

Section metrics_extras.
Import PerformanceMonitor.

Context {num : Type}.
Context (of_Z : Z -> num).
Context (add sub mul div : num -> num -> num).
Context (gt : num -> num -> bool).
Context (point8 : num).
Context (toFixed2 : num -> string).

Abbreviation over' := (over of_Z gt).
Abbreviation violations_of := (findThresholdViolations of_Z gt).

(** A loop that pushes one item for each element passing a test. *)
Lemma foldl_push {A B} (test : nat -> A -> bool) (build : nat -> A -> B)
    (ps : list (nat * A)) :
  forall acc,
    foldl (λ acc '(i, x), if test i x then acc ++ [build i x] else acc) acc ps
    = acc ++ omap (λ '(i, x), if test i x then Some (build i x) else None) ps.
Proof.
  induction ps as [|[i x] ps IH]; intros acc; simpl.
  - by rewrite app_nil_r.
  - rewrite IH. destruct (test i x); [by rewrite <- app_assoc | reflexivity].
Qed.

Lemma elem_of_pushed {A B} (test : nat -> A -> bool) (build : nat -> A -> B)
    (l : list A) (b : B) :
  b ∈ omap (λ '(i, x), if test i x then Some (build i x) else None) (imap pair l)
  <-> exists i x, l !! i = Some x /\ test i x = true /\ b = build i x.
Proof.
  rewrite list_elem_of_omap. split.
  - intros ([i x] & Hin & Hb). apply elem_of_lookup_imap in Hin as (j & y & [= -> ->] & Hl).
    exists j, y. destruct (test j y); [|discriminate]. injection Hb as <-. done.
  - intros (i & x & Hl & Ht & ->). exists (i, x). rewrite Ht. split; [|reflexivity].
    by apply (elem_of_lookup_imap_2 pair).
Qed.

Lemma length_pushed {A B} (f : nat * A -> option B) (ps : list (nat * A)) :
  (length (omap f ps) <= length ps)%nat.
Proof.
  induction ps as [|p ps IH]; csimpl; [lia|]. destruct (f p); csimpl; lia.
Qed.

(** The violations, as the two lists the two loops push. *)
Lemma findThresholdViolations_pushed (m : monitor) :
  violations_of m
  = omap (λ '(index, time),
            if over' time (number (thresholds (config m)) "pageLoadTime")
            then Some {| violation_type := "pageLoad";
                         violation_endpoint := None;
                         violation_index := index;
                         actual := time;
                         violation_threshold := number (thresholds (config m)) "pageLoadTime" |}
            else None)
         (imap pair (pageLoadTimes (samples m)))
    ++ omap (λ '(index, metric),
               if over' (responseTime metric) (number (thresholds (config m)) "apiResponseTime")
               then Some {| violation_type := "apiResponse";
                            violation_endpoint := Some (endpoint metric);
                            violation_index := index;
                            actual := responseTime metric;
                            violation_threshold :=
                              number (thresholds (config m)) "apiResponseTime" |}
               else None)
            (imap pair (apiCallTimes (samples m))).
Proof.
  unfold findThresholdViolations. cbv zeta.
  pose proof (foldl_push
    (λ (_ : nat) time, over' time (number (thresholds (config m)) "pageLoadTime"))
    (λ index time, {| violation_type := "pageLoad";
                      violation_endpoint := None;
                      violation_index := index;
                      actual := time;
                      violation_threshold := number (thresholds (config m)) "pageLoadTime" |})
    (imap pair (pageLoadTimes (samples m))) []) as H1.
  cbv beta in H1. rewrite H1. clear H1.
  pose proof (foldl_push
    (λ (_ : nat) metric,
       over' (responseTime metric) (number (thresholds (config m)) "apiResponseTime"))
    (λ index metric, {| violation_type := "apiResponse";
                        violation_endpoint := Some (endpoint metric);
                        violation_index := index;
                        actual := responseTime metric;
                        violation_threshold :=
                          number (thresholds (config m)) "apiResponseTime" |})
    (imap pair (apiCallTimes (samples m)))) as H2.
  cbv beta in H2. rewrite H2. reflexivity.
Qed.

(** X10: [findThresholdViolations] lists exactly the samples that exceed
    their threshold: a violation is reported for a page-load time or an API
    response time if and only if the sample at the reported index is over
    the threshold now configured for it, and there are never more
    violations than samples. *)
Theorem findThresholdViolations_exact (m : monitor) (v : violation) :
  (v ∈ violations_of m <->
   (exists time,
      pageLoadTimes (samples m) !! violation_index v = Some time /\
      over' time (number (thresholds (config m)) "pageLoadTime") = true /\
      v = {| violation_type := "pageLoad";
             violation_endpoint := None;
             violation_index := violation_index v;
             actual := time;
             violation_threshold := number (thresholds (config m)) "pageLoadTime" |}) \/
   (exists metric,
      apiCallTimes (samples m) !! violation_index v = Some metric /\
      over' (responseTime metric) (number (thresholds (config m)) "apiResponseTime") = true /\
      v = {| violation_type := "apiResponse";
             violation_endpoint := Some (endpoint metric);
             violation_index := violation_index v;
             actual := responseTime metric;
             violation_threshold := number (thresholds (config m)) "apiResponseTime" |})) /\
  (length (violations_of m)
   <= length (pageLoadTimes (samples m)) + length (apiCallTimes (samples m)))%nat.
Proof.
  rewrite findThresholdViolations_pushed. split.
  - rewrite elem_of_app.
    rewrite (elem_of_pushed
      (λ (_ : nat) time, over' time (number (thresholds (config m)) "pageLoadTime"))
      (λ index time, {| violation_type := "pageLoad";
                        violation_endpoint := None;
                        violation_index := index;
                        actual := time;
                        violation_threshold := number (thresholds (config m)) "pageLoadTime" |})).
    rewrite (elem_of_pushed
      (λ (_ : nat) metric,
         over' (responseTime metric) (number (thresholds (config m)) "apiResponseTime"))
      (λ index metric, {| violation_type := "apiResponse";
                          violation_endpoint := Some (endpoint metric);
                          violation_index := index;
                          actual := responseTime metric;
                          violation_threshold :=
                            number (thresholds (config m)) "apiResponseTime" |})).
    split.
    + intros [(i & time & Hl & Ht & ->)|(i & metric & Hl & Ht & ->)].
      * left. by exists time.
      * right. by exists metric.
    + intros [(time & Hl & Ht & Hv)|(metric & Hl & Ht & Hv)].
      * left. by exists (violation_index v), time.
      * right. by exists (violation_index v), metric.
  - rewrite length_app.
    pose proof (length_pushed
      (λ '(index, time),
         if over' time (number (thresholds (config m)) "pageLoadTime")
         then Some {| violation_type := "pageLoad";
                      violation_endpoint := None;
                      violation_index := index;
                      actual := time;
                      violation_threshold := number (thresholds (config m)) "pageLoadTime" |}
         else None)
      (imap pair (pageLoadTimes (samples m)))) as H1.
    pose proof (length_pushed
      (λ '(index, metric),
         if over' (responseTime metric) (number (thresholds (config m)) "apiResponseTime")
         then Some {| violation_type := "apiResponse";
                      violation_endpoint := Some (endpoint metric);
                      violation_index := index;
                      actual := responseTime metric;
                      violation_threshold :=
                        number (thresholds (config m)) "apiResponseTime" |}
         else None)
      (imap pair (apiCallTimes (samples m)))) as H2.
    rewrite !length_imap in *. lia.
Qed.

End metrics_extras.

Section monitor_extras.
Import PerformanceMonitor.

Context {num : Type}.
Context (of_Z : Z -> num).
Context (add sub mul div : num -> num -> num).
Context (gt : num -> num -> bool).
Context (point8 : num).
Context (toFixed2 : num -> string).

(** X11: [monitorApiCall] hands back the response it was given together
    with the elapsed time, records exactly one sample and leaves the
    thresholds and all other samples alone; it tells Cypress of an error
    exactly when the elapsed time is over the [apiResponseTime] threshold,
    and exactly then [findThresholdViolations] reports one more violation,
    at the index of the new sample. *)
Theorem monitorApiCall_records {R : Type} (startTime endTime : num) (timestamp : string)
    (response : R) (status endpoint' : jsval) (m : monitor) :
  let run := monitorApiCall of_Z sub gt toFixed2 startTime endTime timestamp
               response status endpoint' m in
  let elapsed := sub endTime startTime in
  let limit := number (thresholds (config m)) "apiResponseTime" in
  run.1.1 = (response, elapsed) /\
  config run.1.2 = config m /\
  apiCallTimes (samples run.1.2)
  = apiCallTimes (samples m)
      ++ [{| endpoint := endpoint'; responseTime := elapsed;
             sample_status := status; sample_timestamp := timestamp |}] /\
  pageLoadTimes (samples run.1.2) = pageLoadTimes (samples m) /\
  responseTimes (samples run.1.2) = responseTimes (samples m) /\
  memoryUsage (samples run.1.2) = memoryUsage (samples m) /\
  findThresholdViolations of_Z gt run.1.2
  = findThresholdViolations of_Z gt m
      ++ (if over of_Z gt elapsed limit
          then [{| violation_type := "apiResponse";
                   violation_endpoint := Some endpoint';
                   violation_index := length (apiCallTimes (samples m));
                   actual := elapsed;
                   violation_threshold := limit |}]
          else []) /\
  (over of_Z gt elapsed limit = true
   <-> exists data, MLogError "API response time exceeded threshold" data ∈ run.2).
Proof.
  intros run elapsed limit. subst run.
  repeat (split; [reflexivity|]). split.
  - rewrite !findThresholdViolations_pushed. cbn [monitorApiCall fst snd samples config
      apiCallTimes pageLoadTimes].
    rewrite imap_app, omap_app, app_assoc. f_equal.
    cbn [imap omap list_omap]. rewrite Nat.add_0_r. cbn [responseTime endpoint].
    fold elapsed limit. destruct (over of_Z gt elapsed limit); reflexivity.
  - unfold monitorApiCall. cbn [snd]. fold elapsed limit.
    destruct (over of_Z gt elapsed limit).
    + split; [intros _ | done]. eexists. apply elem_of_app. right.
      apply list_elem_of_singleton. reflexivity.
    + split; [discriminate|]. intros (data & Hin). exfalso.
      rewrite app_nil_r in Hin.
      apply elem_of_cons in Hin as [Hin|Hin]; [discriminate|].
      apply list_elem_of_singleton in Hin. discriminate.
Qed.

(** X12: [monitorMemoryUsage] degrades gracefully: without heap statistics
    it returns [null], records nothing and logs nothing; with them it
    records exactly one sample holding the three heap figures, and reports
    an error exactly when a [memoryUsage] threshold is configured and the
    used heap is strictly above it. *)
Theorem monitorMemoryUsage_degrades (timestamp : string) (memory : option heap)
    (m : @monitor num) :
  let run := monitorMemoryUsage timestamp memory m in
  (memory = None -> run = (None, m, [])) /\
  (forall h, memory = Some h ->
     let sample := {| used := usedJSHeapSize h; total := totalJSHeapSize h;
                      limit := jsHeapSizeLimit h; memory_timestamp := timestamp |} in
     run.1.1 = Some sample /\
     memoryUsage (samples run.1.2) = memoryUsage (samples m) ++ [sample] /\
     pageLoadTimes (samples run.1.2) = pageLoadTimes (samples m) /\
     apiCallTimes (samples run.1.2) = apiCallTimes (samples m) /\
     responseTimes (samples run.1.2) = responseTimes (samples m) /\
     config run.1.2 = config m /\
     ((exists threshold,
         number (thresholds (config m)) "memoryUsage" = Some threshold /\
         threshold < usedJSHeapSize h)
      <-> exists data, MLogError "Memory usage exceeded threshold" data ∈ run.2)).
Proof.
  intros run. subst run. split; [by intros ->|].
  intros h ->. cbv zeta. repeat (split; [reflexivity|]).
  unfold monitorMemoryUsage. cbn [snd].
  destruct (number (thresholds (config m)) "memoryUsage") as [threshold|].
  - destruct (Z.ltb_spec threshold (usedJSHeapSize h)) as [Hlt|Hge].
    + split; [intros _ | intros _; by exists threshold].
      eexists. apply elem_of_app. right. apply list_elem_of_singleton. reflexivity.
    + split.
      * intros (t & [= <-] & Hlt). lia.
      * intros (data & Hin). rewrite app_nil_r in Hin.
        apply list_elem_of_singleton in Hin. discriminate.
  - split.
    + by intros (t & Ht & _).
    + intros (data & Hin). rewrite app_nil_r in Hin.
      apply list_elem_of_singleton in Hin. discriminate.
Qed.

(** X13: after [resetMetrics] the report counts no page loads, API calls,
    interactions or memory checks, all its averages are the number zero and
    it lists no violation, whatever had been recorded; the thresholds in
    force before the reset are the ones the report shows. *)
Theorem resetMetrics_empties_report (timestamp : string) (m : monitor) :
  let m' := (resetMetrics m).1 in
  let report := (generatePerformanceReport of_Z add mul div gt point8 timestamp m').1 in
  config m' = config m /\
  summary report = {| totalPageLoads := 0; totalApiCalls := 0;
                      totalUserInteractions := 0; totalMemoryChecks := 0 |} /\
  averages report = {| pageLoadTime := of_Z 0; apiResponseTime := of_Z 0;
                       userInteractionTime := of_Z 0 |} /\
  violations report = [] /\
  report_thresholds report = thresholds (config m) /\
  (resetMetrics m').1 = m'.
Proof. repeat split. Qed.

End monitor_extras.

Section monitor_examples.
Import PerformanceMonitor.

(** A browser without heap statistics, and one whose heap has grown past
    the default limit of 100 MB. *)
Lemma monitorMemoryUsage_degrades_witness :
  let m := @new_monitor Z in
  let h := {| usedJSHeapSize := 150000000; totalJSHeapSize := 200000000;
              jsHeapSizeLimit := 4000000000 |} in
  monitorMemoryUsage "2024-01-01T00:00:00.000Z" None m = (None, m, []) /\
  length (memoryUsage (samples
            (monitorMemoryUsage "2024-01-01T00:00:00.000Z" (Some h) m).1.2)) = 1%nat /\
  exists data,
    MLogError "Memory usage exceeded threshold" data
      ∈ (monitorMemoryUsage "2024-01-01T00:00:00.000Z" (Some h) m).2.
Proof.
  intros m h.
  destruct (monitorMemoryUsage_degrades "2024-01-01T00:00:00.000Z" None m)
    as [Hnone _].
  destruct (monitorMemoryUsage_degrades "2024-01-01T00:00:00.000Z" (Some h) m)
    as [_ Hsome].
  destruct (Hsome h eq_refl) as (_ & Hsamples & _ & _ & _ & _ & Hwarn).
  split; [by apply Hnone|]. split; [by rewrite Hsamples|].
  apply Hwarn. exists (100 * 1024 * 1024). split; [reflexivity | simpl; lia].
Defined.

End monitor_examples.

(** ** PerformanceMonitor: more on monitorConcurrentRequests *)

Section monitorConcurrentRequests_extras.
Import PerformanceMonitor.

Lemma all_settled_at_app (ps qs : list promise) :
  all_settled_at (ps ++ qs) = Nat.max (all_settled_at ps) (all_settled_at qs).
Proof.
  unfold all_settled_at. induction ps as [|p ps IH]; simpl; [reflexivity|].
  rewrite IH. lia.
Qed.

Lemma all_settled_at_calls (turn : nat) (l : list (nat * factory)) :
  Nat.max turn (all_settled_at (map (call turn) l))
  = (turn + foldr Nat.max O (map (λ r, latency r.2) l))%nat.
Proof.
  unfold all_settled_at. induction l as [|r l IH]; simpl; [lia|].
  simpl in IH. lia.
Qed.

Lemma latencies_tagged (requests : list factory) :
  forall tag : nat -> factory -> nat * factory,
    (forall k f, (tag k f).2 = f) ->
    map (λ r, latency r.2) (imap tag requests) = map latency requests.
Proof.
  induction requests as [|f requests IH]; intros tag Htag; [reflexivity|].
  simpl. rewrite Htag. f_equal. apply IH. intros k f'. apply Htag.
Qed.

(** X14: [monitorConcurrentRequests] comes to an end exactly when
    [maxConcurrent] is at least 1 or there is no request at all; with a
    [maxConcurrent] of zero or less and a request to make, the loop never
    ends. *)
Theorem monitorConcurrentRequests_terminates_iff
    (turn : nat) (requests : list factory) (maxConcurrent : option Z) :
  (exists fuel r, monitorConcurrentRequests fuel turn requests maxConcurrent = Some r)
  <-> 1 <= default 5 maxConcurrent \/ requests = [].
Proof.
  split.
  - intros (fuel & r & Hrun).
    destruct (Z.le_gt_cases 1 (default 5 maxConcurrent)) as [|Hmc]; [by left|].
    right. destruct requests as [|f requests]; [reflexivity|]. exfalso.
    unfold monitorConcurrentRequests in Hrun.
    rewrite for_batches_diverges in Hrun; [discriminate | lia | discriminate | lia].
  - intros [Hmc| ->].
    + destruct (monitorConcurrentRequests_batches (S (length requests)) turn requests
                  maxConcurrent Hmc ltac:(lia)) as (r & Hrun & _).
      by exists (S (length requests)), r.
    + exists 1%nat. eexists. reflexivity.
Qed.

(** X15: with a [maxConcurrent] of at least 1 the requests are cut, in
    order, into batches of [maxConcurrent] operations but for a shorter last
    one, and the results come back in the order of the requests, whatever
    the order in which the operations settle. *)
Theorem monitorConcurrentRequests_results_in_order
    (fuel turn : nat) (requests : list factory) (maxConcurrent : option Z) :
  1 <= default 5 maxConcurrent ->
  (length requests < fuel)%nat ->
  exists r,
    monitorConcurrentRequests fuel turn requests maxConcurrent = Some r /\
    results r = map result requests /\
    map origin (concat (batches r)) = seq 0 (length requests) /\
    full_but_last (Z.to_nat (default 5 maxConcurrent)) (batches r) = true.
Proof.
  intros Hmc Hfuel.
  destruct (monitorConcurrentRequests_batches fuel turn requests maxConcurrent Hmc Hfuel)
    as (r & Hrun & Hcat & Hfull & _ & Hres).
  exists r. split; [exact Hrun|]. split; [exact Hres|]. split; [|exact Hfull].
  rewrite Hcat. clear.
  assert (Hgen : forall k,
            map origin (map (call turn) (imap (λ i f, ((k + i)%nat, f)) requests))
            = seq k (length requests)).
  { induction requests as [|f requests IH]; intros k; [reflexivity|].
    simpl. rewrite Nat.add_0_r. f_equal. rewrite <- (IH (S k)).
    f_equal. f_equal. apply imap_ext. intros i x _. simpl. f_equal. lia. }
  apply (Hgen 0%nat).
Qed.

(** Seven requests of different durations, three at a time. *)
Lemma monitorConcurrentRequests_results_in_order_witness :
  let requests := map (λ n : nat, {| latency := 7 - n; result := JNum (Z.of_nat n) |})
                    (seq 0 7) in
  exists r,
    monitorConcurrentRequests 8 0 requests (Some 3) = Some r /\
    results r = map (λ n : nat, JNum (Z.of_nat n)) (seq 0 7) /\
    map length (batches r) = [3; 3; 1]%nat.
Proof.
  intros requests.
  destruct (monitorConcurrentRequests_results_in_order 8 0 requests (Some 3))
    as (r & Hrun & Hres & _); [simpl; lia | simpl; lia |].
  exists r. split; [exact Hrun|]. split; [exact Hres|].
  vm_compute in Hrun. injection Hrun as <-. reflexivity.
Defined.

(** X16: every operation is started in the turn of the call, whatever
    its batch, and settles after its own duration: the last of all promises
    settles in the turn of the call plus the largest duration among the
    requests, not after the sum of what the batches take. *)
Theorem monitorConcurrentRequests_slowest_settles_last
    (fuel turn : nat) (requests : list factory) (maxConcurrent : option Z) :
  1 <= default 5 maxConcurrent ->
  (length requests < fuel)%nat ->
  exists r,
    monitorConcurrentRequests fuel turn requests maxConcurrent = Some r /\
    map created_at (concat (batches r)) = replicate (length requests) turn /\
    map settles_at (concat (batches r))
    = map (λ f, (turn + latency f)%nat) requests /\
    Nat.max turn (all_settled_at (concat (batches r)))
    = (turn + foldr Nat.max O (map latency requests))%nat.
Proof.
  intros Hmc Hfuel.
  destruct (monitorConcurrentRequests_batches fuel turn requests maxConcurrent Hmc Hfuel)
    as (r & Hrun & Hcat & _).
  exists r. split; [exact Hrun|]. rewrite Hcat.
  assert (Hgen : forall tag : nat -> factory -> nat * factory,
            (forall k f, (tag k f).2 = f) ->
            map created_at (map (call turn) (imap tag requests))
            = replicate (length requests) turn /\
            map settles_at (map (call turn) (imap tag requests))
            = map (λ f, (turn + latency f)%nat) requests).
  { clear. induction requests as [|f requests IH]; intros tag Htag; [done|].
    simpl. rewrite Htag.
    destruct (IH (tag ∘ S) (λ k f', Htag (S k) f')) as [-> ->]. done. }
  destruct (Hgen (λ k f, (k, f)) (λ _ _, eq_refl)) as [Hcreated Hsettles].
  split; [exact Hcreated|]. split; [exact Hsettles|].
  rewrite all_settled_at_calls. f_equal. f_equal. by apply latencies_tagged.
Qed.

(** Two batches of two operations: durations 3 and 1, then 2 and 5; the
    last promise settles in turn 5, not in turn 3 + 5. *)
Lemma monitorConcurrentRequests_slowest_settles_last_witness :
  let requests := [{| latency := 3; result := JNull |};
                   {| latency := 1; result := JNull |};
                   {| latency := 2; result := JNull |};
                   {| latency := 5; result := JNull |}] in
  exists r,
    monitorConcurrentRequests 5 0 requests (Some 2) = Some r /\
    map length (batches r) = [2; 2]%nat /\
    map settles_at (concat (batches r)) = [3; 1; 2; 5]%nat /\
    all_settled_at (concat (batches r)) = 5%nat.
Proof.
  intros requests.
  destruct (monitorConcurrentRequests_slowest_settles_last 5 0 requests (Some 2))
    as (r & Hrun & _ & Hsettles & Hlast); [simpl; lia | simpl; lia |].
  exists r. split; [exact Hrun|].
  split; [vm_compute in Hrun; by injection Hrun as <-|].
  split; [exact Hsettles | exact Hlast].
Defined.

End monitorConcurrentRequests_extras.

(** ** Threshold setters: how calls compose *)

Section thresholds_extras.

(** X17: two calls of [setThresholds] amount to one call with the second
    map laid over the first, a call with an empty map changes nothing, and
    repeating a call changes nothing; the same holds for
    [setErrorThresholds], which also leaves the log and the retry
    configuration alone. *)
Theorem setThresholds_compose (o1 o2 : gmap string (option Z))
    (p : PerformanceMonitor.state) (s : ErrorHandler.state) :
  (PerformanceMonitor.setThresholds o2 (PerformanceMonitor.setThresholds o1 p).1).1
  = (PerformanceMonitor.setThresholds (o2 ∪ o1) p).1 /\
  (PerformanceMonitor.setThresholds ∅ p).1 = p /\
  (PerformanceMonitor.setThresholds o1 (PerformanceMonitor.setThresholds o1 p).1).1
  = (PerformanceMonitor.setThresholds o1 p).1 /\
  (ErrorHandler.setErrorThresholds o2 (ErrorHandler.setErrorThresholds o1 s).1.2).1.2
  = (ErrorHandler.setErrorThresholds (o2 ∪ o1) s).1.2 /\
  (ErrorHandler.setErrorThresholds ∅ s).1.2 = s /\
  (ErrorHandler.setErrorThresholds o1 (ErrorHandler.setErrorThresholds o1 s).1.2).1.2
  = (ErrorHandler.setErrorThresholds o1 s).1.2 /\
  ErrorHandler.errorLog (ErrorHandler.setErrorThresholds o1 s).1.2
  = ErrorHandler.errorLog s.
Proof.
  destruct p as [th], s as [log attempts delay eth]. simpl.
  rewrite !(left_id_L ∅ (∪)).
  rewrite !(assoc_L (∪)), !(idemp_L (∪)).
  done.
Qed.

End thresholds_extras.

(** ** TestDataManager: validation, tables and generators *)

Section validateTestData_extras.
Import TestDataManager.

Implicit Types (data : gmap string jsval) (r : rule) (h : RegExps).

(** What a key contributes depends on the data through [data[key]] only. *)
Lemma key_checks_read data1 data2 h key r :
  read data1 key = read data2 key ->
  key_violations data1 h key r = key_violations data2 h key r /\
  after_key data1 h key r = after_key data2 h key r.
Proof.
  intros Hread.
  unfold key_violations, missing_violation, type_violation, pattern_violation,
    after_key, pattern_tested.
  by rewrite Hread.
Qed.

(** X18: [validateTestData] looks at the data only under the keys of the
    schema: two data objects in which [data[key]] is the same for every
    key of the schema are accepted or rejected alike, with the same error,
    and leave the regular expressions in the same state; properties the
    schema does not name are never examined. *)
Theorem validateTestData_ignores_other_keys data1 data2 (s : schema) h :
  (forall key r, (key, r) ∈ s -> read data1 key = read data2 key) ->
  validateTestData data1 s h = validateTestData data2 s h.
Proof.
  intros Hagree.
  assert (Hsame : violations data1 s h = violations data2 s h /\
                  after data1 s h = after data2 s h).
  { revert h. induction s as [|[key r] s IH]; intros h; [done|].
    simpl.
    destruct (key_checks_read data1 data2 h key r) as [-> ->].
    { apply (Hagree key r). apply list_elem_of_here. }
    destruct (IH (λ key' r' Hin, Hagree key' r' (list_elem_of_further _ _ _ Hin))
                (after_key data2 h key r)) as [-> ->].
    done. }
  rewrite !validateTestData_cases. by destruct Hsame as [-> ->].
Qed.

(** A record with a field the schema does not know. *)
Lemma validateTestData_ignores_other_keys_witness :
  let s := [("name", {| required := true; type := Some "string"; pattern := None |})] in
  let data1 : gmap string jsval := {[ "name" := JStr "x" ]} in
  let data2 : gmap string jsval := {[ "name" := JStr "x"; "age" := JStr "old" ]} in
  let h : RegExps := λ _, {| matcher := λ _ _, None; global := false;
                             sticky := false; lastIndex := 0 |} in
  validateTestData data1 s h = validateTestData data2 s h.
Proof.
  intros s data1 data2 h. apply validateTestData_ignores_other_keys.
  intros key r Hin. apply list_elem_of_singleton in Hin. injection Hin as -> _.
  reflexivity.
Defined.

(** What a key contributes depends on the regular expressions through the
    one the key names only. *)
Lemma key_checks_heap data h1 h2 key r :
  (forall a, h1 a = h2 a) ->
  key_violations data h1 key r = key_violations data h2 key r /\
  (forall a, after_key data h1 key r a = after_key data h2 key r a).
Proof.
  intros Hsame.
  unfold key_violations, pattern_violation, after_key.
  destruct (pattern_tested data key r) as [a|]; [|by split].
  rewrite (Hsame a). split; [done|]. intros a'. unfold put.
  by destruct (a' =? a)%nat.
Qed.

Lemma checks_heap data s :
  forall h1 h2,
    (forall a, h1 a = h2 a) ->
    violations data s h1 = violations data s h2 /\
    (forall a, after data s h1 a = after data s h2 a).
Proof.
  induction s as [|[key r] s IH]; intros h1 h2 Hsame; [by split|].
  simpl. destruct (key_checks_heap data h1 h2 key r Hsame) as [-> Hafter].
  by destruct (IH _ _ Hafter) as [-> ?].
Qed.

(** X29: when no expression of the schema carries the [g] or the [y]
    flag, validation leaves every regular expression as it was and judges
    each key on its own: the violations are those of each key taken with
    the expressions as they were at the call, whatever keys come before
    it. *)
Theorem validateTestData_without_flags data (s : schema) h :
  (forall key r a, (key, r) ∈ s -> pattern r = Some a ->
     global (h a) = false /\ sticky (h a) = false) ->
  (forall a, (validateTestData data s h).2 a = h a) /\
  violations data s h = concat (map (λ kr, key_violations data h kr.1 kr.2) s).
Proof.
  intros Hflags. rewrite validateTestData_cases. cbn [snd].
  induction s as [|[key r] s IH]; [by split|].
  assert (Hkey : forall a, after_key data h key r a = h a).
  { intros a. unfold after_key, pattern_tested.
    destruct (ToBoolean (read data key)); [|done].
    destruct (pattern r) as [a0|] eqn:Hpattern; [|done].
    destruct (Hflags key r a0 (list_elem_of_here _ _) Hpattern) as [Hg Hs].
    unfold put, test. rewrite Hg, Hs. simpl.
    by destruct (Nat.eqb_spec a a0) as [->|]. }
  destruct (IH (λ key' r' a Hin, Hflags key' r' a (list_elem_of_further _ _ _ Hin)))
    as [Hafter Hviolations].
  destruct (checks_heap data s _ _ Hkey) as [Hv Ha].
  simpl. split.
  - intros a. by rewrite Ha, Hafter.
  - by rewrite Hv, Hviolations.
Qed.

(** Two keys that share one expression without flags: each value is judged
    by the expression alone. *)
Lemma validateTestData_without_flags_witness :
  let h : RegExps :=
    λ _, {| matcher := λ S i, if (i =? 0)%nat && String.eqb S "x"
                              then Some 1%nat else None;
            global := false; sticky := false; lastIndex := 0 |} in
  let shared := {| required := false; type := None; pattern := Some 0%nat |} in
  let data : gmap string jsval := {[ "a" := JStr "x"; "b" := JStr "x" ]} in
  (validateTestData data [("a", shared); ("b", shared)] h).1 = Return (JBool true) /\
  lastIndex ((validateTestData data [("a", shared); ("b", shared)] h).2 0%nat) = 0%nat.
Proof.
  intros h shared data.
  destruct (validateTestData_without_flags data [("a", shared); ("b", shared)] h)
    as [Hheap _].
  { intros key r a Hin Hpattern. done. }
  split; [reflexivity|]. by rewrite Hheap.
Defined.

End validateTestData_extras.

Section tables_extras.
Import TestDataManager.

(** Membership in a list that is written out. *)
Ltac in_list :=
  repeat first [apply list_elem_of_here | apply list_elem_of_further].

(** The names of the table [users]. *)
Lemma users_known r c :
  users !! r = Some c ->
  r ∈ ["admin"; "user"; "manager"] /\ role c = r /\ "read" ∈ permissions c /\
  Object_prototype r = None.
Proof.
  intros Hr. unfold users in Hr.
  destruct (decide (r = "admin")) as [->|Ha];
    [|destruct (decide (r = "user")) as [->|Hu];
      [|destruct (decide (r = "manager")) as [->|Hm]]].
  - injection Hr as <-. repeat split; in_list.
  - injection Hr as <-. repeat split; in_list.
  - injection Hr as <-. repeat split; in_list.
  - rewrite !lookup_insert_ne in Hr by done. by rewrite lookup_singleton_ne in Hr.
Qed.

(** X20: [getUserCredentials] answers a role of the table with the entry
    of that role, and no role or a role it does not know with the entry of
    [admin]; but a role that bears the name of a member of
    [Object.prototype] is answered with that member, which is no
    credentials.  Whatever credentials it answers with are those of one of
    the three roles and allow at least to read. *)
Theorem getUserCredentials_falls_back_to_admin (asked : option string) :
  let answer := getUserCredentials asked in
  (asked = None -> answer = Value credentials_admin) /\
  (forall r, asked = Some r -> r ∈ ["admin"; "user"; "manager"] ->
     exists c, users !! r = Some c /\ answer = Value c /\ role c = r) /\
  (forall r, asked = Some r -> r ∉ ["admin"; "user"; "manager"] ->
     Object_prototype r = None -> answer = Value credentials_admin) /\
  (forall r member, asked = Some r -> Object_prototype r = Some member ->
     answer = Builtin member) /\
  (forall c, answer = Value c ->
     role c ∈ ["admin"; "user"; "manager"] /\ "read" ∈ permissions c).
Proof.
  intros answer. subst answer. unfold getUserCredentials, index.
  assert (Hadmin : role credentials_admin ∈ ["admin"; "user"; "manager"] /\
                   "read" ∈ permissions credentials_admin) by (split; in_list).
  destruct asked as [r|]; simpl default.
  - split; [done|]. destruct (users !! r) as [c|] eqn:Hr; simpl.
    + destruct (users_known r c Hr) as (Hin & Hrole & Hread & Hproto).
      split; [intros ? [= <-] _; by exists c|].
      split; [by intros ? [= <-] Hnot|].
      split; [intros ? member [= <-] Hmember; congruence|].
      intros c' [= <-]. by rewrite Hrole.
    + split.
      { intros ? [= <-] Hin. exfalso.
        repeat (apply elem_of_cons in Hin as [->|Hin]; [discriminate Hr|]).
        by apply elem_of_nil in Hin. }
      split; [intros ? [= <-] _ ->; done|].
      split; [intros ? member [= <-] ->; done|].
      destruct (Object_prototype r); simpl; [done|]. by intros c [= <-].
  - split; [done|]. split; [done|]. split; [done|]. split; [done|].
    by intros c [= <-].
Qed.

(** The names of the table [environments]. *)
Lemma environments_known name env :
  environments !! name = Some env ->
  name ∈ ["test"; "staging"; "production"] /\
  apiUrl env = baseUrl env +:+ "/web/index.php/api" /\
  10000 <= timeout env <= 20000 /\
  Object_prototype name = None.
Proof.
  intros Hn. unfold environments in Hn.
  destruct (decide (name = "test")) as [->|Ht];
    [|destruct (decide (name = "staging")) as [->|Hs];
      [|destruct (decide (name = "production")) as [->|Hp]]].
  - rewrite lookup_insert_eq in Hn. injection Hn as <-.
    split; [in_list|]. split; [done|]. split; [simpl; lia | done].
  - rewrite lookup_insert_ne, lookup_insert_eq in Hn by done. injection Hn as <-.
    split; [in_list|]. split; [done|]. split; [simpl; lia | done].
  - rewrite !lookup_insert_ne, lookup_singleton_eq in Hn by done. injection Hn as <-.
    split; [in_list|]. split; [done|]. split; [simpl; lia | done].
  - rewrite !lookup_insert_ne in Hn by done. by rewrite lookup_singleton_ne in Hn.
Qed.

(** X21: [getEnvironmentData] answers the name of an environment of the
    table with that environment, and a name that is falsy or that it does
    not know with the test environment; but the name of a member of
    [Object.prototype] is answered with that member, which is no
    environment.  In whatever environment it answers with, the API address
    is the base address followed by [/web/index.php/api] and the timeout
    lies between 10 and 20 seconds. *)
Theorem getEnvironmentData_falls_back_to_test (ENV : jsval) :
  let answer := getEnvironmentData ENV in
  let name := toString (or_else ENV (JStr "test")) in
  (forall env, environments !! name = Some env -> answer = Value env) /\
  (name ∉ ["staging"; "production"] -> Object_prototype name = None ->
   answer = Value environment_test) /\
  (falsy ENV = true -> answer = Value environment_test) /\
  (forall member, Object_prototype name = Some member -> answer = Builtin member) /\
  (forall env, answer = Value env ->
     apiUrl env = baseUrl env +:+ "/web/index.php/api" /\
     10000 <= timeout env <= 20000).
Proof.
  intros answer name. subst answer. unfold getEnvironmentData, index. fold name.
  assert (Hfalsy : falsy ENV = true -> name = "test").
  { unfold name, or_else, falsy. by destruct (truthy ENV). }
  destruct (environments !! name) as [env|] eqn:Hname; simpl.
  - destruct (environments_known name env Hname) as (Hin & Hurl & Htime & Hproto).
    split; [by intros ? [= <-]|]. split; [|split; [|split]].
    + intros Hnot _. repeat (apply elem_of_cons in Hin as [Hin|Hin]);
        [| exfalso; apply Hnot; rewrite Hin; in_list
         | exfalso; apply Hnot; rewrite Hin; in_list
         | by apply elem_of_nil in Hin].
      rewrite Hin in Hname. by injection Hname as <-.
    + intros Hf. rewrite (Hfalsy Hf) in Hname. by injection Hname as <-.
    + intros member Hmember. congruence.
    + by intros ? [= <-].
  - split; [done|]. split; [by intros _ ->|]. split; [|split].
    + intros Hf. by rewrite (Hfalsy Hf) in Hname.
    + by intros member ->.
    + destruct (Object_prototype name); simpl; [done|]. by intros ? [= <-].
Qed.

End tables_extras.

Section generateRandomData_extras.
Import TestDataManager.

Lemma string_length_app (a b : string) :
  String.length (a +:+ b) = (String.length a + String.length b)%nat.
Proof. induction a as [|c a IH]; simpl; [reflexivity | by rewrite IH]. Qed.

Lemma string_prefix_app (a b : string) : String.prefix a (a +:+ b) = true.
Proof.
  induction a as [|c a IH]; simpl; [by destruct b|].
  destruct (Ascii.ascii_dec c c); [exact IH | done].
Qed.

Lemma join_empty_length (l : list string) :
  String.length (join "" l) = sum_list (map String.length l).
Proof.
  unfold join. induction l as [|x l IH]; [reflexivity|].
  destruct l as [|y l]; [simpl; lia|].
  change (String.concat "" (x :: y :: l)) with (x +:+ "" +:+ String.concat "" (y :: l)).
  rewrite !string_length_app, IH. simpl. lia.
Qed.

Lemma charAt_chars_length (i : Z) :
  0 <= i < 62 -> String.length (charAt chars i) = 1%nat.
Proof.
  intros Hi.
  assert (Hall : forallb (λ k, String.length (charAt chars (Z.of_nat k)) =? 1)%nat
                   (seq 0 62) = true) by (vm_compute; reflexivity).
  rewrite forallb_forall in Hall.
  specialize (Hall (Z.to_nat i)). rewrite Z2Nat.id in Hall by lia.
  apply Nat.eqb_eq, Hall, in_seq. lia.
Qed.

Lemma pretty_three_digits (n : Z) :
  100 <= n <= 999 -> String.length (pretty n) = 3%nat.
Proof.
  intros Hn.
  assert (Hall : forallb (λ k, String.length (pretty (Z.of_nat k)) =? 3)%nat
                   (seq 100 900) = true) by (vm_compute; reflexivity).
  rewrite forallb_forall in Hall.
  specialize (Hall (Z.to_nat n)). rewrite Z2Nat.id in Hall by lia.
  apply Nat.eqb_eq, Hall, in_seq. lia.
Qed.

Lemma pretty_four_digits (n : Z) :
  1000 <= n <= 9999 -> String.length (pretty n) = 4%nat.
Proof.
  intros Hn.
  assert (Hall : forallb (λ k, String.length (pretty (Z.of_nat k)) =? 4)%nat
                   (seq (Z.to_nat 1000) (Z.to_nat 9000)) = true)
    by (vm_compute; reflexivity).
  rewrite forallb_forall in Hall.
  specialize (Hall (Z.to_nat n)). rewrite Z2Nat.id in Hall by lia.
  apply Nat.eqb_eq, Hall, in_seq. lia.
Qed.

(** X22: whatever [options] says, [generateRandomData('text', options)] is
    a string of exactly 10 characters and [generateRandomData('phone', ..)]
    one of exactly 12 characters that starts with [555-], provided
    [Math.floor(Math.random() * n)] lies between 0 and [n - 1]; a type
    without generator gives [random_<type>_<timestamp>], unless it bears
    the name of a member of [Object.prototype]: then that member is called
    in place of a generator. *)
Theorem generateRandomData_shapes
    (timestamp : Z) (floor_random : nat -> Z -> Z) (options : jsval) :
  (forall k n, 0 < n -> 0 <= floor_random k n < n) ->
  (exists text,
     generateRandomData timestamp floor_random "text" options = Generated text /\
     String.length text = 10%nat) /\
  (exists phone,
     generateRandomData timestamp floor_random "phone" options = Generated phone /\
     String.length phone = 12%nat /\
     String.prefix "555-" phone = true) /\
  (forall type,
     type ∉ ["email"; "username"; "password"; "name"; "phone"; "id"; "text"] ->
     Object_prototype type = None ->
     generateRandomData timestamp floor_random type options
     = Generated ("random_" +:+ type +:+ "_" +:+ pretty timestamp)) /\
  (forall type member,
     Object_prototype type = Some member ->
     generateRandomData timestamp floor_random type options = CallInherited member).
Proof.
  intros Hrandom. unfold generateRandomData, index. cbv zeta.
  split; [|split; [|split]].
  - rewrite !lookup_insert_ne, lookup_singleton_eq by done.
    eexists. split; [reflexivity|].
    unfold generate_text. rewrite join_empty_length. simpl default.
    change (Z.to_nat 10) with 10%nat.
    assert (Hone : forall k, String.length
                     (charAt chars (floor_random k (Z.of_nat (String.length chars))))
                   = 1%nat).
    { intros k. apply charAt_chars_length. apply (Hrandom k 62). lia. }
    simpl seq. simpl map. rewrite !Hone. reflexivity.
  - rewrite !lookup_insert_ne by done. rewrite lookup_insert_eq.
    eexists. split; [reflexivity|]. split.
    + rewrite !string_length_app.
      rewrite pretty_three_digits by (pose proof (Hrandom 0%nat 900); lia).
      rewrite pretty_four_digits by (pose proof (Hrandom 1%nat 9000); lia).
      reflexivity.
    + apply string_prefix_app.
  - intros type Hnot Hproto.
    rewrite !elem_of_cons, elem_of_nil in Hnot.
    rewrite !lookup_insert_ne by (intros <-; tauto).
    rewrite lookup_singleton_ne by (intros <-; tauto). by rewrite Hproto.
  - intros type member Hmember.
    rewrite !lookup_insert_ne by (intros <-; discriminate Hmember).
    rewrite lookup_singleton_ne by (intros <-; discriminate Hmember).
    by rewrite Hmember.
Qed.

(** A random source that counts, and an [options] object asking for 50
    characters. *)
Lemma generateRandomData_shapes_witness :
  let floor_random := λ (k : nat) (n : Z), Z.of_nat k mod n in
  let options := JObj {[ "length" := JNum 50 ]} in
  generateRandomData 1700000000000 floor_random "text" options
  = Generated "ABCDEFGHIJ" /\
  generateRandomData 1700000000000 floor_random "phone" options
  = Generated "555-100-1001" /\
  generateRandomData 1700000000000 floor_random "toString" options
  = CallInherited (NativeFunction "toString").
Proof.
  intros floor_random options.
  destruct (generateRandomData_shapes 1700000000000 floor_random options)
    as (_ & _ & _ & Hinherited).
  { intros k n Hn. apply Z.mod_pos_bound. exact Hn. }
  split; [reflexivity|]. split; [reflexivity|].
  exact (Hinherited "toString" _ eq_refl).
Defined.

End generateRandomData_extras.

(** ** The API commands: authentication and the test employee *)

Section api_commands_extras.
Import ApiCommands.

Context (network : list event -> request -> completion Response).
Context (apiBaseUrl : jsval).

Lemma sent_requests_app (h1 h2 : list event) :
  sent_requests (h1 ++ h2) = sent_requests h1 ++ sent_requests h2.
Proof.
  induction h1 as [|e h1 IH]; [reflexivity|].
  destruct e; simpl; rewrite IH; reflexivity.
Qed.

(** [apiLogin], by what the server answers. *)
Lemma apiLogin_cases (username password : option string) (h : list event) :
  let login := login_request apiBaseUrl (default "Admin" username)
                 (default "admin123" password) in
  let asked := h ++ [CyLog ("[API] Authenticating with username: "
                              +:+ default "Admin" username)] in
  apiLogin network apiBaseUrl username password h =
    match network asked login with
    | Throw msg => (Throw msg, asked ++ [CyRequest login])
    | Return resp =>
        let answered :=
          asked ++ [CyRequest login;
                    CyTaskLog ("[API] Login response: " +:+ pretty (status resp))] in
        if (status resp =? 200) || (status resp =? 201) then
          match member (response_body resp) "data" with
          | Throw msg => (Throw msg, answered)
          | Return data =>
              (Return {| token := or_else (optional_member data "token")
                                    (optional_member (response_headers resp)
                                       "authorization");
                         response := resp |},
               answered ++ [CyTaskLog "[API] Authentication successful"])
          end
        else (Return {| token := JNull; response := resp |},
              answered ++ [CyTaskLog "[API] Authentication failed"])
    end.
Proof.
  intros login asked.
  unfold apiLogin, mbind, M_bind, emit, cy_request, lift, mret, M_ret.
  fold login asked.
  destruct (network asked login) as [resp|msg]; [|reflexivity].
  cbv zeta.
  destruct ((status resp =? 200) || (status resp =? 201)).
  - destruct (member (response_body resp) "data");
      rewrite <- ?app_assoc; reflexivity.
  - rewrite <- ?app_assoc. reflexivity.
Qed.

(** [apiRequest] with authentication, by how the login ends. *)
Lemma apiRequest_auth_cases (o : options) (h : list event) :
  default true (opt_auth o) = true ->
  let started := h ++ [CyTaskLog ("[API] Making " +:+ default "GET" (opt_method o)
                                    +:+ " request to: " +:+ opt_url o)] in
  apiRequest network apiBaseUrl o h =
    match apiLogin network apiBaseUrl None None started with
    | (Return login, h') =>
        let sent := if truthy (token login)
                    then set_authorization (token login) (requestOptions o)
                    else requestOptions o in
        (network h' sent, h' ++ [CyRequest sent])
    | (Throw msg, h') => (Throw msg, h')
    end.
Proof.
  intros Hauth started. unfold apiRequest. rewrite Hauth.
  unfold mbind at 1, M_bind at 1, emit at 1. fold started.
  unfold mbind, M_bind.
  destruct (apiLogin network apiBaseUrl None None started) as [[login|msg] h'];
    reflexivity.
Qed.

(** X23: with [auth: false] [apiRequest] does not log in: it sends exactly
    one request, the one it was asked for, with the caller's headers and
    the content type and nothing else, and hands back whatever that request
    yields. *)
Theorem apiRequest_without_auth (o : options) (h : list event) :
  let started := h ++ [CyTaskLog ("[API] Making " +:+ default "GET" (opt_method o)
                                    +:+ " request to: " +:+ opt_url o)] in
  let run := apiRequest network apiBaseUrl o h in
  opt_auth o = Some false ->
  run = (network started (requestOptions o), started ++ [CyRequest (requestOptions o)]) /\
  sent_requests run.2 = sent_requests h ++ [requestOptions o] /\
  headers (requestOptions o)
  = default ∅ (opt_headers o) ∪ {[ "Content-Type" := JStr "application/json" ]}.
Proof.
  intros started run Hauth. subst run.
  assert (Hrun : apiRequest network apiBaseUrl o h
                 = (network started (requestOptions o),
                    started ++ [CyRequest (requestOptions o)])).
  { unfold apiRequest. rewrite Hauth. reflexivity. }
  rewrite Hrun. split; [reflexivity|]. split; [|reflexivity].
  cbn [snd]. unfold started. rewrite !sent_requests_app. simpl. by rewrite app_nil_r.
Qed.

(** X24: when the login succeeds and yields a token, the request goes out
    with [Authorization: Bearer <token>], which replaces an [Authorization]
    header the caller may have passed and leaves every other header as the
    caller and the default set it; the token of the response body is taken
    before the [authorization] header of the response. *)
Theorem apiRequest_after_successful_login
    (o : options) (h : list event) (resp : Response) (data : jsval) :
  let login := login_request apiBaseUrl "Admin" "admin123" in
  let started := h ++ [CyTaskLog ("[API] Making " +:+ default "GET" (opt_method o)
                                    +:+ " request to: " +:+ opt_url o)] in
  let asked := started ++ [CyLog "[API] Authenticating with username: Admin"] in
  let answered := asked ++ [CyRequest login;
                            CyTaskLog ("[API] Login response: " +:+ pretty (status resp));
                            CyTaskLog "[API] Authentication successful"] in
  let token := or_else (optional_member data "token")
                 (optional_member (response_headers resp) "authorization") in
  let sent := set_authorization token (requestOptions o) in
  default true (opt_auth o) = true ->
  network asked login = Return resp ->
  status resp = 200 \/ status resp = 201 ->
  member (response_body resp) "data" = Return data ->
  truthy token = true ->
  apiRequest network apiBaseUrl o h = (network answered sent, answered ++ [CyRequest sent]) /\
  headers sent !! "Authorization" = Some (JStr ("Bearer " +:+ toString token)) /\
  (forall key, key <> "Authorization" ->
     headers sent !! key = headers (requestOptions o) !! key) /\
  (truthy (optional_member data "token") = true -> token = optional_member data "token").
Proof.
  intros login started asked answered token sent Hauth Hnet Hstatus Hdata Htoken.
  split; [|split; [|split]].
  - rewrite (apiRequest_auth_cases o h Hauth). cbv zeta. fold started.
    pose proof (apiLogin_cases None None started) as Hlogin. cbv zeta in Hlogin.
    change (login_request apiBaseUrl (default "Admin" None) (default "admin123" None))
      with login in Hlogin.
    change (started ++ [CyLog ("[API] Authenticating with username: "
                                 +:+ default "Admin" None)])
      with asked in Hlogin.
    rewrite Hnet in Hlogin.
    replace ((status resp =? 200) || (status resp =? 201)) with true in Hlogin
      by (symmetry; apply orb_true_iff; rewrite !Z.eqb_eq; exact Hstatus).
    rewrite Hdata in Hlogin. rewrite Hlogin. cbn [ApiCommands.token].
    fold token. rewrite Htoken. fold sent.
    unfold answered. rewrite <- !app_assoc. reflexivity.
  - simpl. apply lookup_insert_eq.
  - intros key Hkey. simpl. by rewrite lookup_insert_ne.
  - intros Hbody. unfold token, or_else. by rewrite Hbody.
Qed.

End api_commands_extras.

Section api_commands_more_extras.
Import ApiCommands.

Context (network : list event -> request -> completion Response).
Context (apiBaseUrl : jsval).

Lemma last_sent_request (h : list event) (sent : request) (logs : list event) :
  sent_requests logs = [] ->
  last (sent_requests (h ++ [CyRequest sent] ++ logs)) = Some sent.
Proof.
  intros Hlogs. rewrite !sent_requests_app, Hlogs. simpl.
  rewrite ?app_nil_r. apply last_snoc.
Qed.

(** X25: a login answered with status 200 or 201 but with a body that is
    [null] or [undefined] makes [apiLogin] throw, and [apiRequest] with
    authentication throws with it: the login is the only request sent, the
    request that was asked for never goes out. *)
Theorem apiRequest_throws_on_empty_login_body
    (o : options) (h : list event) (resp : Response) :
  let login := login_request apiBaseUrl "Admin" "admin123" in
  let started := h ++ [CyTaskLog ("[API] Making " +:+ default "GET" (opt_method o)
                                    +:+ " request to: " +:+ opt_url o)] in
  let asked := started ++ [CyLog "[API] Authenticating with username: Admin"] in
  default true (opt_auth o) = true ->
  network asked login = Return resp ->
  status resp = 200 \/ status resp = 201 ->
  response_body resp = JNull \/ response_body resp = JUndefined ->
  throws (apiLogin network apiBaseUrl None None started).1 = true /\
  throws (apiRequest network apiBaseUrl o h).1 = true /\
  sent_requests (apiRequest network apiBaseUrl o h).2 = sent_requests h ++ [login].
Proof.
  intros login started asked Hauth Hnet Hstatus Hbody.
  pose proof (apiLogin_cases network apiBaseUrl None None started) as Hlogin.
  cbv zeta in Hlogin.
  change (login_request apiBaseUrl (default "Admin" None) (default "admin123" None))
    with login in Hlogin.
  change (started ++ [CyLog ("[API] Authenticating with username: "
                               +:+ default "Admin" None)])
    with asked in Hlogin.
  rewrite Hnet in Hlogin.
  replace ((status resp =? 200) || (status resp =? 201)) with true in Hlogin
    by (symmetry; apply orb_true_iff; rewrite !Z.eqb_eq; exact Hstatus).
  assert (Hthrow : exists msg, member (response_body resp) "data" = Throw msg).
  { destruct Hbody as [-> | ->]; by eexists. }
  destruct Hthrow as [msg Hmsg]. rewrite Hmsg in Hlogin.
  rewrite (apiRequest_auth_cases network apiBaseUrl o h Hauth). cbv zeta.
  fold started. rewrite Hlogin. cbn [fst snd throws].
  split; [reflexivity|]. split; [reflexivity|].
  unfold asked, started. rewrite !sent_requests_app. simpl. by rewrite !app_nil_r.
Qed.

(** X26: [createTestEmployee] posts the caller's fields laid over the five
    defaults: every field the caller gives is sent as given, every default
    the caller leaves out is sent, and whenever the command returns, the
    last request sent is that POST to [/employee]; a response with a status
    other than 200 and 201 is returned with a [null] employee id. *)
Theorem createTestEmployee_posts_merged_employee
    (t1 t2 : Z) (employeeData : option (gmap string jsval)) (h : list event) :
  let given := default ∅ employeeData in
  let merged := given ∪ defaultEmployee t1 t2 in
  let run := createTestEmployee network apiBaseUrl t1 t2 employeeData h in
  (forall key v, given !! key = Some v -> merged !! key = Some v) /\
  (forall key, given !! key = None -> merged !! key = defaultEmployee t1 t2 !! key) /\
  Forall (λ key, is_Some (merged !! key))
    ["firstName"; "lastName"; "middleName"; "employeeId"; "workEmail"] /\
  (forall c, run.1 = Return c ->
     (exists sent,
        last (sent_requests run.2) = Some sent /\
        method sent = "POST" /\ url sent = "/employee" /\
        body sent = Some (JObj merged)) /\
     (status (created_response c) <> 200 -> status (created_response c) <> 201 ->
      employeeId c = JNull)).
Proof.
  intros given merged run.
  split; [|split; [|split]].
  - intros key v Hk. unfold merged. by apply lookup_union_Some_l.
  - intros key Hk. unfold merged. by rewrite lookup_union_r.
  - assert (Hdefault : forall key, is_Some (defaultEmployee t1 t2 !! key) ->
                                   is_Some (merged !! key)).
    { intros key [v Hv]. unfold merged. rewrite lookup_union.
      rewrite Hv. destruct (given !! key); by eexists. }
    repeat (apply Forall_cons; split; [apply Hdefault; by eexists|]).
    apply Forall_nil. done.
  - intros c Hc. subst run. unfold createTestEmployee in Hc |- *.
    cbv zeta in Hc |- *. fold given merged in Hc |- *.
    unfold mbind at 1, M_bind at 1, emit at 1 in Hc.
    unfold mbind at 1, M_bind at 1, emit at 1.
    unfold mbind at 1, M_bind at 1 in Hc. unfold mbind at 1, M_bind at 1.
    rewrite apiRequest_auth_cases in Hc |- * by reflexivity. cbv zeta in Hc |- *.
    match type of Hc with
    | context [apiLogin network apiBaseUrl None None ?hist] =>
        destruct (apiLogin network apiBaseUrl None None hist) as [[login|msg] h']
    end; [|discriminate Hc].
    match type of Hc with
    | context [network h' ?r] =>
        set (sent := r) in *;
        destruct (network h' sent) as [response|msg]; [|discriminate Hc]
    end.
    assert (Hsent : method sent = "POST" /\ url sent = "/employee" /\
                    body sent = Some (JObj merged)).
    { unfold sent. destruct (truthy (token login)); done. }
    destruct ((status response =? 200) || (status response =? 201)) eqn:Hstatus.
    + unfold mbind, M_bind, lift, emit, mret, M_ret in Hc |- *.
      destruct (member (response_body response) "data") as [data|msg];
        [|discriminate Hc].
      cbn [fst snd] in Hc |- *. injection Hc as <-. split.
      * exists sent. split; [|exact Hsent].
        rewrite <- app_assoc. by apply last_sent_request.
      * cbn [created_response]. intros H200 H201. exfalso.
        apply orb_true_iff in Hstatus. rewrite !Z.eqb_eq in Hstatus. lia.
    + unfold mbind, M_bind, emit, mret, M_ret in Hc |- *.
      cbn [fst snd] in Hc |- *. injection Hc as <-. split.
      * exists sent. split; [|exact Hsent].
        rewrite <- app_assoc. by apply last_sent_request.
      * reflexivity.
Qed.

(** X27: [cleanupTestEmployee] sends nothing when the id it is given is
    falsy, which [undefined], [null], [0] and the empty string all are; with
    any other id, whenever it returns a response, the last request sent is a
    DELETE of [/employee/<id>]. *)
Theorem cleanupTestEmployee_skips_falsy_id (employeeId : jsval) (h : list event) :
  let run := cleanupTestEmployee network apiBaseUrl employeeId h in
  (falsy employeeId = true ->
   run = (Return None, h ++ [CyTaskLog "[API] No employee ID provided for cleanup"]) /\
   sent_requests run.2 = sent_requests h) /\
  Forall (λ v, falsy v = true) [JUndefined; JNull; JNum 0; JStr ""] /\
  (falsy employeeId = false ->
   forall response, run.1 = Return (Some response) ->
     exists sent,
       last (sent_requests run.2) = Some sent /\
       method sent = "DELETE" /\
       url sent = "/employee/" +:+ toString employeeId).
Proof.
  intros run. subst run. unfold cleanupTestEmployee, falsy.
  split; [|split].
  - intros ->. split; [reflexivity|].
    cbn [snd]. unfold mbind, M_bind, emit, mret, M_ret. cbn [snd].
    rewrite sent_requests_app. simpl. by rewrite app_nil_r.
  - repeat constructor.
  - intros -> response Hrun. cbn [negb] in Hrun |- *. cbv iota in Hrun |- *.
    unfold mbind at 1, M_bind at 1, emit at 1 in Hrun.
    unfold mbind at 1, M_bind at 1, emit at 1.
    unfold mbind at 1, M_bind at 1 in Hrun. unfold mbind at 1, M_bind at 1.
    rewrite apiRequest_auth_cases in Hrun |- * by reflexivity. cbv zeta in Hrun |- *.
    match type of Hrun with
    | context [apiLogin network apiBaseUrl None None ?hist] =>
        destruct (apiLogin network apiBaseUrl None None hist) as [[login|msg] h']
    end; [|discriminate Hrun].
    match type of Hrun with
    | context [network h' ?r] =>
        set (sent := r) in *;
        destruct (network h' sent) as [resp|msg]; [|discriminate Hrun]
    end.
    unfold mbind, M_bind, emit, mret, M_ret in Hrun |- *. cbn [fst snd] in Hrun |- *.
    exists sent. split; [|unfold sent; destruct (truthy (token login)); done].
    rewrite <- app_assoc. by apply last_sent_request.
Qed.

End api_commands_more_extras.

Section api_commands_extras_examples.
Import ApiCommands.

(** A request without authentication to a server that refuses everything:
    one request, and it is not a login. *)
Lemma apiRequest_without_auth_witness :
  let o := {| opt_method := None; opt_url := "/employee"; opt_body := None;
              opt_headers := None; opt_auth := Some false;
              opt_failOnStatusCode := None; opt_timeout := None |} in
  sent_requests (apiRequest unauthorized JUndefined o []).2 = [requestOptions o] /\
  method (requestOptions o) = "GET".
Proof.
  intros o.
  destruct (apiRequest_without_auth unauthorized JUndefined o [] eq_refl)
    as (_ & Hsent & _).
  split; [exact Hsent | reflexivity].
Defined.

(** The caller passes a Basic header; the login yields the token [abc]. *)
Lemma apiRequest_after_successful_login_witness :
  let o := {| opt_method := None; opt_url := "/employee"; opt_body := None;
              opt_headers := Some {[ "Authorization" := JStr "Basic YWRtaW4=" ]};
              opt_auth := None;
              opt_failOnStatusCode := None; opt_timeout := None |} in
  exists sent,
    last (sent_requests (apiRequest token_server JUndefined o []).2) = Some sent /\
    headers sent !! "Authorization" = Some (JStr "Bearer abc").
Proof.
  intros o.
  destruct (apiRequest_after_successful_login token_server JUndefined o []
              {| status := 200;
                 response_body := JObj {[ "data" := JObj {[ "token" := JStr "abc" ]} ]};
                 response_headers := JObj ∅ |}
              (JObj {[ "token" := JStr "abc" ]})
              eq_refl eq_refl ltac:(left; reflexivity) eq_refl eq_refl)
    as (Hrun & Hauth & _).
  eexists. split; [|exact Hauth]. rewrite Hrun. reflexivity.
Defined.

(** A login answered 200 with no body. *)
Lemma apiRequest_throws_on_empty_login_body_witness :
  let o := {| opt_method := None; opt_url := "/employee"; opt_body := None;
              opt_headers := None; opt_auth := None;
              opt_failOnStatusCode := None; opt_timeout := None |} in
  throws (apiRequest bodiless_server JUndefined o []).1 = true /\
  length (sent_requests (apiRequest bodiless_server JUndefined o []).2) = 1%nat.
Proof.
  intros o.
  destruct (apiRequest_throws_on_empty_login_body bodiless_server JUndefined o []
              {| status := 200; response_body := JNull; response_headers := JObj ∅ |}
              eq_refl eq_refl ltac:(left; reflexivity) ltac:(left; reflexivity))
    as (_ & Hthrows & Hsent).
  split; [exact Hthrows | by rewrite Hsent].
Defined.

(** A caller who names the employee and a server that refuses: the name is
    sent, the defaults fill in the rest, and no id comes back. *)
Lemma createTestEmployee_posts_merged_employee_witness :
  let employeeData : gmap string jsval := {[ "firstName" := JStr "Ada" ]} in
  let run := createTestEmployee unauthorized JUndefined 1700000000000 1700000000001
               (Some employeeData) [] in
  exists c sent,
    run.1 = Return c /\ employeeId c = JNull /\
    last (sent_requests run.2) = Some sent /\
    body sent = Some (JObj (employeeData ∪ defaultEmployee 1700000000000 1700000000001)) /\
    (employeeData ∪ defaultEmployee 1700000000000 1700000000001) !! "firstName"
    = Some (JStr "Ada").
Proof.
  intros employeeData run.
  destruct (createTestEmployee_posts_merged_employee unauthorized JUndefined
              1700000000000 1700000000001 (Some employeeData) [])
    as (Hgiven & _ & _ & Hreturn).
  eexists. destruct (Hreturn _ eq_refl) as ((sent & Hlast & _ & _ & Hbody) & Hnull).
  exists sent. split; [reflexivity|]. split; [apply Hnull; simpl; lia|].
  split; [exact Hlast|]. split; [exact Hbody|].
  apply Hgiven. reflexivity.
Defined.

(** An id of 0 is not cleaned up; the id 7 is. *)
Lemma cleanupTestEmployee_skips_falsy_id_witness :
  sent_requests (cleanupTestEmployee unauthorized JUndefined (JNum 0) []).2 = [] /\
  exists sent,
    last (sent_requests (cleanupTestEmployee unauthorized JUndefined (JNum 7) []).2)
    = Some sent /\
    url sent = "/employee/7".
Proof.
  destruct (cleanupTestEmployee_skips_falsy_id unauthorized JUndefined (JNum 0) [])
    as (Hfalsy & _ & _).
  destruct (cleanupTestEmployee_skips_falsy_id unauthorized JUndefined (JNum 7) [])
    as (_ & _ & Htruthy).
  split; [exact (proj2 (Hfalsy eq_refl))|].
  destruct (Htruthy eq_refl _ eq_refl) as (sent & Hlast & _ & Hurl).
  exists sent. split; [exact Hlast | exact Hurl].
Defined.

End api_commands_extras_examples.

(** ** The screenshot command *)

Section takeScreenshot_extras.
Import Commands.

Lemma dashed_get (s : string) :
  forall i c,
    String.get i (dashed s) = Some c ->
    c <> ":"%char /\ c <> "."%char /\
    exists c0, String.get i s = Some c0 /\
               (c0 <> ":"%char -> c0 <> "."%char -> c = c0).
Proof.
  induction s as [|c0 s IH]; intros i c Hget; [discriminate|].
  destruct i as [|i]; simpl in Hget.
  - injection Hget as <-.
    destruct (Ascii.eqb_spec c0 ":") as [->|Hcolon]; simpl.
    + split; [done|]. split; [done|]. exists ":"%char. done.
    + destruct (Ascii.eqb_spec c0 ".") as [->|Hdot]; simpl.
      * split; [done|]. split; [done|]. exists "."%char. done.
      * split; [done|]. split; [done|]. by exists c0.
  - destruct (IH i c Hget) as (H1 & H2 & c1 & Hc1 & Hsame).
    split; [done|]. split; [done|]. by exists c1.
Qed.

(** X28: the name [takeScreenshot] gives a screenshot is the label, an
    underscore and the timestamp with every [:] and [.] turned into [-]:
    that part has the length of the timestamp, holds neither [:] nor [.],
    keeps every other character in its place, and the file logged is
    [cypress/screenshots/<name>.png]. *)
Theorem takeScreenshot_name (iso name : string) :
  takeScreenshot iso name
  = [CyScreenshot (name +:+ "_" +:+ dashed iso);
     CyTask "logScreenshot"
       ("cypress/screenshots/" +:+ (name +:+ "_" +:+ dashed iso) +:+ ".png")] /\
  String.length (dashed iso) = String.length iso /\
  (forall i c, String.get i (dashed iso) = Some c ->
     c <> ":"%char /\ c <> "."%char /\
     exists c0, String.get i iso = Some c0 /\
                (c0 <> ":"%char -> c0 <> "."%char -> c = c0)) /\
  dashed (dashed iso) = dashed iso.
Proof.
  split; [reflexivity|]. split; [|split].
  - induction iso as [|c s IH]; simpl; [reflexivity | by rewrite IH].
  - apply dashed_get.
  - induction iso as [|c s IH]; simpl; [reflexivity|]. rewrite IH. f_equal.
    destruct (Ascii.eqb_spec c ":") as [->|Hcolon]; simpl; [reflexivity|].
    destruct (Ascii.eqb_spec c ".") as [->|Hdot]; simpl; [reflexivity|].
    destruct (Ascii.eqb_spec c ":"); [done|].
    destruct (Ascii.eqb_spec c "."); [done|]. reflexivity.
Qed.

End takeScreenshot_extras.
